(** * ChatForge icon cache: [app/core/icon_cache.py]

    A shallow embedding of the icon-resolution cache (URL helpers, the
    download task's result classification and the [IconCache] facade with its
    memory, disk and negative caches) together with the properties stated
    about it in the specification.

    Conventions.
    - A Python [str] is a Rocq [string]; its characters are read as the code
      points U+0000..U+00FF.  [str | None] is [option string].
    - A Python [int] is a [Z]; [%] with a positive modulus is [Z.modulo] and
      [>>] is [Z.shiftr] (both round towards minus infinity, as in Python).
    - Python [bytes] is [list Byte.byte].
    - A [float] timestamp returned by [time.time()] is a rational [Q]; the
      rounding of the single addition [time.time() + 300] is abstracted. *)

From Stdlib Require Import ZArith QArith Ascii String List Bool Lia.
From Stdlib.Strings Require Import Byte.
From stdpp Require Import base option list gmap strings pretty.

Local Open Scope string_scope.
Local Open Scope list_scope.
Local Open Scope Z_scope.

(** ** Python built-ins used by the module *)

Module Py.

Definition bytes := list Byte.byte.

  (** Truthiness of the values the module tests with [if x] / [if not x]. *)
Definition bool_str (s : string) : bool := negb (String.eqb s "").
Definition bool_opt_str (o : option string) : bool :=
    match o with Some s => bool_str s | None => false end.
Definition bool_bytes (b : bytes) : bool :=
    match b with [] => false | _ :: _ => true end.
Definition bool_float (x : Q) : bool := negb (Qeq_bool x 0).

  (** [x or b""] for an optional bytes value. *)
Definition or_empty (o : option bytes) : bytes :=
    match o with
    | Some b => if bool_bytes b then b else []
    | None => []
    end.

  (** [str(n)] for an [int]. *)
Definition str_of_int (n : Z) : string := pretty n.

  (** *** [int(s)] on a [str], base 10

      CPython first maps a non-ASCII string to ASCII
      ([_PyUnicode_TransformDecimalAndSpaceToASCII]): code points below 127
      are kept, other white space becomes a blank, other decimal digits become
      ASCII digits, and anything else ends the string with a question mark.
      Below U+0100 the only non-ASCII white space is U+0085 and U+00A0 and
      there is no non-ASCII decimal digit.  [PyLong_FromString] then skips
      leading white space (in the C sense), reads an optional sign, rejects a
      leading underscore, scans digits separated by single underscores, checks
      the digit-count limit, skips trailing white space and requires the end
      of the string.  [None] stands for [ValueError]. *)

Definition code (c : ascii) : N := N_of_ascii c.

Definition is_c_space (c : ascii) : bool :=
    let n := code c in
    ((9 <=? n) && (n <=? 13) || (n =? 32))%N.

Definition is_high_space (c : ascii) : bool :=
    let n := code c in ((n =? 133) || (n =? 160))%N.

Definition is_ascii_char (c : ascii) : bool := (code c <? 128)%N.

Definition digit_value (c : ascii) : option Z :=
    let n := code c in
    if ((48 <=? n) && (n <=? 57))%N then Some (Z.of_N n - 48) else None.

Fixpoint transform (l : list ascii) : list ascii :=
    match l with
    | [] => []
    | c :: r =>
        if (code c <? 127)%N then c :: transform r
        else if is_high_space c then " "%char :: transform r
        else ["?"%char]
    end.

Definition to_ascii_digits (l : list ascii) : list ascii :=
    if forallb is_ascii_char l then l else transform l.

Fixpoint skip_space (l : list ascii) : list ascii :=
    match l with
    | c :: r => if is_c_space c then skip_space r else l
    | [] => []
    end.

Definition is_underscore (c : ascii) : bool := (code c =? 95)%N.

  (** The digit scan: [prev_us] tells whether the previous character was an
      underscore; the result is the value, the number of digits and the
      unread rest. *)
Fixpoint scan_digits (prev_us : bool) (acc : Z) (digits : nat)
      (l : list ascii) : option (Z * nat * list ascii) :=
    match l with
    | c :: r =>
        match digit_value c with
        | Some d => scan_digits false (10 * acc + d) (S digits) r
        | None =>
            if is_underscore c then
              if prev_us then None else scan_digits true acc digits r
            else if prev_us then None else Some (acc, digits, l)
        end
    | [] => if prev_us then None else Some (acc, digits, [])
    end.

  (** [sys.get_int_max_str_digits()], at its default. *)
Definition int_max_str_digits : nat := 4300.

Definition parse_sign (l : list ascii) : Z * list ascii :=
    match l with
    | c :: r =>
        if (code c =? 43)%N then (1, r)
        else if (code c =? 45)%N then (-1, r)
        else (1, l)
    | [] => (1, [])
    end.

Definition int_of_chars (l : list ascii) : option Z :=
    let '(sign, l1) := parse_sign (skip_space (to_ascii_digits l)) in
    match l1 with
    | c :: _ =>
        if is_underscore c then None
        else
          match scan_digits false 0 0 l1 with
          | Some (v, digits, rest) =>
              if (digits =? 0)%nat then None
              else if (int_max_str_digits <? digits)%nat then None
              else
                match skip_space rest with
                | [] => Some (sign * v)
                | _ :: _ => None
                end
          | None => None
          end
    | [] => None
    end.

Definition int (s : string) : option Z :=
    int_of_chars (list_ascii_of_string s).

End Py.

(** ** Module constants and URL helpers *)

Definition CDN_BASE : string := "https://cdn.discordapp.com".
Definition DEFAULT_ICON_SIZE : Z := 18.
Definition DOWNLOAD_TIMEOUT_SECONDS : Z := 8.
Definition RETRY_COOLDOWN_SECONDS : Z := 300.

Definition build_dm_avatar_url (user_id avatar_hash : string) (size : Z) : string :=
  CDN_BASE +:+ "/avatars/" +:+ user_id +:+ "/" +:+ avatar_hash
    +:+ ".png?size=" +:+ Py.str_of_int size.

Definition build_guild_icon_url (guild_id icon_hash : string) (size : Z) : string :=
  CDN_BASE +:+ "/icons/" +:+ guild_id +:+ "/" +:+ icon_hash
    +:+ ".png?size=" +:+ Py.str_of_int size.

(** [discriminator not in {"0", "0000"}] *)
Definition is_sentinel (d : string) : bool :=
  String.eqb d "0" || String.eqb d "0000".

Definition default_avatar_index (user_id discriminator : option string) : Z :=
  if Py.bool_opt_str discriminator
     && negb (is_sentinel (default "" discriminator)) then
    match Py.int (default "" discriminator) with
    | Some n => n mod 5
    | None => 0
    end
  else if Py.bool_opt_str user_id then
    match Py.int (default "" user_id) with
    | Some n => Z.shiftr n 22 mod 6
    | None => 0
    end
  else 0.

Definition build_default_avatar_url (index size : Z) : string :=
  let normalized := index mod 6 in
  CDN_BASE +:+ "/embed/avatars/" +:+ Py.str_of_int normalized
    +:+ ".png?size=" +:+ Py.str_of_int size.

(** ** The download task

    The HTTP client is the environment: [requests.get] either returns a
    response or raises a [requests.RequestException], whose class name is all
    the task looks at. *)

Record Response := { status_code : Z; content : option Py.bytes }.

Inductive fetch_result :=
| Responded (response : Response)
| RequestException (class_name : string).

(** The two Qt signals of [_DownloadSignals]. *)
Inductive signal :=
| succeeded (key : string) (payload : Py.bytes)
| failed (key reason : string).

Module _IconDownloadTask.

Record t := { _key : string; _url : string }.

Definition headers : list (string * string) :=
  [("User-Agent", "ArchiveCord/1.0 (+https://discord.com)")].

Definition run (self : t)
    (requests_get : string -> Z -> list (string * string) -> fetch_result)
    : signal :=
  match requests_get (_url self) DOWNLOAD_TIMEOUT_SECONDS headers with
  | Responded response =>
      if negb (status_code response =? 200) then
        failed (_key self) ("HTTP " +:+ Py.str_of_int (status_code response))
      else
        let payload := Py.or_empty (content response) in
        if negb (Py.bool_bytes payload) then
          failed (_key self) "empty response body"
        else succeeded (_key self) payload
  | RequestException class_name => failed (_key self) class_name
  end.

End _IconDownloadTask.

(** ** External primitives of the facade

    Qt's image decoding, [hashlib], [os.path] and [platformdirs] are outside
    the repository; the facade is modelled over any implementation of them.
    [APP_NAME] comes from [app.core.paths], which is not part of the sources
    at hand. *)

Class Platform := {
  QPixmap : Type;
  QIcon : Type;
  (** [QPixmap().loadFromData(payload)]: [None] when it returns [False]. *)
  loadFromData : Py.bytes -> option QPixmap;
  (** [pix.scaled(w, h, Qt.KeepAspectRatio, Qt.SmoothTransformation)] *)
  scaled : QPixmap -> Z -> Z -> QPixmap;
  QIcon_of_pixmap : QPixmap -> QIcon;
  (** [bool(icon)] *)
  bool_icon : QIcon -> bool;
  (** [hashlib.sha256(key.encode("utf-8")).hexdigest()] *)
  sha256_hexdigest : string -> string;
  os_path_join : string -> string -> string;
  user_cache_dir : string -> string;
  APP_NAME : string;
}.

Inductive exn := KeyError | OSError.

Inductive outcome (A : Type) :=
| Ret (a : A)
| Raise (e : exn).
Arguments Ret {A} a.
Arguments Raise {A} e.

(** ** [OrderedDict], oldest entry first *)

Module OrderedDict.
Section OrderedDict.
Context {V : Type}.

Definition t := list (string * V).

Fixpoint get (k : string) (m : t) : option V :=
  match m with
  | [] => None
  | (k', v) :: r => if String.eqb k' k then Some v else get k r
  end.

Definition contains (k : string) (m : t) : bool :=
  match get k m with Some _ => true | None => false end.

(** [m[k] = v]: an existing key keeps its position. *)
Definition setitem (k : string) (v : V) (m : t) : t :=
  if contains k m then
    map (fun p => if String.eqb (fst p) k then (fst p, v) else p) m
  else m ++ [(k, v)].

Definition remove (k : string) (m : t) : t :=
  List.filter (fun p => negb (String.eqb (fst p) k)) m.

(** [m.move_to_end(k)]; [Raise KeyError] when [k] is missing. *)
Definition move_to_end (k : string) (m : t) : outcome unit * t :=
  match get k m with
  | Some v => (Ret tt, remove k m ++ [(k, v)])
  | None => (Raise KeyError, m)
  end.

Definition keys (m : t) : list string := map fst m.

End OrderedDict.
Arguments t V : clear implicits.
End OrderedDict.

Section Facade.
Context {P : Platform}.

(** ** The world the facade runs in *)

Inductive io_op :=
| OpMakedirs (path : string)
| OpIsFile (path : string)
| OpReadFile (path : string)
| OpOpenWrite (path : string)
| OpWrite (path : string) (payload : Py.bytes)
| OpReplace (src dst : string)
| OpExists (path : string)
| OpRemove (path : string).

(** What the facade does that others can observe. *)
Inductive event :=
| IconReady (key : string) (icon : QIcon)
| PoolStart (key url : string)
| LogDebug (key reason : string)
| DiskIO (op : io_op).

Record IconCache := {
  _memory : OrderedDict.t QIcon;
  _max_items : Z;
  _in_flight : gset string;
  _failed_until : gmap string Q;
  _disk_dir : string;
  (** tasks handed to the thread pool whose result was not delivered yet *)
  _pool : list (string * string);
  _max_workers : Z;
}.

(** [files] are the regular files by path; [fault op] tells whether the
    operating system fails [op] with an [OSError]; [clock] is what
    [time.time()] returns. *)
Record World := {
  self : IconCache;
  files : gmap string Py.bytes;
  fault : io_op -> bool;
  clock : Q;
  trace : list event;
}.

Definition with_self (c : IconCache) (w : World) : World :=
  {| self := c; files := files w; fault := fault w; clock := clock w;
     trace := trace w |}.

Definition with_files (f : gmap string Py.bytes) (w : World) : World :=
  {| self := self w; files := f; fault := fault w; clock := clock w;
     trace := trace w |}.

Definition emit (e : event) (w : World) : World :=
  {| self := self w; files := files w; fault := fault w; clock := clock w;
     trace := trace w ++ [e] |}.

Definition with_memory (m : OrderedDict.t QIcon) (c : IconCache) : IconCache :=
  {| _memory := m; _max_items := _max_items c; _in_flight := _in_flight c;
     _failed_until := _failed_until c; _disk_dir := _disk_dir c;
     _pool := _pool c; _max_workers := _max_workers c |}.

Definition with_in_flight (s : gset string) (c : IconCache) : IconCache :=
  {| _memory := _memory c; _max_items := _max_items c; _in_flight := s;
     _failed_until := _failed_until c; _disk_dir := _disk_dir c;
     _pool := _pool c; _max_workers := _max_workers c |}.

Definition with_failed_until (f : gmap string Q) (c : IconCache) : IconCache :=
  {| _memory := _memory c; _max_items := _max_items c;
     _in_flight := _in_flight c; _failed_until := f;
     _disk_dir := _disk_dir c; _pool := _pool c;
     _max_workers := _max_workers c |}.

Definition with_pool (p : list (string * string)) (c : IconCache) : IconCache :=
  {| _memory := _memory c; _max_items := _max_items c;
     _in_flight := _in_flight c; _failed_until := _failed_until c;
     _disk_dir := _disk_dir c; _pool := p; _max_workers := _max_workers c |}.

(** ** A state and exception monad *)

Definition M (A : Type) : Type := World -> outcome A * World.

Definition ret {A} (a : A) : M A := fun w => (Ret a, w).

Definition bind {A B} (m : M A) (f : A -> M B) : M B :=
  fun w =>
    match m w with
    | (Ret a, w') => f a w'
    | (Raise e, w') => (Raise e, w')
    end.

Definition raise {A} (e : exn) : M A := fun w => (Raise e, w).

Definition gets {A} (f : World -> A) : M A := fun w => (Ret (f w), w).

Definition modify (f : World -> World) : M unit := fun w => (Ret tt, f w).

Definition update (f : IconCache -> IconCache) : M unit :=
  modify (fun w => with_self (f (self w)) w).

(** A dictionary operation on [self._memory] that may raise. *)
Definition on_memory
    (f : OrderedDict.t QIcon -> outcome unit * OrderedDict.t QIcon) : M unit :=
  fun w =>
    let '(o, m) := f (_memory (self w)) in
    (o, with_self (with_memory m (self w)) w).

(** [try: body except OSError: handler] *)
Definition try_OSError {A} (body handler : M A) : M A :=
  fun w =>
    match body w with
    | (Raise OSError, w') => handler w'
    | r => r
    end.

Notation "x <- m ;; k" := (bind m (fun x => k))
  (at level 100, m at next level, right associativity).
Notation "m ;;; k" := (bind m (fun _ => k))
  (at level 100, right associativity).

(** ** Operating-system calls *)

Definition time_time : M Q := gets clock.

Definition guard_fault (op : io_op) : M unit :=
  modify (emit (DiskIO op)) ;;;
  f <- gets (fun w => fault w op) ;;
  if f then raise OSError else ret tt.

Definition os_makedirs (path : string) : M unit :=
  guard_fault (OpMakedirs path).

(** [os.path.isfile] and [os.path.exists] do not raise. *)
Definition os_path_isfile (path : string) : M bool :=
  modify (emit (DiskIO (OpIsFile path))) ;;;
  gets (fun w => match files w !! path with Some _ => true | None => false end).

Definition os_path_exists (path : string) : M bool :=
  modify (emit (DiskIO (OpExists path))) ;;;
  gets (fun w => match files w !! path with Some _ => true | None => false end).

(** [with open(path, "rb") as handle: handle.read()] *)
Definition read_file (path : string) : M Py.bytes :=
  guard_fault (OpReadFile path) ;;;
  c <- gets (fun w => files w !! path) ;;
  match c with
  | Some b => ret b
  | None => raise OSError
  end.

(** [open(path, "wb")] creates or truncates the file. *)
Definition open_write (path : string) : M unit :=
  guard_fault (OpOpenWrite path) ;;;
  modify (fun w => with_files (<[path := []]> (files w)) w).

(** [handle.write(payload)] and the close at the end of the [with] block. *)
Definition write_close (path : string) (payload : Py.bytes) : M unit :=
  guard_fault (OpWrite path payload) ;;;
  modify (fun w => with_files (<[path := payload]> (files w)) w).

Definition os_replace (src dst : string) : M unit :=
  guard_fault (OpReplace src dst) ;;;
  c <- gets (fun w => files w !! src) ;;
  match c with
  | Some b => modify (fun w => with_files (<[dst := b]> (delete src (files w))) w)
  | None => raise OSError
  end.

Definition os_remove (path : string) : M unit :=
  guard_fault (OpRemove path) ;;;
  c <- gets (fun w => files w !! path) ;;
  match c with
  | Some _ => modify (fun w => with_files (delete path (files w)) w)
  | None => raise OSError
  end.

(** ** [IconCache] *)

Definition default_max_items : Z := 256.
Definition default_max_workers : Z := 4.

(** The keyword arguments are optional; [None] takes the default. *)
Definition __init__ (max_items max_workers : option Z) : M unit :=
  let cache_root := user_cache_dir APP_NAME in
  let disk_dir := os_path_join cache_root "icons" in
  modify (with_self
    {| _memory := []; _max_items := default default_max_items max_items;
       _in_flight := ∅; _failed_until := ∅; _disk_dir := disk_dir;
       _pool := [];
       _max_workers := default default_max_workers max_workers |}) ;;;
  os_makedirs disk_dir.

Definition bool_opt_icon (o : option QIcon) : bool :=
  match o with Some icon => bool_icon icon | None => false end.

Definition _icon_from_bytes (payload : Py.bytes) : option QIcon :=
  match loadFromData payload with
  | None => None
  | Some pix =>
      Some (QIcon_of_pixmap (scaled pix DEFAULT_ICON_SIZE DEFAULT_ICON_SIZE))
  end.

Definition cache_path (disk_dir key : string) : string :=
  os_path_join disk_dir (sha256_hexdigest key +:+ ".img").

Definition _cache_path (key : string) : M string :=
  d <- gets (fun w => _disk_dir (self w)) ;;
  ret (cache_path d key).

Definition get_icon (key : string) : M (option QIcon) :=
  icon <- gets (fun w => OrderedDict.get key (_memory (self w))) ;;
  if negb (bool_opt_icon icon) then ret None
  else
    on_memory (OrderedDict.move_to_end key) ;;;
    ret icon.

Definition _mark_failed (key reason : string) : M unit :=
  now <- time_time ;;
  update (fun c =>
    with_failed_until
      (<[key := (now + inject_Z RETRY_COOLDOWN_SECONDS)%Q]> (_failed_until c)) c) ;;;
  modify (emit (LogDebug key reason)).

(** The eviction loop of [_remember]:
    [while len(memory) > max_items: memory.popitem(last=False)].
    [popitem(last=False)] drops the oldest entry and raises [KeyError] on an
    empty dictionary. *)
Fixpoint evict (max_items : Z) (m : OrderedDict.t QIcon)
    : outcome unit * OrderedDict.t QIcon :=
  if Z.of_nat (length m) >? max_items then
    match m with
    | [] => (Raise KeyError, [])
    | _ :: r => evict max_items r
    end
  else (Ret tt, m).

Definition _remember (key : string) (icon : QIcon) : M unit :=
  update (fun c => with_memory (OrderedDict.setitem key icon (_memory c)) c) ;;;
  on_memory (OrderedDict.move_to_end key) ;;;
  max_items <- gets (fun w => _max_items (self w)) ;;
  on_memory (evict max_items).

Definition _store_to_disk (key : string) (payload : Py.bytes) : M unit :=
  path <- _cache_path key ;;
  let tmp := path +:+ ".tmp" in
  try_OSError
    (open_write tmp ;;;
     write_close tmp payload ;;;
     os_replace tmp path)
    (try_OSError
       (e <- os_path_exists tmp ;;
        if e then os_remove tmp else ret tt)
       (ret tt)).

Definition _load_from_disk (key : string) : M (option QIcon) :=
  path <- _cache_path key ;;
  isfile <- os_path_isfile path ;;
  if negb isfile then ret None
  else
    r <- try_OSError (payload <- read_file path ;; ret (Some payload))
                     (ret None) ;;
    match r with
    | None => ret None
    | Some payload => ret (_icon_from_bytes payload)
    end.

(** [self._pool.start(task)] for a task built from [(key, url)]. *)
Definition pool_start (key url : string) : M unit :=
  update (fun c => with_pool (_pool c ++ [(key, url)]) c) ;;;
  modify (emit (PoolStart key url)).

(** The test [failed_until and failed_until > time.time()]. *)
Definition cooling_down (failed_until : option Q) (now : Q) : bool :=
  match failed_until with
  | Some d => Py.bool_float d && negb (Qle_bool d now)
  | None => false
  end.

(** The end of [request_icon], from [if not url] on. *)
Definition schedule_fetch (key : string) (url : option string) : M unit :=
  if negb (Py.bool_opt_str url) then ret tt
  else
    update (fun c => with_in_flight ({[key]} ∪ _in_flight c) c) ;;;
    pool_start key (default "" url).

Definition request_icon (key : string) (url : option string) : M unit :=
  if negb (Py.bool_str key) then ret tt
  else
    memory <- gets (fun w => _memory (self w)) ;;
    if OrderedDict.contains key memory then ret tt
    else
      in_flight <- gets (fun w => _in_flight (self w)) ;;
      if bool_decide (key ∈ in_flight) then ret tt
      else
        failed_until <- gets (fun w => _failed_until (self w) !! key) ;;
        now <- time_time ;;
        if cooling_down failed_until now then ret tt
        else
          icon <- _load_from_disk key ;;
          match icon with
          | Some i =>
              if bool_icon i then
                _remember key i ;;;
                modify (emit (IconReady key i))
              else schedule_fetch key url
          | None => schedule_fetch key url
          end.

Definition _on_download_failed (key reason : string) : M unit :=
  update (fun c => with_in_flight (_in_flight c ∖ {[key]}) c) ;;;
  _mark_failed key reason.

Definition _on_download_succeeded (key : string) (payload : Py.bytes) : M unit :=
  update (fun c => with_in_flight (_in_flight c ∖ {[key]}) c) ;;;
  match _icon_from_bytes payload with
  | Some icon =>
      if bool_icon icon then
        _remember key icon ;;;
        _store_to_disk key payload ;;;
        update (fun c => with_failed_until (delete key (_failed_until c)) c) ;;;
        modify (emit (IconReady key icon))
      else _mark_failed key "invalid image"
  | None => _mark_failed key "invalid image"
  end.

(** ** Delivery of a task's result

    A started task runs on a worker, emits one signal, and the signal is
    delivered to the connected slot of the facade on the owner's thread.
    The task is outstanding from [pool_start] until that delivery. *)

Definition deliver (s : signal) : M unit :=
  match s with
  | succeeded key payload => _on_download_succeeded key payload
  | failed key reason => _on_download_failed key reason
  end.

Fixpoint remove_task (task : string * string) (l : list (string * string))
    : list (string * string) :=
  match l with
  | [] => []
  | t :: r =>
      if String.eqb (fst t) (fst task) && String.eqb (snd t) (snd task)
      then r else t :: remove_task task r
  end.

Definition complete (key url : string)
    (requests_get : string -> Z -> list (string * string) -> fetch_result)
    : M unit :=
  update (fun c => with_pool (remove_task (key, url) (_pool c)) c) ;;;
  deliver (_IconDownloadTask.run
             {| _IconDownloadTask._key := key; _IconDownloadTask._url := url |}
             requests_get).

(** ** Runs of the facade *)

Inductive step : World -> World -> Prop :=
| step_request key url w :
    step w (snd (request_icon key url w))
| step_get key w :
    step w (snd (get_icon key w))
| step_complete key url requests_get w :
    (key, url) ∈ _pool (self w) ->
    step w (snd (complete key url requests_get w))
| step_environment w files' fault' clock' :
    step w {| self := self w; files := files'; fault := fault';
              clock := clock'; trace := trace w |}.

Inductive reachable : World -> Prop :=
| reachable_init max_items max_workers w :
    reachable (snd (__init__ max_items max_workers w))
| reachable_step w w' :
    reachable w -> step w w' -> reachable w'.

(** The observer notifications ([icon_ready] emissions) in a trace. *)
Fixpoint notifications (tr : list event) : list (string * QIcon) :=
  match tr with
  | [] => []
  | IconReady key icon :: r => (key, icon) :: notifications r
  | _ :: r => notifications r
  end.

(** The fetch jobs started in a trace. *)
Fixpoint fetches (tr : list event) : list (string * string) :=
  match tr with
  | [] => []
  | PoolStart key url :: r => (key, url) :: fetches r
  | _ :: r => fetches r
  end.

(** The disk accesses in a trace. *)
Fixpoint disk_accesses (tr : list event) : list io_op :=
  match tr with
  | [] => []
  | DiskIO op :: r => op :: disk_accesses r
  | _ :: r => disk_accesses r
  end.

(** The number of outstanding tasks for a key. *)
Definition outstanding (key : string) (w : World) : nat :=
  length (List.filter (fun t => String.eqb (fst t) key) (_pool (self w))).

(** ** Vocabulary of the statements *)

(** The world after a failure was recorded for [key]. *)
Definition failed_world (key reason : string) (w : World) : World :=
  emit (LogDebug key reason)
    (with_self
       (with_failed_until
          (<[key := (clock w + inject_Z RETRY_COOLDOWN_SECONDS)%Q]>
             (_failed_until (self w)))
          (with_in_flight (_in_flight (self w) ∖ {[key]}) (self w)))
       w).

(** The world after a fetch of [url] was scheduled for [key]. *)
Definition scheduled_world (key url : string) (w : World) : World :=
  emit (PoolStart key url)
    (with_self
       (with_pool (_pool (self w) ++ [(key, url)])
          (with_in_flight ({[key]} ∪ _in_flight (self w)) (self w)))
       w).

(** The memory cache after [key] was put: [key] moves to the recent end and
    the oldest entries beyond the capacity are gone. *)
Definition remembered (key : string) (icon : QIcon) (c : IconCache)
    : OrderedDict.t QIcon :=
  let m := OrderedDict.remove key (_memory c) ++ [(key, icon)] in
  drop (length m - Z.to_nat (_max_items c)) m.

(** Putting several entries, one after the other. *)
Fixpoint remember_all (entries : list (string * QIcon)) : M unit :=
  match entries with
  | [] => ret tt
  | (key, icon) :: r => _remember key icon ;;; remember_all r
  end.

Definition tmp_path (w : World) (key : string) : string :=
  cache_path (_disk_dir (self w)) key +:+ ".tmp".

(** The operating system fails none of the three steps of a disk write. *)
Definition write_ok (key : string) (payload : Py.bytes) (w : World) : Prop :=
  fault w (OpOpenWrite (tmp_path w key)) = false
  /\ fault w (OpWrite (tmp_path w key) payload) = false
  /\ fault w (OpReplace (tmp_path w key) (cache_path (_disk_dir (self w)) key))
     = false.

(** A computation leaves an aspect [f] of the world alone. *)
Definition preserves {A B} (f : World -> B) (m : M A) : Prop :=
  forall w, f (snd (m w)) = f w.

(** What scheduling looks at: the outstanding tasks and the in-flight set. *)
Definition sched (w : World) : list (string * string) * gset string :=
  (_pool (self w), _in_flight (self w)).

(** A request either leaves the scheduling state alone or, for a key that is
    not in flight, adds one task and the key. *)
Definition sched_step (key : string) (w w' : World) : Prop :=
  sched w' = sched w
  \/ ((key ∉ _in_flight (self w))
      /\ exists u,
           sched w'
           = (_pool (self w) ++ [(key, u)], {[key]} ∪ _in_flight (self w))).

(** The scheduling invariant: outstanding tasks have distinct keys, all of
    them in the in-flight set. *)
Definition sched_inv (w : World) : Prop :=
  NoDup (_pool (self w)).*1
  /\ forall key, key ∈ (_pool (self w)).*1 -> key ∈ _in_flight (self w).

End Facade.

(** ** The specification's wording, for comparison *)

Definition is_2xx (status : Z) : bool := (200 <=? status) && (status <=? 299).

(** The result classification as the specification words it: any 2xx status
    counts as a good response. *)
Definition classify_as_specified (key : string) (response : Response) : signal :=
  if negb (is_2xx (status_code response)) then
    failed key (Py.str_of_int (status_code response))
  else
    match content response with
    | Some (b :: r) => succeeded key (b :: r)
    | _ => failed key "empty response"
    end.

(** The default avatar index as the specification words it: the
    discriminator counts only when it is present, parses and is no sentinel;
    otherwise the user id counts when it is present and parses. *)
Definition present_int (o : option string) : option Z :=
  match o with
  | Some s => if Py.bool_str s then Py.int s else None
  | None => None
  end.

Definition default_avatar_index_as_specified
    (user_id discriminator : option string) : Z :=
  let fallback :=
    match present_int user_id with
    | Some m => Z.shiftr m 22 mod 6
    | None => 0
    end in
  match present_int discriminator with
  | Some n =>
      if negb (is_sentinel (default "" discriminator)) then n mod 5
      else fallback
  | None => fallback
  end.

(** A discriminator that selects the first branch of
    [default_avatar_index]: present, not empty, not a sentinel. *)
Definition legacy_discriminator (d : option string) : Prop :=
  exists s, d = Some s /\ s <> "" /\ s <> "0" /\ s <> "0000".

(** What [default_avatar_index] computes, case by case. *)
Inductive avatar_index : option string -> option string -> Z -> Prop :=
| index_discriminator u d n :
    d <> "" -> d <> "0" -> d <> "0000" -> Py.int d = Some n ->
    avatar_index u (Some d) (n mod 5)
| index_discriminator_invalid u d :
    d <> "" -> d <> "0" -> d <> "0000" -> Py.int d = None ->
    avatar_index u (Some d) 0
| index_user_id u d n :
    ~ legacy_discriminator d -> u <> "" -> Py.int u = Some n ->
    avatar_index (Some u) d (Z.shiftr n 22 mod 6)
| index_user_id_invalid u d :
    ~ legacy_discriminator d -> u <> "" -> Py.int u = None ->
    avatar_index (Some u) d 0
| index_nothing u d :
    ~ legacy_discriminator d -> u = None \/ u = Some "" ->
    avatar_index u d 0.

(** ** A small platform to run the model on

    Images are byte strings that start with the byte 0x89 (as PNG files do),
    scaling keeps them, every icon is non-null, the digest is replaced by the
    key itself and paths are joined with a slash. *)

Module Sample.

Definition loads (payload : Py.bytes) : option Py.bytes :=
  match payload with
  | x89 :: _ => Some payload
  | _ => None
  end.

Definition platform : Platform :=
  {| QPixmap := Py.bytes;
     QIcon := Py.bytes;
     loadFromData := loads;
     scaled := fun pix _ _ => pix;
     QIcon_of_pixmap := fun pix => pix;
     bool_icon := fun _ => true;
     sha256_hexdigest := fun key => key;
     os_path_join := fun a b => a +:+ "/" +:+ b;
     user_cache_dir := fun name => "/home/u/.cache/" +:+ name;
     APP_NAME := "ArchiveCord" |}.

Definition png : Py.bytes := [x89; x50; x4e; x47].

Definition blank (max_items : Z) : IconCache (P := platform) :=
  {| _memory := []; _max_items := max_items; _in_flight := ∅;
     _failed_until := ∅; _disk_dir := "/home/u/.cache/ArchiveCord/icons";
     _pool := []; _max_workers := 4 |}.

(** A world with an empty disk, no failing operation and the clock at 1000. *)
Definition world (max_items : Z) : World (P := platform) :=
  {| self := blank max_items; files := ∅; fault := fun _ => false;
     clock := 1000%Q; trace := [] |}.

Definition later (seconds : Z) (w : World (P := platform)) : World :=
  {| self := self w; files := files w; fault := fault w;
     clock := (clock w + inject_Z seconds)%Q; trace := trace w |}.

(** The memory cache after a computation, whatever its outcome. *)
Definition memory_after {A} (m : M (P := platform) A) (w : World)
    : list (string * Py.bytes) :=
  _memory (self (snd (m w))).

Definition then_ {A B} (m : M (P := platform) A) (k : M (P := platform) B)
    : M B :=
  bind m (fun _ => k).

Definition remember := _remember (P := platform).
Definition remember_all_ := remember_all (P := platform).
Definition request := request_icon (P := platform).
Definition get := get_icon (P := platform).

Definition key1 : string := "dm:1:a".
Definition key2 : string := "dm:2:b".
Definition key3 : string := "guild:3:c".
Definition url1 : string := "https://cdn.discordapp.com/avatars/1/a.png?size=64".

End Sample.

(** ** The callers in [app/ui/main_window.py]

    The conversation entries are dictionaries built from the Discord API's
    JSON; the fields read here hold strings or [None] (a missing key reads as
    [None]), so [str(x)] is the identity on them. *)

Module Recipient.
Record t := {
  id : option string;
  avatar : option string;
  discriminator : option string;
}.
(** The empty dictionary. *)
Definition empty : t := {| id := None; avatar := None; discriminator := None |}.
End Recipient.

Module Dm.
Record t := {
  icon_user_id : option string;
  icon_avatar : option string;
  icon_discriminator : option string;
  recipients : option (list Recipient.t);
}.
End Dm.

Module Guild.
Record t := {
  id : option string;
  icon_hash : option string;
}.
End Guild.

(** [a or b] on optional strings. *)
Definition or_str (a b : option string) : option string :=
  if Py.bool_opt_str a then a else b.

(** [recipients[0] if recipients else {}] for [recipients = x or []]. *)
Definition first_recipient (recipients : option (list Recipient.t))
    : Recipient.t :=
  match default [] recipients with
  | r :: _ => r
  | [] => Recipient.empty
  end.

(** The default of the keyword argument [size] of the URL builders. *)
Definition default_size : Z := 64.

Definition _resolve_dm_icon (dm : Dm.t) : option string * option string :=
  let user_id := Dm.icon_user_id dm in
  let avatar_hash := Dm.icon_avatar dm in
  let discriminator := Dm.icon_discriminator dm in
  let '(user_id, avatar_hash, discriminator) :=
    if negb (Py.bool_opt_str user_id) then
      let first := first_recipient (Dm.recipients dm) in
      (Recipient.id first,
       or_str avatar_hash (Recipient.avatar first),
       or_str discriminator (Recipient.discriminator first))
    else (user_id, avatar_hash, discriminator) in
  if Py.bool_opt_str user_id && Py.bool_opt_str avatar_hash then
    (Some ("dm:" +:+ default "" user_id +:+ ":" +:+ default "" avatar_hash),
     Some (build_dm_avatar_url (default "" user_id) (default "" avatar_hash)
             default_size))
  else
    let index :=
      default_avatar_index
        (if Py.bool_opt_str user_id then user_id else None)
        (if Py.bool_opt_str discriminator then discriminator else None) in
    (Some ("dm-default:"
           +:+ (if Py.bool_opt_str user_id then default "" user_id
                else "unknown")
           +:+ ":" +:+ Py.str_of_int index),
     Some (build_default_avatar_url index default_size)).

Definition _resolve_guild_icon (guild : Guild.t)
    : option string * option string :=
  let guild_id := Guild.id guild in
  let icon_hash := Guild.icon_hash guild in
  if Py.bool_opt_str guild_id && Py.bool_opt_str icon_hash then
    (Some ("guild:" +:+ default "" guild_id +:+ ":" +:+ default "" icon_hash),
     Some (build_guild_icon_url (default "" guild_id) (default "" icon_hash)
             default_size))
  else (None, None).

Section Window.
Context {P : Platform}.

(** A [QTreeWidgetItem], by identity. *)
Definition item := nat.

(** The second argument of the slot [on_icon_ready] is an [object]. *)
Inductive py_object :=
| QIconObject (icon : QIcon)
| OtherObject.

(** The part of [MainWindow] that deals with icons: the icon cache with the
    world it runs in, the items bound to each key, the icon of column 0 of
    each item as [setIcon] left it, and which items
    [item.treeWidget() is self.tree] holds for. *)
Record MainWindow := {
  _icon_cache : World;
  _icon_items : gmap string (list item);
  column_icon : gmap item QIcon;
  in_tree : item -> bool;
}.

Definition with_icon_cache (w : World) (ui : MainWindow) : MainWindow :=
  {| _icon_cache := w; _icon_items := _icon_items ui;
     column_icon := column_icon ui; in_tree := in_tree ui |}.

Definition with_icon_items (m : gmap string (list item)) (ui : MainWindow)
    : MainWindow :=
  {| _icon_cache := _icon_cache ui; _icon_items := m;
     column_icon := column_icon ui; in_tree := in_tree ui |}.

(** [item.setIcon(0, icon)] *)
Definition setIcon (it : item) (icon : QIcon) (ui : MainWindow) : MainWindow :=
  {| _icon_cache := _icon_cache ui; _icon_items := _icon_items ui;
     column_icon := <[it := icon]> (column_icon ui); in_tree := in_tree ui |}.

Definition _reset_icon_bindings (ui : MainWindow) : MainWindow :=
  with_icon_items ∅ ui.

(** [self._icon_items.setdefault(key, []).append(item)] *)
Definition _track_item_icon_key (key : string) (it : item) (ui : MainWindow)
    : MainWindow :=
  if negb (Py.bool_str key) then ui
  else
    with_icon_items
      (<[key := default [] (_icon_items ui !! key) ++ [it]]> (_icon_items ui))
      ui.

(** The loop of [on_icon_ready] over the items bound to the key. *)
Fixpoint refresh_items (icon : QIcon) (items : list item) (ui : MainWindow)
    (still_alive : list item) : MainWindow * list item :=
  match items with
  | [] => (ui, still_alive)
  | it :: r =>
      if in_tree ui it then
        refresh_items icon r (setIcon it icon ui) (still_alive ++ [it])
      else refresh_items icon r ui still_alive
  end.

Definition on_icon_ready (key : string) (icon_obj : py_object)
    (ui : MainWindow) : MainWindow :=
  match icon_obj with
  | OtherObject => ui
  | QIconObject icon =>
      let items := default [] (_icon_items ui !! key) in
      match items with
      | [] => ui
      | _ :: _ =>
          let '(ui, still_alive) := refresh_items icon items ui [] in
          match still_alive with
          | _ :: _ =>
              with_icon_items (<[key := still_alive]> (_icon_items ui)) ui
          | [] => with_icon_items (delete key (_icon_items ui)) ui
          end
      end
  end.

(** The notifications a cache operation added to the trace. *)
Definition new_notifications (before after : World) : list (string * QIcon) :=
  drop (length (notifications (trace before))) (notifications (trace after)).

(** A call into the icon cache from the window.  The signal [icon_ready] is
    connected to [on_icon_ready] within one thread, so each emission runs the
    slot at once; the facade emits as the last step of the operations that
    emit, and the slot does not call the cache, so running the slot for the
    new notifications after the operation gives the same state. *)
Definition call_cache {A} (m : M A) (ui : MainWindow)
    : outcome A * MainWindow :=
  let '(o, w) := m (_icon_cache ui) in
  (o,
   fold_left (fun ui n => on_icon_ready (fst n) (QIconObject (snd n)) ui)
     (new_notifications (_icon_cache ui) w) (with_icon_cache w ui)).

Definition _apply_cached_or_request_icon (it : item)
    (key url : option string) (fallback : QIcon) (ui : MainWindow)
    : outcome unit * MainWindow :=
  let ui := setIcon it fallback ui in
  if negb (Py.bool_opt_str key) then (Ret tt, ui)
  else
    let k := default "" key in
    let ui := _track_item_icon_key k it ui in
    match call_cache (get_icon k) ui with
    | (Ret (Some cached), ui) =>
        if bool_icon cached then (Ret tt, setIcon it cached ui)
        else call_cache (request_icon k url) ui
    | (Ret None, ui) => call_cache (request_icon k url) ui
    | (Raise e, ui) => (Raise e, ui)
    end.

(** The delivery of a finished task's signal to the facade, seen from the
    window. *)
Definition window_complete (key url : string)
    (requests_get : string -> Z -> list (string * string) -> fetch_result)
    (ui : MainWindow) : outcome unit * MainWindow :=
  call_cache (complete key url requests_get) ui.

End Window.

(** ** The caller in [app/workers/conversation_worker.py]

    The part of [ConversationWorker.run] that builds the entry of a direct
    message from the recipients the API returned:
    [recipients = dm.get("recipients") or []], the first of them (or the
    empty dictionary) supplies the three icon fields. *)
Definition dm_entry (recipients : option (list Recipient.t)) : Dm.t :=
  let first := first_recipient recipients in
  {| Dm.icon_user_id := Recipient.id first;
     Dm.icon_avatar := Recipient.avatar first;
     Dm.icon_discriminator := Recipient.discriminator first;
     Dm.recipients := Some (default [] recipients) |}.

(** ** Vocabulary of the further statements *)

Section MoreVocabulary.
Context {P : Platform}.

(** The file of a key in an instance's disk directory. *)
Definition key_path (w : World) (key : string) : string :=
  cache_path (_disk_dir (self w)) key.

(** What a disk lookup finds and the world it leaves. *)
Definition probe (key : string) (w : World) : option QIcon * World :=
  let path := key_path w key in
  let w1 := emit (DiskIO (OpIsFile path)) w in
  match files w !! path with
  | None => (None, w1)
  | Some payload =>
      let w2 := emit (DiskIO (OpReadFile path)) w1 in
      if fault w (OpReadFile path) then (None, w2)
      else (_icon_from_bytes payload, w2)
  end.

(** A request gets past its four early returns. *)
Definition request_passes (key : string) (w : World) : bool :=
  Py.bool_str key
  && negb (OrderedDict.contains key (_memory (self w)))
  && negb (bool_decide (key ∈ _in_flight (self w)))
  && negb (cooling_down (_failed_until (self w) !! key) (clock w)).

(** What every reachable cache satisfies. *)
Definition cache_inv (w : World) : Prop :=
  NoDup (OrderedDict.keys (_memory (self w)))
  /\ (forall k i, (k, i) ∈ _memory (self w) -> k <> "" /\ bool_icon i = true)
  /\ (0 <= _max_items (self w) ->
      Z.of_nat (length (_memory (self w))) <= _max_items (self w))
  /\ NoDup (_pool (self w)).*1
  /\ (forall k, k ∈ _in_flight (self w) <-> k ∈ (_pool (self w)).*1)
  /\ (forall k u, (k, u) ∈ _pool (self w) -> k <> "" /\ u <> "")
  /\ (forall k, k ∈ _in_flight (self w) ->
      OrderedDict.get k (_memory (self w)) = None).

(** The world in which the task [(key, url)] has left the thread pool. *)
Definition released (key url : string) (w : World) : World :=
  with_self (with_pool (remove_task (key, url) (_pool (self w))) (self w)) w.

(** A fetch that ends in a failure signal: a transport error, a status other
    than 200, or an empty body. *)
Definition fetch_fails (result : fetch_result) : Prop :=
  match result with
  | RequestException _ => True
  | Responded r =>
      status_code r <> 200 \/ content r = None \/ content r = Some []
  end.

(** The items bound to a key. *)
Definition bound_items (key : string) (ui : MainWindow) : list item :=
  default [] (_icon_items ui !! key).

(** An item is bound to the key and in the tree. *)
Definition live_bound (key : string) (ui : MainWindow) (it : item) : bool :=
  bool_decide (it ∈ bound_items key ui) && in_tree ui it.

End MoreVocabulary.

(** ** Sample windows *)

Module SampleWindow.

Definition placeholder : Py.bytes := [x44].

Definition key1_path : string := "/home/u/.cache/ArchiveCord/icons/dm:1:a.img".

(** The sample world with the PNG stored for [Sample.key1]. *)
Definition world_with_file : World (P := Sample.platform) :=
  with_files {[key1_path := Sample.png]} (Sample.world 256).

(** A window over a cache world; [attached] tells whether the items are in
    the tree. *)
Definition window (w : World (P := Sample.platform)) (attached : bool)
    : MainWindow (P := Sample.platform) :=
  {| _icon_cache := w; _icon_items := ∅; column_icon := ∅;
     in_tree := fun _ => attached |}.

Definition get_png (url : string) (timeout : Z)
    (headers : list (string * string)) : fetch_result :=
  Responded {| status_code := 200; content := Some Sample.png |}.

Definition get_404 (url : string) (timeout : Z)
    (headers : list (string * string)) : fetch_result :=
  Responded {| status_code := 404; content := Some [] |}.

(** A cache that has just been constructed and asked for [Sample.key1]. *)
Definition started : World (P := Sample.platform) :=
  snd (Sample.request Sample.key1 (Some Sample.url1)
         (snd (__init__ None None (Sample.world 256)))).

(** The cache after the fetch of [Sample.key1] has been delivered. *)
Definition delivered : World (P := Sample.platform) :=
  snd (complete Sample.key1 Sample.url1 get_png started).

(** A cache holding two icons. *)
Definition warm : World (P := Sample.platform) :=
  with_self
    (with_memory (P := Sample.platform)
       [(Sample.key1, Sample.png); (Sample.key2, Sample.png)]
       (Sample.blank 256))
    (Sample.world 256).

(** The window over [started] with item 0, in the tree, bound to
    [Sample.key1]. *)
Definition bound_window : MainWindow (P := Sample.platform) :=
  with_icon_items {[Sample.key1 := [0%nat]]} (window started true).

End SampleWindow.

(** * Properties *)

(** ** The download task *)

(** C1, as the code has it: a status other than 200 is a failure whose reason
    is the text HTTP followed by the status code; status 200 with an empty (or
    missing) body is a failure with reason "empty response body"; status 200
    with a non-empty body is a success carrying the body bytes; a transport
    error is a failure named after the exception class. *)
Theorem run_classification :
  forall (task : _IconDownloadTask.t) requests_get,
    let key := _IconDownloadTask._key task in
    match requests_get (_IconDownloadTask._url task)
            DOWNLOAD_TIMEOUT_SECONDS _IconDownloadTask.headers with
    | Responded response =>
        (status_code response <> 200 ->
           _IconDownloadTask.run task requests_get
           = failed key ("HTTP " +:+ Py.str_of_int (status_code response)))
        /\ (status_code response = 200 ->
            (content response = None \/ content response = Some []) ->
            _IconDownloadTask.run task requests_get
            = failed key "empty response body")
        /\ (forall body, status_code response = 200 ->
            content response = Some body -> body <> [] ->
            _IconDownloadTask.run task requests_get = succeeded key body)
    | RequestException class_name =>
        _IconDownloadTask.run task requests_get = failed key class_name
    end.
Proof.
  intros task get key. unfold _IconDownloadTask.run.
  destruct (get _ _ _) as [response | name]; [| reflexivity].
  repeat split.
  - intros Hne. destruct (Z.eqb_spec (status_code response) 200); [lia | reflexivity].
  - intros -> [-> | ->]; reflexivity.
  - intros body -> -> Hbody. destruct body; [congruence | reflexivity].
Qed.

(** C1, refuted as stated: a 201 response with a body is a 2xx response with
    a non-empty body, which the specification calls a success, yet the task
    reports the failure HTTP 201. *)
Lemma run_201_is_failure :
  let response := {| status_code := 201; content := Some [x01] |} in
  let task := {| _IconDownloadTask._key := "k"; _IconDownloadTask._url := "u" |} in
  is_2xx (status_code response) = true
  /\ classify_as_specified "k" response = succeeded "k" [x01]
  /\ _IconDownloadTask.run task (fun _ _ _ => Responded response)
     = failed "k" "HTTP 201"
  /\ _IconDownloadTask.run task (fun _ _ _ => Responded response)
     <> classify_as_specified "k" response.
Proof. repeat split; vm_compute; congruence. Qed.

(** The wording of the empty-body reason differs as well. *)
Example run_200_empty_body :
  _IconDownloadTask.run
    {| _IconDownloadTask._key := "k"; _IconDownloadTask._url := "u" |}
    (fun _ _ _ => Responded {| status_code := 200; content := Some [] |})
  = failed "k" "empty response body".
Proof. reflexivity. Qed.

(** ** The default avatar index *)

(** The model of [int] on the inputs CPython 3.11 was tried on. *)
Example int_samples :
  Py.int "1234" = Some 1234 /\ Py.int " -7 " = Some (-7)
  /\ Py.int "+1_000" = Some 1000 /\ Py.int "1__0" = None
  /\ Py.int "_1" = None /\ Py.int "1_" = None /\ Py.int "- 1" = None
  /\ Py.int "abc" = None /\ Py.int "" = None /\ Py.int "0000" = Some 0
  /\ Py.int "0x10" = None /\ Py.int "1.0" = None.
Proof. repeat split; vm_compute; reflexivity. Qed.

Lemma bool_str_true s : Py.bool_str s = true <-> s <> "".
Proof.
  unfold Py.bool_str. destruct (String.eqb_spec s ""); simpl; split;
    congruence.
Qed.

Lemma is_sentinel_false d : is_sentinel d = false <-> d <> "0" /\ d <> "0000".
Proof.
  unfold is_sentinel.
  destruct (String.eqb_spec d "0"), (String.eqb_spec d "0000"); simpl;
    intuition congruence.
Qed.

Lemma legacy_discriminator_test d :
  Py.bool_opt_str d && negb (is_sentinel (default "" d)) = true
  <-> legacy_discriminator d.
Proof.
  unfold legacy_discriminator. rewrite andb_true_iff, negb_true_iff.
  destruct d as [s |]; simpl.
  - rewrite bool_str_true, is_sentinel_false. split.
    + intros (? & ? & ?). exists s. auto.
    + intros (s' & [= <-] & ? & ? & ?). auto.
  - split; [intros [? _]; discriminate | intros (? & ? & _); discriminate].
Qed.

Lemma default_avatar_index_sound user_id discriminator :
  avatar_index user_id discriminator
    (default_avatar_index user_id discriminator).
Proof.
  unfold default_avatar_index.
  destruct (Py.bool_opt_str discriminator
            && negb (is_sentinel (default "" discriminator))) eqn:Hd.
  - apply legacy_discriminator_test in Hd as (s & -> & ? & ? & ?). simpl.
    destruct (Py.int s) eqn:Hs; now constructor.
  - assert (~ legacy_discriminator discriminator) as Hn.
    { rewrite <- legacy_discriminator_test. congruence. }
    destruct user_id as [s |]; simpl.
    + destruct (Py.bool_str s) eqn:Hs.
      * apply bool_str_true in Hs.
        destruct (Py.int s) eqn:Hi; now constructor.
      * apply index_nothing; [assumption | right].
        unfold Py.bool_str in Hs. apply negb_false_iff in Hs.
        apply String.eqb_eq in Hs. now subst.
    + apply index_nothing; auto.
Qed.

Lemma avatar_index_functional u d i j :
  avatar_index u d i -> avatar_index u d j -> i = j.
Proof.
  assert (forall s, s <> "" -> s <> "0" -> s <> "0000" ->
                    legacy_discriminator (Some s)) as Hlegacy
    by (intros s ? ? ?; exists s; auto).
  intros Hi Hj.
  destruct Hi; inversion Hj; subst; try congruence;
    try (exfalso; eauto; fail);
    repeat match goal with
           | H : _ \/ _ |- _ => destruct H
           end; congruence.
Qed.

(** C2, as the code has it: with a discriminator that is present, not empty
    and neither "0" nor "0000", the index is int(discriminator) mod 5 when it
    parses and 0 when it does not (the user id is not consulted); without such
    a discriminator, and with a non-empty user id, the index is
    (int(user_id) >> 22) mod 6 when the id parses and 0 when it does not;
    otherwise it is 0.  These cases determine the index, and no case
    raises. *)
Theorem default_avatar_index_cases :
  forall user_id discriminator index,
    avatar_index user_id discriminator index
    <-> index = default_avatar_index user_id discriminator.
Proof.
  intros u d i. split.
  - intros H. eapply avatar_index_functional; [exact H |].
    apply default_avatar_index_sound.
  - intros ->. apply default_avatar_index_sound.
Qed.

(** C2, refuted as stated: with the non-numeric discriminator "abc" and the
    user id "4194304" the wording sends the request to the user-id branch,
    which gives (4194304 >> 22) mod 6 = 1, while the code answers 0. *)
Lemma default_avatar_index_no_fallback :
  default_avatar_index (Some "4194304") (Some "abc") = 0
  /\ default_avatar_index_as_specified (Some "4194304") (Some "abc") = 1
  /\ default_avatar_index (Some "4194304") (Some "abc")
     <> default_avatar_index_as_specified (Some "4194304") (Some "abc").
Proof. repeat split; vm_compute; congruence. Qed.

Example default_avatar_index_samples :
  default_avatar_index None (Some "1234") = 4
  /\ default_avatar_index (Some "123456789012345678") (Some "0") = 0
  /\ default_avatar_index (Some "123456789012345678") (Some "0000")
     = Z.shiftr 123456789012345678 22 mod 6
  /\ default_avatar_index (Some "x") None = 0
  /\ default_avatar_index (Some "-1") None = 5
  /\ default_avatar_index None None = 0.
Proof. repeat split; vm_compute; reflexivity. Qed.

(** C10: the index is always between 0 and 5, so the reduction modulo 6 in
    [build_default_avatar_url] keeps it: the URL names the index itself. *)
Theorem default_avatar_index_range :
  forall user_id discriminator,
    let index := default_avatar_index user_id discriminator in
    0 <= index <= 5
    /\ index mod 6 = index
    /\ forall size,
         build_default_avatar_url index size
         = CDN_BASE +:+ "/embed/avatars/" +:+ Py.str_of_int index
             +:+ ".png?size=" +:+ Py.str_of_int size.
Proof.
  intros u d index.
  assert (0 <= index <= 5) as Hrange.
  { subst index. unfold default_avatar_index.
    destruct (_ && _).
    - destruct (Py.int _) as [n |]; [| lia].
      pose proof (Z.mod_pos_bound n 5). lia.
    - destruct (Py.bool_opt_str u); [| lia].
      destruct (Py.int _) as [n |]; [| lia].
      pose proof (Z.mod_pos_bound (Z.shiftr n 22) 6). lia. }
  assert (index mod 6 = index) as Hmod by (apply Z.mod_small; lia).
  repeat split; try lia.
  intros size. unfold build_default_avatar_url. simpl. now rewrite Hmod.
Qed.

(** ** Ordered dictionaries *)

Section OrderedDictProperties.
Context {V : Type}.
Implicit Types (m : OrderedDict.t V) (k : string) (v : V).

Lemma get_app_fresh k v m :
  OrderedDict.get k m = None -> OrderedDict.get k (m ++ [(k, v)]) = Some v.
Proof.
  induction m as [| [k' v'] m IH]; simpl.
  - now rewrite String.eqb_refl.
  - destruct (String.eqb k' k); [discriminate | exact IH].
Qed.

Lemma get_setitem k v m :
  OrderedDict.get k (OrderedDict.setitem k v m) = Some v.
Proof.
  unfold OrderedDict.setitem, OrderedDict.contains.
  destruct (OrderedDict.get k m) eqn:E; [| now apply get_app_fresh].
  induction m as [| [k' v'] m IH]; simpl in *; [discriminate |].
  destruct (String.eqb k' k) eqn:Ek; simpl; rewrite Ek; auto.
Qed.

Lemma remove_app k m1 m2 :
  OrderedDict.remove k (m1 ++ m2)
  = OrderedDict.remove k m1 ++ OrderedDict.remove k m2.
Proof. unfold OrderedDict.remove. apply List.filter_app. Qed.

Lemma remove_setitem k v m :
  OrderedDict.remove k (OrderedDict.setitem k v m) = OrderedDict.remove k m.
Proof.
  unfold OrderedDict.setitem. destruct (OrderedDict.contains k m).
  - induction m as [| [k' v'] m IH]; simpl; [reflexivity |].
    destruct (String.eqb k' k) eqn:Ek; simpl; rewrite Ek; simpl;
      now rewrite IH.
  - rewrite remove_app. simpl. rewrite String.eqb_refl. simpl.
    apply app_nil_r.
Qed.

Lemma remove_fresh k m :
  OrderedDict.get k m = None -> OrderedDict.remove k m = m.
Proof.
  induction m as [| [k' v'] m IH]; simpl; [reflexivity |].
  destruct (String.eqb k' k); [discriminate |]. simpl.
  intros H. now rewrite IH.
Qed.

Lemma get_remove k m : OrderedDict.get k (OrderedDict.remove k m) = None.
Proof.
  induction m as [| [k' v'] m IH]; simpl; [reflexivity |].
  destruct (String.eqb k' k) eqn:Ek; simpl; [exact IH |]. now rewrite Ek.
Qed.

Lemma get_drop_fresh k m n :
  OrderedDict.get k m = None -> OrderedDict.get k (drop n m) = None.
Proof.
  revert n. induction m as [| [k' v'] m IH]; intros [| n]; simpl; auto.
  destruct (String.eqb k' k); [discriminate | auto].
Qed.

Lemma get_None_keys k m :
  OrderedDict.get k m = None <-> k ∉ OrderedDict.keys m.
Proof.
  unfold OrderedDict.keys.
  induction m as [| [k' v'] m IH]; simpl.
  - split; [intros _ H; inversion H | reflexivity].
  - rewrite not_elem_of_cons. destruct (String.eqb_spec k' k) as [-> | Hne].
    + split; [discriminate | intros [? _]; congruence].
    + rewrite IH. split; [intros ?; split; congruence | tauto].
Qed.

Lemma move_to_end_setitem k v m :
  OrderedDict.move_to_end k (OrderedDict.setitem k v m)
  = (Ret tt, OrderedDict.remove k m ++ [(k, v)]).
Proof.
  unfold OrderedDict.move_to_end. now rewrite get_setitem, remove_setitem.
Qed.

End OrderedDictProperties.

(** ** The facade *)

Section FacadeProperties.
Context {P : Platform}.

Lemma notifications_app (a b : list event) :
  notifications (a ++ b) = notifications a ++ notifications b.
Proof.
  induction a as [| e a IH]; [reflexivity |].
  destruct e; simpl; now rewrite IH.
Qed.

Lemma fetches_app (a b : list event) :
  fetches (a ++ b) = fetches a ++ fetches b.
Proof.
  induction a as [| e a IH]; [reflexivity |].
  destruct e; simpl; now rewrite IH.
Qed.

Lemma disk_accesses_app (a b : list event) :
  disk_accesses (a ++ b) = disk_accesses a ++ disk_accesses b.
Proof.
  induction a as [| e a IH]; [reflexivity |].
  destruct e; simpl; now rewrite IH.
Qed.

(** *** Frame rules *)

Lemma preserves_ret {A B} (f : World -> B) (a : A) : preserves f (ret a).
Proof. intros w. reflexivity. Qed.

Lemma preserves_raise {A B} (f : World -> B) e :
  preserves f (raise (A := A) e).
Proof. intros w. reflexivity. Qed.

Lemma preserves_gets {A B} (f : World -> B) (g : World -> A) :
  preserves f (gets g).
Proof. intros w. reflexivity. Qed.

Lemma preserves_bind {A A' B} (f : World -> B) (m : M A) (k : A -> M A') :
  preserves f m -> (forall a, preserves f (k a)) -> preserves f (bind m k).
Proof.
  intros Hm Hk w. unfold bind. specialize (Hm w).
  destruct (m w) as [[a | e] w1]; simpl in *; [| assumption].
  now rewrite Hk.
Qed.

Lemma preserves_try {A B} (f : World -> B) (b h : M A) :
  preserves f b -> preserves f h -> preserves f (try_OSError b h).
Proof.
  intros Hb Hh w. unfold try_OSError. specialize (Hb w).
  destruct (b w) as [[a | []] w1]; simpl in *; try assumption.
  now rewrite Hh.
Qed.

Lemma preserves_modify {B} (f : World -> B) (g : World -> World) :
  (forall w, f (g w) = f w) -> preserves f (modify g).
Proof. intros H w. apply H. Qed.

Lemma preserves_update {B} (f : World -> B) (g : IconCache -> IconCache) :
  (forall w, f (with_self (g (self w)) w) = f w) -> preserves f (update g).
Proof. intros H w. apply H. Qed.

Lemma preserves_on_memory {B} (f : World -> B) g :
  (forall m w, f (with_self (with_memory m (self w)) w) = f w) ->
  preserves f (on_memory g).
Proof.
  intros H w. unfold on_memory. destruct (g _) as [o m]. apply H.
Qed.

Ltac frame :=
  repeat first
    [ apply preserves_ret | apply preserves_raise | apply preserves_gets
    | apply preserves_bind; [| intros ?]
    | apply preserves_try
    | apply preserves_modify; intros; reflexivity
    | apply preserves_update; intros; reflexivity
    | apply preserves_on_memory; intros; reflexivity
    | match goal with
      | |- preserves _ (match ?x with _ => _ end) => destruct x
      end ].

Ltac run_io :=
  unfold _store_to_disk, _load_from_disk, _cache_path, open_write,
    write_close, os_replace, os_path_exists, os_path_isfile, os_remove,
    read_file, guard_fault, try_OSError, bind, ret, gets, modify, raise;
  simpl.

Lemma load_from_disk_sched key : preserves sched (_load_from_disk key).
Proof.
  unfold _load_from_disk, _cache_path, os_path_isfile, read_file, guard_fault.
  frame.
Qed.

Lemma remember_sched key icon : preserves sched (_remember key icon).
Proof. unfold _remember. frame. Qed.

Lemma store_to_disk_sched key payload :
  preserves sched (_store_to_disk key payload).
Proof.
  unfold _store_to_disk, _cache_path, open_write, write_close, os_replace,
    os_path_exists, os_remove, guard_fault.
  frame.
Qed.

Lemma mark_failed_sched key reason : preserves sched (_mark_failed key reason).
Proof. unfold _mark_failed, time_time. frame. Qed.

Lemma get_icon_sched key : preserves sched (get_icon key).
Proof. unfold get_icon. frame. Qed.

(** *** The memory cache *)

Ltac case_gtb :=
  match goal with |- context [?a >? ?b] => destruct (Z.gtb_spec a b) end.

Lemma evict_nonneg max (m : OrderedDict.t QIcon) :
  0 <= max -> evict max m = (Ret tt, drop (length m - Z.to_nat max) m).
Proof.
  intros Hmax. induction m as [| p m IH]; simpl evict.
  - case_gtb; [simpl in *; lia | reflexivity].
  - case_gtb.
    + rewrite IH. simpl length in *. f_equal.
      replace (S (length m) - Z.to_nat max)%nat
        with (S (length m - Z.to_nat max)) by lia.
      reflexivity.
    + simpl length in *.
      replace (S (length m) - Z.to_nat max)%nat with 0%nat by lia.
      reflexivity.
Qed.

Lemma evict_negative max (m : OrderedDict.t QIcon) :
  max < 0 -> evict max m = (Raise KeyError, []).
Proof.
  intros Hmax. induction m as [| p m IH]; simpl evict.
  - case_gtb; [reflexivity | simpl in *; lia].
  - case_gtb; [exact IH | simpl length in *; lia].
Qed.

Lemma remember_eq key icon w :
  0 <= _max_items (self w) ->
  _remember key icon w
  = (Ret tt, with_self (with_memory (remembered key icon (self w)) (self w)) w).
Proof.
  intros Hmax. unfold _remember, bind, update, modify, on_memory, gets.
  simpl. rewrite move_to_end_setitem. simpl.
  rewrite evict_nonneg by assumption. reflexivity.
Qed.

Lemma length_remembered key icon c :
  0 <= _max_items c ->
  Z.of_nat (length (remembered key icon c)) <= _max_items c.
Proof. intros H. unfold remembered. cbv zeta. rewrite length_drop. lia. Qed.

Lemma remembered_recent key icon c :
  0 < _max_items c ->
  exists older,
    remembered key icon c = older ++ [(key, icon)]
    /\ OrderedDict.get key older = None.
Proof.
  intros H. unfold remembered. cbv zeta. rewrite length_app. simpl.
  set (m := OrderedDict.remove key (_memory c)).
  exists (drop (length m + 1 - Z.to_nat (_max_items c)) m). split.
  - rewrite drop_app_le by lia. reflexivity.
  - apply get_drop_fresh, get_remove.
Qed.

Lemma get_remembered key icon c :
  0 < _max_items c ->
  OrderedDict.get key (remembered key icon c) = Some icon
  /\ last (remembered key icon c) = Some (key, icon).
Proof.
  intros H. destruct (remembered_recent key icon c H) as (older & -> & Hold).
  split; [now apply get_app_fresh | apply last_snoc].
Qed.

Lemma remember_all_eq entries : forall w,
  0 <= _max_items (self w) ->
  Z.of_nat (length (_memory (self w))) <= _max_items (self w) ->
  NoDup (_memory (self w) ++ entries).*1 ->
  remember_all entries w
  = (Ret tt,
     with_self
       (with_memory
          (drop (length (_memory (self w) ++ entries)
                 - Z.to_nat (_max_items (self w)))
             (_memory (self w) ++ entries))
          (self w)) w).
Proof.
  induction entries as [| [key icon] entries IH]; intros w Hmax Hlen Hnd.
  - simpl. unfold ret. rewrite app_nil_r.
    replace (_ - _)%nat with 0%nat by lia. simpl.
    destruct w as [[] ? ? ? ?]; reflexivity.
  - simpl. unfold bind. rewrite remember_eq by assumption.
    set (m := _memory (self w)) in *.
    assert (OrderedDict.get key m = None) as Hfresh.
    { apply get_None_keys. unfold OrderedDict.keys.
      rewrite fmap_app in Hnd. apply NoDup_app in Hnd as (_ & Hdisj & _).
      intros Hin. apply (Hdisj key Hin). simpl. left. }
    assert (remembered key icon (self w)
            = drop (length (m ++ [(key, icon)])
                    - Z.to_nat (_max_items (self w))) (m ++ [(key, icon)]))
      as Hr.
    { unfold remembered. cbv zeta. fold m. now rewrite remove_fresh. }
    set (d := (length (m ++ [(key, icon)])
               - Z.to_nat (_max_items (self w)))%nat) in *.
    assert (drop d (m ++ [(key, icon)]) ++ entries
            = drop d (m ++ (key, icon) :: entries)) as Hdrop.
    { replace (m ++ (key, icon) :: entries)
        with ((m ++ [(key, icon)]) ++ entries) by now rewrite <- app_assoc.
      symmetry. apply drop_app_le. subst d. lia. }
    rewrite IH; simpl; rewrite ?Hr.
    + rewrite Hdrop, drop_drop.
      replace (d + (length (drop d (m ++ (key, icon) :: entries))
                    - Z.to_nat (_max_items (self w))))%nat
        with (length (m ++ (key, icon) :: entries)
              - Z.to_nat (_max_items (self w)))%nat; [reflexivity |].
      rewrite length_drop, !length_app. simpl. subst d.
      rewrite length_app. simpl. lia.
    + assumption.
    + rewrite length_drop. subst d. lia.
    + rewrite Hdrop. rewrite fmap_drop.
      eapply sublist_NoDup; [exact Hnd | apply sublist_drop].
Qed.

(** *** The disk store *)

Lemma store_to_disk_ok key payload w :
  write_ok key payload w ->
  exists w',
    _store_to_disk key payload w = (Ret tt, w')
    /\ files w' !! cache_path (_disk_dir (self w)) key = Some payload.
Proof.
  intros (H1 & H2 & H3). unfold tmp_path in *. run_io.
  rewrite H1. simpl. rewrite H2. simpl. rewrite H3. simpl.
  rewrite lookup_insert_eq. simpl.
  eexists. split; [reflexivity |]. simpl. apply lookup_insert_eq.
Qed.

Lemma store_to_disk_returns key payload w :
  exists w',
    _store_to_disk key payload w = (Ret tt, w')
    /\ self w' = self w /\ clock w' = clock w /\ fault w' = fault w
    /\ notifications (trace w') = notifications (trace w)
    /\ fetches (trace w') = fetches (trace w).
Proof.
  run_io.
  repeat match goal with
  | |- context [fault w ?op] => destruct (fault w op); simpl
  | |- context [match ?m !! ?k with _ => _ end] => destruct (m !! k); simpl
  end;
  eexists; (split; [reflexivity |]); simpl;
  rewrite ?notifications_app, ?fetches_app; simpl; rewrite ?app_nil_r; auto.
Qed.

Lemma load_from_disk_hit key payload w :
  files w !! cache_path (_disk_dir (self w)) key = Some payload ->
  fault w (OpReadFile (cache_path (_disk_dir (self w)) key)) = false ->
  _load_from_disk key w
  = (Ret (_icon_from_bytes payload),
     emit (DiskIO (OpReadFile (cache_path (_disk_dir (self w)) key)))
       (emit (DiskIO (OpIsFile (cache_path (_disk_dir (self w)) key))) w)).
Proof.
  intros Hf Hr. run_io. rewrite Hf. simpl. rewrite Hr. simpl.
  rewrite Hf. reflexivity.
Qed.

Lemma load_from_disk_miss key w :
  files w !! cache_path (_disk_dir (self w)) key = None ->
  _load_from_disk key w
  = (Ret None,
     emit (DiskIO (OpIsFile (cache_path (_disk_dir (self w)) key))) w).
Proof. intros Hf. run_io. rewrite Hf. reflexivity. Qed.

(** *** Requests *)

Lemma request_in_flight key url w :
  key ∈ _in_flight (self w) -> request_icon key url w = (Ret tt, w).
Proof.
  intros H. unfold request_icon.
  destruct (Py.bool_str key); [| reflexivity]. simpl.
  unfold bind at 1. simpl.
  destruct (OrderedDict.contains _ _); [reflexivity |].
  unfold bind at 1. simpl.
  rewrite bool_decide_eq_true_2 by assumption. reflexivity.
Qed.

Lemma cooling_down_future d now :
  ~ (d == 0)%Q -> (now < d)%Q -> cooling_down (Some d) now = true.
Proof.
  intros Hnz Hlt. unfold cooling_down, Py.bool_float.
  apply andb_true_iff. split; apply negb_true_iff, not_true_iff_false.
  - now rewrite Qeq_bool_iff.
  - rewrite Qle_bool_iff. intros Hle.
    apply (Qlt_irrefl now). eapply Qlt_le_trans; eassumption.
Qed.

Lemma cooling_down_past d now :
  (d <= now)%Q -> cooling_down (Some d) now = false.
Proof.
  intros Hle. unfold cooling_down.
  apply andb_false_iff. right. apply negb_false_iff.
  now apply Qle_bool_iff.
Qed.

Lemma request_cooling key url w d :
  _failed_until (self w) !! key = Some d ->
  ~ (d == 0)%Q -> (clock w < d)%Q ->
  request_icon key url w = (Ret tt, w).
Proof.
  intros H Hnz Hlt. unfold request_icon.
  destruct (Py.bool_str key); [| reflexivity]. simpl.
  unfold bind at 1. simpl.
  destruct (OrderedDict.contains _ _); [reflexivity |].
  unfold bind at 1. simpl.
  destruct (bool_decide _); [reflexivity |].
  unfold bind at 1. simpl. unfold bind at 1. simpl.
  rewrite H, cooling_down_future by assumption. reflexivity.
Qed.

(** A request that passes the three early returns and the cooldown test. *)
Lemma request_proceeds key url w :
  key <> "" ->
  OrderedDict.contains key (_memory (self w)) = false ->
  key ∉ _in_flight (self w) ->
  cooling_down (_failed_until (self w) !! key) (clock w) = false ->
  request_icon key url w
  = bind (_load_from_disk key)
      (fun icon =>
         match icon with
         | Some i =>
             if bool_icon i then
               bind (_remember key i)
                 (fun _ => modify (emit (IconReady key i)))
             else schedule_fetch key url
         | None => schedule_fetch key url
         end) w.
Proof.
  intros Hkey Hmem Hfl Hcool. unfold request_icon.
  apply bool_str_true in Hkey. rewrite Hkey. simpl.
  unfold bind at 1. simpl. rewrite Hmem.
  unfold bind at 1. simpl. rewrite bool_decide_eq_false_2 by assumption.
  unfold bind at 1. simpl. unfold bind at 1. simpl. rewrite Hcool.
  reflexivity.
Qed.

(** *** Scheduling *)

Lemma schedule_fetch_sched key url w w1 :
  key ∉ _in_flight (self w) -> sched w1 = sched w ->
  sched_step key w (snd (schedule_fetch key url w1)).
Proof.
  intros Hnot H1. unfold schedule_fetch.
  destruct (Py.bool_opt_str url); simpl; [| now left].
  right. split; [assumption |]. exists (default "" url).
  unfold sched in *. simpl. injection H1 as -> ->. reflexivity.
Qed.

Lemma request_icon_sched key url w :
  sched_step key w (snd (request_icon key url w)).
Proof.
  unfold request_icon.
  destruct (Py.bool_str key); [| now left]. simpl.
  unfold bind at 1. simpl.
  destruct (OrderedDict.contains _ _); [now left |].
  unfold bind at 1. simpl.
  destruct (bool_decide_reflect (key ∈ _in_flight (self w))) as [| Hnot];
    [now left |].
  unfold bind at 1. simpl. unfold bind at 1. simpl.
  destruct (cooling_down _ _); [now left |].
  unfold bind at 1.
  pose proof (load_from_disk_sched key w) as Hload.
  destruct (_load_from_disk key w) as [[icon | e] w1]; simpl in Hload;
    [| now left].
  destruct icon as [i |]; [| now apply schedule_fetch_sched].
  destruct (bool_icon i); [| now apply schedule_fetch_sched].
  left. rewrite <- Hload.
  assert (preserves sched
            (bind (_remember key i)
               (fun _ => modify (emit (IconReady key i))))) as H
    by (pose proof (remember_sched key i); frame; assumption).
  apply H.
Qed.

Lemma on_download_succeeded_sched key payload w :
  sched (snd (_on_download_succeeded key payload w))
  = (_pool (self w), _in_flight (self w) ∖ {[key]}).
Proof.
  unfold _on_download_succeeded. unfold bind at 1. simpl.
  set (w1 := with_self _ w).
  change (_pool (self w), _in_flight (self w) ∖ {[key]}) with (sched w1).
  pose proof (remember_sched key) as Hr.
  pose proof (store_to_disk_sched key payload) as Hs.
  pose proof (mark_failed_sched key "invalid image") as Hm.
  generalize w1.
  change (preserves sched
    match _icon_from_bytes payload with
    | Some icon =>
        if bool_icon icon
        then
          bind (_remember key icon) (fun _ =>
          bind (_store_to_disk key payload) (fun _ =>
          bind (update (fun c =>
                  with_failed_until (delete key (_failed_until c)) c))
            (fun _ => modify (emit (IconReady key icon)))))
        else _mark_failed key "invalid image"
    | None => _mark_failed key "invalid image"
    end).
  destruct (_icon_from_bytes payload) as [icon |]; [| assumption].
  destruct (bool_icon icon); [| assumption].
  frame; auto.
Qed.

Lemma remove_task_keys key url (l : list (string * string)) :
  NoDup l.*1 -> (key, url) ∈ l ->
  NoDup (remove_task (key, url) l).*1
  /\ forall k, k ∈ (remove_task (key, url) l).*1 -> k ∈ l.*1 /\ k <> key.
Proof.
  induction l as [| [k0 u0] l IH]; intros Hnd Hin; [inversion Hin |].
  simpl in Hnd. apply NoDup_cons in Hnd as [Hk0 Hnd]. simpl.
  destruct (String.eqb_spec k0 key) as [-> | Hne]; simpl.
  - destruct (String.eqb_spec u0 url) as [-> | Hu].
    + split; [assumption |]. intros k Hk. split; [now right |].
      intros ->. contradiction.
    + apply elem_of_cons in Hin as [Heq | Hin]; [congruence |].
      exfalso. apply Hk0. apply list_elem_of_fmap. now exists (key, url).
  - apply elem_of_cons in Hin as [Heq | Hin]; [congruence |].
    destruct (IH Hnd Hin) as [Hnd' Hsub]. split.
    + simpl. apply NoDup_cons. split; [| assumption].
      intros Hk. apply Hsub in Hk as [Hk _]. contradiction.
    + intros k Hk. simpl in Hk. apply elem_of_cons in Hk as [-> | Hk].
      * split; [now left | assumption].
      * apply Hsub in Hk as [Hk Hkne]. split; [now right | assumption].
Qed.

Lemma run_key task get :
  match _IconDownloadTask.run task get with
  | succeeded key _ | failed key _ => key = _IconDownloadTask._key task
  end.
Proof.
  unfold _IconDownloadTask.run.
  destruct (get _ _ _) as [r |]; [| reflexivity].
  destruct (negb _); [reflexivity |]. destruct (negb _); reflexivity.
Qed.

Lemma complete_sched key url get w :
  sched (snd (complete key url get w))
  = (remove_task (key, url) (_pool (self w)), _in_flight (self w) ∖ {[key]}).
Proof.
  unfold complete, bind. simpl.
  pose proof (run_key {| _IconDownloadTask._key := key;
                         _IconDownloadTask._url := url |} get) as Hk.
  destruct (_IconDownloadTask.run _ _) as [k payload | k reason];
    simpl in Hk; subst k; simpl.
  - now rewrite on_download_succeeded_sched.
  - reflexivity.
Qed.

Lemma sched_inv_eq w w' : sched w' = sched w -> sched_inv w -> sched_inv w'.
Proof. unfold sched, sched_inv. intros [= -> ->]. auto. Qed.

Lemma step_sched_inv w w' : step w w' -> sched_inv w -> sched_inv w'.
Proof.
  intros Hstep Hinv.
  destruct Hstep as [key url w | key w | key url get w Hin | w f' fa' c'].
  - destruct (request_icon_sched key url w) as [Heq | [Hnot [u Heq]]].
    + eapply sched_inv_eq; eassumption.
    + destruct Hinv as [Hnd Hsub]. unfold sched in Heq.
      injection Heq as Hp Hf.
      unfold sched_inv. rewrite Hp, Hf, fmap_app. simpl. split.
      * apply NoDup_app. split; [assumption |].
        split; [| apply NoDup_singleton].
        intros k Hk Hk'. apply list_elem_of_singleton in Hk' as ->. auto.
      * intros k Hk. apply elem_of_union.
        apply elem_of_app in Hk as [Hk | Hk]; [right; auto | left].
        apply list_elem_of_singleton in Hk as ->.
        now apply elem_of_singleton.
  - eapply sched_inv_eq; [apply get_icon_sched | assumption].
  - pose proof (complete_sched key url get w) as Heq. unfold sched in Heq.
    injection Heq as Hp Hf. destruct Hinv as [Hnd Hsub].
    destruct (remove_task_keys key url _ Hnd Hin) as [Hnd' Hsub'].
    unfold sched_inv. rewrite Hp, Hf. split; [assumption |].
    intros k Hk. apply Hsub' in Hk as [Hk Hne].
    apply elem_of_difference. split; [auto |].
    now rewrite elem_of_singleton.
  - exact Hinv.
Qed.

Lemma reachable_sched_inv w : reachable w -> sched_inv w.
Proof.
  induction 1 as [mi mw w | w w' _ IH Hstep].
  - unfold __init__, bind, os_makedirs, guard_fault, bind, modify, gets,
      sched_inv.
    simpl. destruct (fault _ _); simpl; split;
      solve [apply NoDup_nil_2 | intros k Hk; inversion Hk].
  - eapply step_sched_inv; eassumption.
Qed.

Lemma outstanding_le_1 key w :
  NoDup (_pool (self w)).*1 -> (outstanding key w <= 1)%nat.
Proof.
  unfold outstanding. generalize (_pool (self w)) as l.
  induction l as [| [k u] l IH]; simpl; [lia |].
  intros Hnd. apply NoDup_cons in Hnd as [Hk Hnd].
  destruct (String.eqb_spec k key) as [-> | Hne]; simpl; [| auto].
  assert (List.filter (fun t => String.eqb (fst t) key) l = []) as ->;
    [| simpl; lia].
  clear IH Hnd. induction l as [| [k' u'] l IH]; simpl; [reflexivity |].
  destruct (String.eqb_spec k' key) as [-> | Hne]; simpl.
  - exfalso. apply Hk. simpl. now left.
  - apply IH. intros H. apply Hk. simpl. now right.
Qed.

(** C3: a request for a key that is in the in-flight set changes nothing;
    when a request has started a fetch, a second request for the same key (for
    any URL, and whatever the clock and the disk have become) changes
    nothing; and in every reachable world at most one task per key is
    outstanding. *)
Theorem request_icon_dedup :
  forall (key : string) (w : World),
    (forall url,
       key ∈ _in_flight (self w) -> request_icon key url w = (Ret tt, w))
    /\ (forall url1 url2 w2,
          _pool (self (snd (request_icon key url1 w))) <> _pool (self w) ->
          self w2 = self (snd (request_icon key url1 w)) ->
          request_icon key url2 w2 = (Ret tt, w2))
    /\ (reachable w -> (outstanding key w <= 1)%nat).
Proof.
  intros key w. repeat split.
  - intros url. apply request_in_flight.
  - intros url1 url2 w2 Hpool Hself. apply request_in_flight.
    rewrite Hself.
    destruct (request_icon_sched key url1 w) as [Heq | [_ [u Heq]]];
      unfold sched in Heq; injection Heq as Hp Hf.
    + contradiction.
    + rewrite Hf. apply elem_of_union. left. now apply elem_of_singleton.
  - intros Hreach. apply outstanding_le_1.
    now destruct (reachable_sched_inv w Hreach).
Qed.

(** C9: a request with the empty key returns at once and leaves the whole
    world as it was: memory cache, negative cache, in-flight set, disk, thread
    pool and trace (so no fetch is scheduled and nothing is notified). *)
Theorem request_icon_empty_key :
  forall (url : option string) (w : World),
    request_icon "" url w = (Ret tt, w).
Proof. reflexivity. Qed.

(** C4: a fetch failure records, for its key, the deadline now + 300
    seconds.  While the clock is before that deadline a request for the key
    returns at once: no disk access, no fetch, the world is unchanged (the
    code tests the deadline for truth first, so this needs a deadline other
    than 0, which any clock after the epoch gives).  Once the clock has
    reached the deadline the entry no longer counts: the request goes on to
    the disk and, for a key found neither in memory nor on disk, schedules a
    fetch. *)
Theorem negative_cache_cooldown :
  forall (key reason : string) (w : World),
    let deadline := (clock w + inject_Z RETRY_COOLDOWN_SECONDS)%Q in
    _on_download_failed key reason w = (Ret tt, failed_world key reason w)
    /\ RETRY_COOLDOWN_SECONDS = 300
    /\ _failed_until (self (failed_world key reason w)) !! key = Some deadline
    /\ (forall url w2,
          ~ (deadline == 0)%Q ->
          _failed_until (self w2) !! key = Some deadline ->
          (clock w2 < deadline)%Q ->
          request_icon key url w2 = (Ret tt, w2))
    /\ (forall u w2,
          _failed_until (self w2) !! key = Some deadline ->
          (deadline <= clock w2)%Q ->
          cooling_down (Some deadline) (clock w2) = false
          /\ (key <> "" ->
              OrderedDict.contains key (_memory (self w2)) = false ->
              key ∉ _in_flight (self w2) ->
              files w2 !! cache_path (_disk_dir (self w2)) key = None ->
              u <> "" ->
              request_icon key (Some u) w2
              = (Ret tt,
                 scheduled_world key u
                   (emit (DiskIO (OpIsFile
                                    (cache_path (_disk_dir (self w2)) key)))
                      w2)))).
Proof.
  intros key reason w deadline.
  split; [reflexivity |]. split; [reflexivity |].
  split; [simpl; apply lookup_insert_eq |]. split.
  - intros url w2 Hnz Hentry Hlt. eapply request_cooling; eassumption.
  - intros u w2 Hentry Hpast.
    split; [now apply cooling_down_past |].
    intros Hkey Hmem Hfl Hfile Hu.
    rewrite request_proceeds; try assumption.
    + unfold bind. rewrite load_from_disk_miss by assumption.
      unfold schedule_fetch. simpl.
      apply bool_str_true in Hu. rewrite Hu. reflexivity.
    + rewrite Hentry. now apply cooling_down_past.
Qed.

(** C5: when the payload of a successful fetch decodes to a (non-null) icon
    and the capacity is not negative, processing the result returns normally,
    takes the key out of the in-flight set, puts the icon into the memory
    cache (where, the capacity being positive, it is the most recent entry),
    removes the key's negative-cache entry and emits exactly one
    notification, (key, icon), and no fetch; the raw payload is in the key's
    file afterwards whenever the operating system fails none of the write
    steps (a failed write is swallowed and changes none of the other
    effects). *)
Theorem download_success_effects :
  forall (key : string) (payload : Py.bytes) (icon : QIcon) (w : World),
    _icon_from_bytes payload = Some icon ->
    bool_icon icon = true ->
    0 <= _max_items (self w) ->
    exists w',
      _on_download_succeeded key payload w = (Ret tt, w')
      /\ _in_flight (self w') = _in_flight (self w) ∖ {[key]}
      /\ (key ∉ _in_flight (self w'))
      /\ _memory (self w') = remembered key icon (self w)
      /\ (0 < _max_items (self w) ->
          OrderedDict.get key (_memory (self w')) = Some icon
          /\ last (_memory (self w')) = Some (key, icon))
      /\ (write_ok key payload w ->
          files w' !! cache_path (_disk_dir (self w)) key = Some payload)
      /\ _failed_until (self w') = delete key (_failed_until (self w))
      /\ _failed_until (self w') !! key = None
      /\ notifications (trace w') = notifications (trace w) ++ [(key, icon)]
      /\ fetches (trace w') = fetches (trace w)
      /\ _pool (self w') = _pool (self w).
Proof.
  intros key payload icon w Hicon Hbool Hmax.
  unfold _on_download_succeeded. unfold bind at 1. simpl.
  rewrite Hicon, Hbool.
  unfold bind at 1. rewrite remember_eq by (simpl; lia). cbv beta iota.
  match goal with
  | |- context [bind (_store_to_disk key payload) _ ?x] => set (w1 := x)
  end.
  destruct (store_to_disk_returns key payload w1)
    as (w2 & Hst & Hself & Hclock & Hfault & Hnot & Hfet).
  unfold bind at 1. rewrite Hst. unfold bind, update, modify. simpl.
  eexists. split; [reflexivity |]. simpl. rewrite Hself. simpl.
  split; [reflexivity |]. split.
  { intros Hin. apply elem_of_difference in Hin as [_ Hin].
    apply Hin. now apply elem_of_singleton. }
  split; [reflexivity |]. split.
  { intros Hpos.
    apply (get_remembered key icon
             (with_in_flight (_in_flight (self w) ∖ {[key]}) (self w))).
    exact Hpos. }
  split.
  { intros Hok. destruct (store_to_disk_ok key payload w1 Hok)
      as (w2' & Hst' & Hfile).
    rewrite Hst in Hst'. injection Hst' as <-. exact Hfile. }
  split; [reflexivity |]. split; [apply lookup_delete_eq |].
  split; [rewrite notifications_app, Hnot; reflexivity |].
  split; [| reflexivity].
  rewrite fetches_app, Hfet. simpl. apply app_nil_r.
Qed.

(** C6: when the bytes of a 200 response fail to decode (or decode to a null
    icon), processing the result returns normally and leaves exactly the
    world of a failure: the key is out of the in-flight set, its cooldown
    deadline is now + 300 seconds, the reason "invalid image" is logged; the
    memory cache and the files are unchanged, the disk is not accessed and
    nothing is notified. *)
Theorem download_invalid_image :
  forall (key : string) (payload : Py.bytes) (w : World),
    bool_opt_icon (_icon_from_bytes payload) = false ->
    let w' := failed_world key "invalid image" w in
    _on_download_succeeded key payload w = (Ret tt, w')
    /\ _failed_until (self w') !! key
       = Some (clock w + inject_Z RETRY_COOLDOWN_SECONDS)%Q
    /\ trace w' = trace w ++ [LogDebug key "invalid image"]
    /\ notifications (trace w') = notifications (trace w)
    /\ disk_accesses (trace w') = disk_accesses (trace w)
    /\ _memory (self w') = _memory (self w)
    /\ files w' = files w
    /\ _in_flight (self w') = _in_flight (self w) ∖ {[key]}
    /\ (forall url requests_get,
          requests_get url DOWNLOAD_TIMEOUT_SECONDS _IconDownloadTask.headers
          = Responded {| status_code := 200; content := Some payload |} ->
          payload <> [] ->
          deliver
            (_IconDownloadTask.run
               {| _IconDownloadTask._key := key;
                  _IconDownloadTask._url := url |} requests_get) w
          = (Ret tt, w')).
Proof.
  intros key payload w H w'.
  assert (_on_download_succeeded key payload w = (Ret tt, w')) as Hrun.
  { unfold _on_download_succeeded.
    destruct (_icon_from_bytes payload) as [icon |]; simpl in H.
    - rewrite H. reflexivity.
    - reflexivity. }
  split; [exact Hrun |].
  split; [simpl; apply lookup_insert_eq |].
  split; [reflexivity |].
  split; [simpl; rewrite notifications_app; simpl; apply app_nil_r |].
  split; [simpl; rewrite disk_accesses_app; simpl; apply app_nil_r |].
  split; [reflexivity |]. split; [reflexivity |]. split; [reflexivity |].
  intros url get Hget Hbody. unfold _IconDownloadTask.run. simpl.
  rewrite Hget. simpl. destruct payload; [congruence |]. exact Hrun.
Qed.

Lemma get_icon_hit key icon w :
  OrderedDict.get key (_memory (self w)) = Some icon ->
  bool_icon icon = true ->
  get_icon key w
  = (Ret (Some icon),
     with_self
       (with_memory
          (OrderedDict.remove key (_memory (self w)) ++ [(key, icon)])
          (self w)) w).
Proof.
  intros Hget Hbool. unfold get_icon, bind, gets, on_memory. simpl.
  rewrite Hget. simpl. rewrite Hbool. simpl.
  unfold OrderedDict.move_to_end. rewrite Hget. reflexivity.
Qed.

Lemma get_icon_miss key w :
  OrderedDict.get key (_memory (self w)) = None ->
  get_icon key w = (Ret None, w).
Proof.
  intros Hget. unfold get_icon, bind, gets. simpl. now rewrite Hget.
Qed.

(** C7: with a capacity that is not negative, putting a key returns normally
    and leaves the other entries in their order, followed by the key as the
    most recent one, cut from the old end down to the capacity; the cache
    never holds more than the capacity.  Putting capacity + 1 entries with
    distinct keys into an empty cache leaves exactly the last capacity of
    them: the first, least recently used, is gone.  A hit of get_icon
    returns the icon and moves the key to the recent end; a miss changes
    nothing.  The default capacity is 256. *)
Theorem memory_cache_lru :
  forall (w : World),
    0 <= _max_items (self w) ->
    (forall key icon,
       _remember key icon w
       = (Ret tt,
          with_self (with_memory (remembered key icon (self w)) (self w)) w)
       /\ Z.of_nat (length (remembered key icon (self w)))
          <= _max_items (self w)
       /\ (0 < _max_items (self w) ->
           last (remembered key icon (self w)) = Some (key, icon)
           /\ OrderedDict.get key (remembered key icon (self w)) = Some icon))
    /\ (forall first rest,
          _memory (self w) = [] ->
          NoDup (first :: rest).*1 ->
          Z.of_nat (length (first :: rest)) = _max_items (self w) + 1 ->
          remember_all (first :: rest) w
          = (Ret tt, with_self (with_memory rest (self w)) w)
          /\ Z.of_nat (length rest) = _max_items (self w)
          /\ OrderedDict.get (fst first) rest = None)
    /\ (forall key icon,
          OrderedDict.get key (_memory (self w)) = Some icon ->
          bool_icon icon = true ->
          get_icon key w
          = (Ret (Some icon),
             with_self
               (with_memory
                  (OrderedDict.remove key (_memory (self w)) ++ [(key, icon)])
                  (self w)) w))
    /\ (forall key,
          OrderedDict.get key (_memory (self w)) = None ->
          get_icon key w = (Ret None, w))
    /\ (forall max_workers w0,
          _max_items (self (snd (__init__ None max_workers w0))) = 256).
Proof.
  intros w Hmax. split; [| split; [| split; [| split]]].
  - intros key icon. split; [now apply remember_eq |].
    split; [now apply length_remembered |].
    intros Hpos. split; now apply get_remembered.
  - intros first rest Hempty Hnd Hlen. split; [| split].
    + rewrite remember_all_eq; rewrite ?Hempty; simpl; try lia;
        try assumption.
      replace (S (length rest) - Z.to_nat (_max_items (self w)))%nat
        with 1%nat by (simpl length in *; lia).
      reflexivity.
    + simpl length in *. lia.
    + apply get_None_keys. unfold OrderedDict.keys.
      simpl in Hnd. now apply NoDup_cons in Hnd as [? _].
  - intros key icon. apply get_icon_hit.
  - intros key. apply get_icon_miss.
  - intros mw w0. unfold __init__, bind, modify, os_makedirs, guard_fault,
      bind, modify, gets. simpl. destruct (fault _ _); reflexivity.
Qed.

Lemma init_eq max_items max_workers w :
  let disk_dir := os_path_join (user_cache_dir APP_NAME) "icons" in
  fault w (OpMakedirs disk_dir) = false ->
  __init__ max_items max_workers w
  = (Ret tt,
     emit (DiskIO (OpMakedirs disk_dir))
       (with_self
          {| _memory := []; _max_items := default default_max_items max_items;
             _in_flight := ∅; _failed_until := ∅; _disk_dir := disk_dir;
             _pool := [];
             _max_workers := default default_max_workers max_workers |} w)).
Proof.
  intros disk_dir H. unfold __init__, bind, modify, os_makedirs, guard_fault,
    bind, modify, gets. simpl. fold disk_dir. now rewrite H.
Qed.

(** C8: every instance keeps the bytes of a key at
    join(join(cache root, "icons"), sha256(key) hex + ".img").  A store whose
    write steps do not fail leaves the payload there.  With the payload
    there, a fresh instance (positive capacity, a non-empty key, a payload
    that decodes, a read that does not fail), asked for the key without a
    URL, probes and reads that file, puts the decoded icon into its memory
    cache, notifies it, starts no fetch and leaves the files as they are. *)
Theorem disk_round_trip :
  forall (key : string) (payload : Py.bytes) (icon : QIcon),
    let disk_dir := os_path_join (user_cache_dir APP_NAME) "icons" in
    let path := os_path_join disk_dir (sha256_hexdigest key +:+ ".img") in
    (forall max_items max_workers w,
       _cache_path key (snd (__init__ max_items max_workers w))
       = (Ret path, snd (__init__ max_items max_workers w)))
    /\ (forall w,
          _disk_dir (self w) = disk_dir ->
          write_ok key payload w ->
          fst (_store_to_disk key payload w) = Ret tt
          /\ files (snd (_store_to_disk key payload w)) !! path
             = Some payload)
    /\ (forall max_items max_workers w0,
          files w0 !! path = Some payload ->
          key <> "" ->
          _icon_from_bytes payload = Some icon ->
          bool_icon icon = true ->
          0 < default default_max_items max_items ->
          fault w0 (OpMakedirs disk_dir) = false ->
          fault w0 (OpReadFile path) = false ->
          exists w1 w2,
            __init__ max_items max_workers w0 = (Ret tt, w1)
            /\ request_icon key None w1 = (Ret tt, w2)
            /\ _memory (self w2) = [(key, icon)]
            /\ _pool (self w2) = []
            /\ _in_flight (self w2) = ∅
            /\ files w2 = files w0
            /\ trace w2
               = trace w1
                 ++ [DiskIO (OpIsFile path); DiskIO (OpReadFile path);
                     IconReady key icon]).
Proof.
  intros key payload icon disk_dir path. split; [| split].
  - intros mi mw w. unfold __init__, bind, modify, os_makedirs, guard_fault,
      bind, modify, gets. simpl. destruct (fault _ _); reflexivity.
  - intros w Hdir Hok.
    destruct (store_to_disk_ok key payload w Hok) as (w' & -> & Hfile).
    simpl. rewrite Hdir in Hfile. split; [reflexivity | exact Hfile].
  - intros mi mw w0 Hfile Hkey Hicon Hbool Hmax Hmk Hrd.
    rewrite init_eq by assumption. fold disk_dir.
    eexists. eexists. split; [reflexivity |].
    rewrite request_proceeds; try assumption; try reflexivity.
    + unfold bind at 1.
      rewrite (load_from_disk_hit key payload) by assumption.
      rewrite Hicon, Hbool. unfold bind.
      rewrite remember_eq by (simpl; lia).
      unfold modify. split; [reflexivity |]. simpl.
      unfold remembered. simpl.
      replace (1 - Z.to_nat (default default_max_items mi))%nat with 0%nat
        by lia.
      repeat split. now rewrite <- !app_assoc.
    + simpl. apply not_elem_of_empty.
Qed.

End FacadeProperties.

(** ** The properties at work on the sample platform *)

(** With capacity 2: after putting two keys, reading the first makes the
    second the least recently used one, so a third key evicts the second. *)
Example lru_get_touches :
  Sample.memory_after
    (Sample.then_ (Sample.remember Sample.key1 Sample.png)
       (Sample.then_ (Sample.remember Sample.key2 Sample.png)
          (Sample.then_ (Sample.get Sample.key1)
             (Sample.remember Sample.key3 Sample.png))))
    (Sample.world 2)
  = [(Sample.key1, Sample.png); (Sample.key3, Sample.png)].
Proof. vm_compute. reflexivity. Qed.

(** A negative capacity makes the eviction loop pop from an empty
    dictionary. *)
Example remember_negative_capacity :
  fst (Sample.remember Sample.key1 Sample.png (Sample.world (-1)))
  = Raise KeyError.
Proof. vm_compute. reflexivity. Qed.

(** A failure recorded when the clock reads -300 gets the deadline 0, which
    the truth test of [request_icon] takes for no deadline: one second later
    the request goes to the disk and schedules a fetch. *)
Example cooldown_deadline_zero :
  let w : World (P := Sample.platform) :=
    {| self := Sample.blank 256; files := ∅; fault := fun _ => false;
       clock := (-300)%Q; trace := [] |} in
  let w1 := failed_world Sample.key1 "HTTP 500" w in
  fetches (trace (snd (Sample.request Sample.key1 (Some Sample.url1)
                         (Sample.later 1 w1))))
  = [(Sample.key1, Sample.url1)].
Proof. vm_compute. reflexivity. Qed.

(** Two requests in a row start one fetch. *)
Example request_twice :
  fetches
    (trace (snd (Sample.then_ (Sample.request Sample.key1 (Some Sample.url1))
                   (Sample.request Sample.key1 (Some Sample.url1))
                   (Sample.world 256))))
  = [(Sample.key1, Sample.url1)].
Proof. vm_compute. reflexivity. Qed.

(** ** Instances of the statements *)

Lemma run_classification_witness :
  let task := {| _IconDownloadTask._key := Sample.key1;
                 _IconDownloadTask._url := Sample.url1 |} in
  _IconDownloadTask.run task
    (fun _ _ _ => Responded {| status_code := 404; content := Some [] |})
  = failed Sample.key1 "HTTP 404"
  /\ _IconDownloadTask.run task
       (fun _ _ _ =>
          Responded {| status_code := 200; content := Some Sample.png |})
     = succeeded Sample.key1 Sample.png.
Proof.
  split.
  - apply (run_classification
             {| _IconDownloadTask._key := Sample.key1;
                _IconDownloadTask._url := Sample.url1 |}
             (fun _ _ _ =>
                Responded {| status_code := 404; content := Some [] |})).
    simpl. lia.
  - apply (run_classification
             {| _IconDownloadTask._key := Sample.key1;
                _IconDownloadTask._url := Sample.url1 |}
             (fun _ _ _ =>
                Responded {| status_code := 200; content := Some Sample.png |}));
      [reflexivity | reflexivity | discriminate].
Defined.

Lemma request_icon_dedup_witness :
  let w := Sample.world 256 in
  let w1 := snd (Sample.request Sample.key1 (Some Sample.url1) w) in
  _pool (self w1) <> _pool (self w)
  /\ Sample.request Sample.key1 (Some "https://other") (Sample.later 1 w1)
     = (Ret tt, Sample.later 1 w1).
Proof.
  intros w w1.
  assert (_pool (self w1) <> _pool (self w)) as Hpool
    by (vm_compute; discriminate).
  split; [exact Hpool |].
  apply (proj1 (proj2 (request_icon_dedup (P := Sample.platform)
                         Sample.key1 w))
           (Some Sample.url1) (Some "https://other") (Sample.later 1 w1)).
  - exact Hpool.
  - reflexivity.
Defined.

Lemma negative_cache_cooldown_witness :
  let w := Sample.world 256 in
  let w1 := failed_world (P := Sample.platform) Sample.key1 "HTTP 404" w in
  (clock (Sample.later 1 w1) < 1000 + inject_Z 300)%Q
  /\ Sample.request Sample.key1 (Some Sample.url1) (Sample.later 1 w1)
     = (Ret tt, Sample.later 1 w1)
  /\ (1000 + inject_Z 300 <= clock (Sample.later 300 w1))%Q
  /\ fetches
       (trace (snd (Sample.request Sample.key1 (Some Sample.url1)
                      (Sample.later 300 w1))))
     = [(Sample.key1, Sample.url1)].
Proof.
  intros w w1.
  pose proof (negative_cache_cooldown (P := Sample.platform)
                Sample.key1 "HTTP 404" w) as (_ & _ & Hentry & Hcool & Hpast).
  assert (clock (Sample.later 1 w1) < 1000 + inject_Z 300)%Q as Hlt
    by (vm_compute; reflexivity).
  assert (1000 + inject_Z 300 <= clock (Sample.later 300 w1))%Q as Hle
    by (vm_compute; discriminate).
  split; [exact Hlt |]. split; [| split; [exact Hle |]].
  - apply (Hcool (Some Sample.url1) (Sample.later 1 w1)).
    + vm_compute. discriminate.
    + exact Hentry.
    + exact Hlt.
  - destruct (Hpast Sample.url1 (Sample.later 300 w1) Hentry Hle)
      as [_ Hsched].
    unfold Sample.request. rewrite Hsched.
    + reflexivity.
    + discriminate.
    + reflexivity.
    + vm_compute. discriminate.
    + reflexivity.
    + discriminate.
Defined.

Lemma download_success_effects_witness :
  _icon_from_bytes (P := Sample.platform) Sample.png = Some Sample.png
  /\ 0 < _max_items (self (Sample.world 256))
  /\ exists w',
       _on_download_succeeded (P := Sample.platform)
         Sample.key1 Sample.png (Sample.world 256) = (Ret tt, w')
       /\ OrderedDict.get Sample.key1 (_memory (self w')) = Some Sample.png
       /\ files w' !! "/home/u/.cache/ArchiveCord/icons/dm:1:a.img"
          = Some Sample.png
       /\ notifications (trace w') = [(Sample.key1, Sample.png)].
Proof.
  split; [reflexivity |]. split; [reflexivity |].
  destruct (download_success_effects (P := Sample.platform)
              Sample.key1 Sample.png Sample.png (Sample.world 256))
    as (w' & Hrun & _ & _ & _ & Hget & Hfile & _ & _ & Hnot & _);
    [reflexivity | reflexivity | vm_compute; discriminate |].
  exists w'. split; [exact Hrun |].
  split; [apply Hget; reflexivity |].
  split; [| exact Hnot].
  apply Hfile. repeat split.
Defined.

Lemma download_invalid_image_witness :
  bool_opt_icon (_icon_from_bytes (P := Sample.platform) [x00; x01]) = false
  /\ _on_download_succeeded (P := Sample.platform)
       Sample.key1 [x00; x01] (Sample.world 256)
     = (Ret tt, failed_world Sample.key1 "invalid image" (Sample.world 256)).
Proof.
  split; [reflexivity |].
  apply (download_invalid_image (P := Sample.platform)
           Sample.key1 [x00; x01] (Sample.world 256)).
  reflexivity.
Defined.

Lemma memory_cache_lru_witness :
  0 <= _max_items (self (Sample.world 2))
  /\ Sample.remember_all_
       [(Sample.key1, Sample.png); (Sample.key2, Sample.png);
        (Sample.key3, Sample.png)] (Sample.world 2)
     = (Ret tt,
        with_self
          (with_memory (P := Sample.platform)
             [(Sample.key2, Sample.png); (Sample.key3, Sample.png)]
             (self (Sample.world 2)))
          (Sample.world 2)).
Proof.
  split; [vm_compute; discriminate |].
  apply (proj1 (proj2 (memory_cache_lru (P := Sample.platform)
                         (Sample.world 2) ltac:(vm_compute; discriminate)))
           (Sample.key1, Sample.png)
           [(Sample.key2, Sample.png); (Sample.key3, Sample.png)]).
  - reflexivity.
  - vm_compute. repeat constructor; intros H;
      repeat (apply elem_of_cons in H as [H | H]; [discriminate |]);
      inversion H.
  - reflexivity.
Defined.

Lemma disk_round_trip_witness :
  let stored :=
    snd (_store_to_disk (P := Sample.platform) Sample.key1 Sample.png
           (Sample.world 256)) in
  let restart : World (P := Sample.platform) :=
    {| self := Sample.blank 0; files := files stored;
       fault := fun _ => false; clock := 5000%Q; trace := [] |} in
  files stored !! "/home/u/.cache/ArchiveCord/icons/dm:1:a.img"
  = Some Sample.png
  /\ exists w1 w2,
       __init__ None None restart = (Ret tt, w1)
       /\ Sample.request Sample.key1 None w1 = (Ret tt, w2)
       /\ _memory (self w2) = [(Sample.key1, Sample.png)]
       /\ _pool (self w2) = [].
Proof.
  intros stored restart.
  pose proof (disk_round_trip (P := Sample.platform)
                Sample.key1 Sample.png Sample.png) as (_ & Hstore & Hload).
  destruct (Hstore (Sample.world 256)) as [_ Hfile];
    [reflexivity | repeat split |].
  split; [exact Hfile |].
  destruct (Hload None None restart)
    as (w1 & w2 & Hinit & Hreq & Hmem & Hpool & _);
    [exact Hfile | discriminate | reflexivity | reflexivity | reflexivity
    | reflexivity | reflexivity |].
  exists w1, w2. repeat split; assumption.
Defined.

(** * Further properties *)

(** ** Strings *)

Lemma string_length_append (s t : string) :
  String.length (s +:+ t) = (String.length s + String.length t)%nat.
Proof.
  induction s as [| a s IH]; simpl; [reflexivity | now rewrite IH].
Qed.

Lemma append_inj_r (s1 s2 t : string) : s1 +:+ t = s2 +:+ t -> s1 = s2.
Proof.
  revert s2. induction s1 as [| a s1 IH]; intros [| b s2] H; simpl in H.
  - reflexivity.
  - apply (f_equal String.length) in H.
    rewrite !string_length_append in H. simpl in H. lia.
  - apply (f_equal String.length) in H.
    rewrite !string_length_append in H. simpl in H. lia.
  - injection H as -> H. f_equal. auto.
Qed.

Lemma append_inj_l (p s1 s2 : string) : p +:+ s1 = p +:+ s2 -> s1 = s2.
Proof. induction p as [| a p IH]; simpl; [auto | intros [= H]; auto]. Qed.

Lemma append_suffix_ne (s t : string) : t <> "" -> s +:+ t <> s.
Proof.
  intros Ht. induction s as [| a s IH]; simpl; [exact Ht |].
  intros [= H]. now apply IH.
Qed.

Lemma prefix_append (p s : string) : String.prefix p (p +:+ s) = true.
Proof.
  induction p as [| a p IH]; simpl; [now destruct s |].
  destruct (ascii_dec a a); [exact IH | congruence].
Qed.

Lemma bool_opt_str_true o :
  Py.bool_opt_str o = true <-> exists s, o = Some s /\ s <> "".
Proof.
  destruct o as [s |]; simpl.
  - rewrite bool_str_true. split; [eauto | intros (? & [= <-] & ?); auto].
  - split; [discriminate | intros (? & ? & _); discriminate].
Qed.

(** ** The URL builders *)

(** X1: the three URL families never meet (an avatar URL is never a guild
    icon URL or a default avatar URL, whatever the arguments), and for a
    fixed id and size the avatar and guild URLs determine the hash. *)
Theorem cdn_urls_distinguish :
  forall id id' h h' index size size',
    (build_dm_avatar_url id h size = build_dm_avatar_url id h' size -> h = h')
    /\ (build_guild_icon_url id h size = build_guild_icon_url id h' size ->
        h = h')
    /\ build_dm_avatar_url id h size <> build_guild_icon_url id' h' size'
    /\ build_dm_avatar_url id h size <> build_default_avatar_url index size'
    /\ build_guild_icon_url id h size <> build_default_avatar_url index size'.
Proof.
  intros id id' h h' index size size'.
  unfold build_dm_avatar_url, build_guild_icon_url, build_default_avatar_url.
  repeat split.
  - intros H. do 4 apply append_inj_l in H. now apply append_inj_r in H.
  - intros H. do 4 apply append_inj_l in H. now apply append_inj_r in H.
  - intros H. apply append_inj_l in H. discriminate.
  - intros H. apply append_inj_l in H. discriminate.
  - intros H. apply append_inj_l in H. discriminate.
Qed.

(** X2: two default avatar URLs of one size are equal exactly when the
    indices agree modulo 6: any integer index is accepted and reduced. *)
Theorem default_avatar_url_mod_6 :
  forall i j size,
    build_default_avatar_url i size = build_default_avatar_url j size
    <-> i mod 6 = j mod 6.
Proof.
  intros i j size. unfold build_default_avatar_url. cbv zeta. split.
  - intros H. do 2 apply append_inj_l in H. apply append_inj_r in H.
    unfold Py.str_of_int in H. now apply (inj pretty) in H.
  - now intros ->.
Qed.

(** ** The resolvers of the main window *)

Lemma default_avatar_index_bounds u d : 0 <= default_avatar_index u d <= 5.
Proof.
  unfold default_avatar_index. destruct (_ && _).
  - destruct (Py.int _) as [n |]; [| lia].
    pose proof (Z.mod_pos_bound n 5). lia.
  - destruct (Py.bool_opt_str u); [| lia].
    destruct (Py.int _) as [n |]; [| lia].
    pose proof (Z.mod_pos_bound (Z.shiftr n 22) 6). lia.
Qed.

(** X3: a guild with a non-empty id and a non-empty icon hash gets the key
    guild:<id>:<hash> and the CDN icon URL of size 64; when either is missing
    or empty there is neither key nor URL; a key is never empty and always
    comes with a URL; and for one guild id, equal keys mean equal hashes. *)
Theorem resolve_guild_icon_cases :
  forall guild,
    (forall id h, Guild.id guild = Some id -> id <> "" ->
       Guild.icon_hash guild = Some h -> h <> "" ->
       _resolve_guild_icon guild
       = (Some ("guild:" +:+ id +:+ ":" +:+ h),
          Some (CDN_BASE +:+ "/icons/" +:+ id +:+ "/" +:+ h
                +:+ ".png?size=64")))
    /\ ((Guild.id guild = None \/ Guild.id guild = Some ""
         \/ Guild.icon_hash guild = None \/ Guild.icon_hash guild = Some "") ->
        _resolve_guild_icon guild = (None, None))
    /\ (forall key, fst (_resolve_guild_icon guild) = Some key ->
        key <> "" /\ exists url, snd (_resolve_guild_icon guild) = Some url)
    /\ (forall guild',
          Guild.id guild' = Guild.id guild ->
          fst (_resolve_guild_icon guild) <> None ->
          fst (_resolve_guild_icon guild') = fst (_resolve_guild_icon guild) ->
          Guild.icon_hash guild' = Guild.icon_hash guild).
Proof.
  intros [gid gh]. unfold _resolve_guild_icon. simpl.
  split; [| split; [| split]].
  - intros id h -> Hid -> Hh. simpl.
    apply bool_str_true in Hid, Hh. rewrite Hid, Hh. reflexivity.
  - intros [-> | [-> | [-> | ->]]]; simpl; rewrite ?andb_false_r; reflexivity.
  - intros key. destruct (_ && _); simpl; [| discriminate].
    intros [= <-]. split; [discriminate | eauto].
  - intros [gid' gh']. simpl. intros ->.
    destruct (Py.bool_opt_str gid && Py.bool_opt_str gh) eqn:H1; simpl;
      [| congruence].
    intros _. apply andb_true_iff in H1 as [Hid Hh].
    apply bool_opt_str_true in Hh as (h & -> & Hh).
    destruct (Py.bool_opt_str gid && Py.bool_opt_str gh') eqn:H2; simpl;
      [| discriminate].
    apply andb_true_iff in H2 as [_ Hh'].
    apply bool_opt_str_true in Hh' as (h' & -> & Hh'). simpl.
    intros [= H]. repeat apply append_inj_l in H. congruence.
Qed.

Lemma resolve_dm_icon_branches dm :
  (exists uid h,
     uid <> "" /\ h <> ""
     /\ _resolve_dm_icon dm
        = (Some ("dm:" +:+ uid +:+ ":" +:+ h),
           Some (build_dm_avatar_url uid h default_size)))
  \/ (exists who u d,
        who <> ""
        /\ _resolve_dm_icon dm
           = (Some ("dm-default:" +:+ who +:+ ":"
                    +:+ Py.str_of_int (default_avatar_index u d)),
              Some (build_default_avatar_url (default_avatar_index u d)
                      default_size))).
Proof.
  unfold _resolve_dm_icon.
  destruct (negb (Py.bool_opt_str (Dm.icon_user_id dm)));
    cbv beta iota zeta;
    match goal with
    | |- context [Py.bool_opt_str ?x && Py.bool_opt_str ?y] =>
        remember x as user_id eqn:Ex; remember y as avatar_hash eqn:Ey;
        clear Ex Ey
    end.
  all: destruct (Py.bool_opt_str user_id) eqn:Hu; simpl.
  all: try (destruct (Py.bool_opt_str avatar_hash) eqn:Ha; simpl).
  all: try (apply bool_opt_str_true in Hu as (uid & -> & Huid)).
  all: try (apply bool_opt_str_true in Ha as (h & -> & Hh)).
  all: simpl.
  all: first
    [ left; do 2 eexists; split; [| split]; cycle 2;
      [reflexivity | assumption | assumption]
    | right; do 3 eexists; split; cycle 1;
      [reflexivity | first [assumption | discriminate]] ].
Qed.

(** X4: a direct message always gets a key and a URL, and the key is not
    empty.  Either the key starts with dm: and the URL is an avatar URL, or
    the key starts with dm-default: and the URL is a default avatar URL; no
    guild has the same key. *)
Theorem resolve_dm_icon_total :
  forall dm,
    exists key url,
      _resolve_dm_icon dm = (Some key, Some url)
      /\ key <> ""
      /\ ((String.prefix "dm:" key = true
           /\ String.prefix (CDN_BASE +:+ "/avatars/") url = true)
          \/ (String.prefix "dm-default:" key = true
              /\ String.prefix (CDN_BASE +:+ "/embed/avatars/") url = true))
      /\ forall guild, fst (_resolve_guild_icon guild) <> Some key.
Proof.
  intros dm.
  assert (forall key, String.prefix "d" key = true ->
            forall guild, fst (_resolve_guild_icon guild) <> Some key) as Hg.
  { intros key Hd guild. unfold _resolve_guild_icon.
    destruct (_ && _); simpl; [| discriminate].
    intros [= <-]. discriminate. }
  destruct (resolve_dm_icon_branches dm)
    as [(uid & h & _ & _ & ->) | (who & u & d & _ & ->)];
    eexists; eexists; (split; [reflexivity |]).
  - split; [discriminate |]. split; [| apply Hg; reflexivity].
    left. split; [exact (prefix_append "dm:" _) |].
    exact (prefix_append (CDN_BASE +:+ "/avatars/")
             (uid +:+ "/" +:+ h +:+ ".png?size="
              +:+ Py.str_of_int default_size)).
  - split; [discriminate |]. split; [| apply Hg; reflexivity].
    right. split; [exact (prefix_append "dm-default:" _) |].
    exact (prefix_append (CDN_BASE +:+ "/embed/avatars/")
             (Py.str_of_int (default_avatar_index u d mod 6)
              +:+ ".png?size=" +:+ Py.str_of_int default_size)).
Qed.

(** X5: an entry with a non-empty user id and a non-empty avatar hash gets
    the key dm:<id>:<hash> and the avatar URL of size 64, whatever its
    discriminator and recipients are; for the same user, a different hash
    gives a different key and a different URL. *)
Theorem resolve_dm_icon_avatar :
  forall dm uid h,
    Dm.icon_user_id dm = Some uid -> uid <> "" ->
    Dm.icon_avatar dm = Some h -> h <> "" ->
    _resolve_dm_icon dm
    = (Some ("dm:" +:+ uid +:+ ":" +:+ h),
       Some (CDN_BASE +:+ "/avatars/" +:+ uid +:+ "/" +:+ h
             +:+ ".png?size=64"))
    /\ forall dm' h',
         Dm.icon_user_id dm' = Some uid ->
         Dm.icon_avatar dm' = Some h' -> h' <> "" ->
         (fst (_resolve_dm_icon dm') = fst (_resolve_dm_icon dm) -> h' = h)
         /\ (snd (_resolve_dm_icon dm') = snd (_resolve_dm_icon dm) -> h' = h).
Proof.
  assert (forall dm uid h,
            Dm.icon_user_id dm = Some uid -> uid <> "" ->
            Dm.icon_avatar dm = Some h -> h <> "" ->
            _resolve_dm_icon dm
            = (Some ("dm:" +:+ uid +:+ ":" +:+ h),
               Some (CDN_BASE +:+ "/avatars/" +:+ uid +:+ "/" +:+ h
                     +:+ ".png?size=64"))) as Heq.
  { intros [u a d r] uid h. simpl. intros -> Hu -> Hh.
    destruct uid; [congruence |]. destruct h; [congruence |].
    reflexivity. }
  intros dm uid h Hu Huid Ha Hh. split; [now apply Heq |].
  intros dm' h' Hu' Ha' Hh'.
  rewrite (Heq dm uid h), (Heq dm' uid h') by assumption. simpl. split.
  - intros [= H]. repeat apply append_inj_l in H. congruence.
  - intros [= H]. repeat apply append_inj_l in H.
    now apply append_inj_r in H.
Qed.

(** X6: when the key of a direct message starts with dm-default:, it is
    dm-default:<who>:<index> with a non-empty <who> and an index between 0 and
    5, and the URL is the default avatar URL of that same index at size 64. *)
Theorem resolve_dm_icon_default :
  forall dm key url,
    _resolve_dm_icon dm = (Some key, Some url) ->
    String.prefix "dm-default:" key = true ->
    exists who index,
      who <> "" /\ 0 <= index <= 5
      /\ key = "dm-default:" +:+ who +:+ ":" +:+ Py.str_of_int index
      /\ url = CDN_BASE +:+ "/embed/avatars/" +:+ Py.str_of_int index
               +:+ ".png?size=64".
Proof.
  intros dm key url Hres Hpre.
  destruct (resolve_dm_icon_branches dm)
    as [(uid & h & _ & _ & Heq) | (who & u & d & Hwho & Heq)];
    rewrite Heq in Hres; injection Hres as <- <-.
  - discriminate.
  - exists who, (default_avatar_index u d).
    pose proof (default_avatar_index_bounds u d) as Hb.
    split; [assumption |]. split; [assumption |]. split; [reflexivity |].
    unfold build_default_avatar_url. cbv zeta.
    rewrite Z.mod_small by lia. reflexivity.
Qed.

(** X7: for an entry the conversation worker built, the lookup of the first
    recipient inside [_resolve_dm_icon] adds nothing: the result is that of
    the three icon fields alone.  Without recipients the entry gets the key
    dm-default:unknown:0 and the default avatar 0. *)
Theorem worker_entry_icon :
  forall recipients,
    _resolve_dm_icon (dm_entry recipients)
    = _resolve_dm_icon
        {| Dm.icon_user_id := Dm.icon_user_id (dm_entry recipients);
           Dm.icon_avatar := Dm.icon_avatar (dm_entry recipients);
           Dm.icon_discriminator := Dm.icon_discriminator (dm_entry recipients);
           Dm.recipients := None |}
    /\ ((recipients = None \/ recipients = Some []) ->
        _resolve_dm_icon (dm_entry recipients)
        = (Some "dm-default:unknown:0",
           Some (CDN_BASE +:+ "/embed/avatars/0.png?size=64"))).
Proof.
  intros recipients. split.
  - unfold dm_entry, _resolve_dm_icon. cbn [Dm.icon_user_id Dm.icon_avatar
      Dm.icon_discriminator Dm.recipients].
    replace (first_recipient (Some (default [] recipients)))
      with (first_recipient recipients) by now destruct recipients.
    destruct (first_recipient recipients) as [rid ra rd]. simpl.
    destruct (Py.bool_opt_str rid) eqn:Hid; simpl; [reflexivity |].
    unfold or_str. rewrite Hid. simpl.
    destruct (Py.bool_opt_str ra) eqn:Ha, (Py.bool_opt_str rd) eqn:Hd;
      simpl; rewrite ?Ha, ?Hd; reflexivity.
  - intros [-> | ->]; reflexivity.
Qed.

(** ** Ordered dictionaries, continued *)

Section OrderedDictMore.
Context {V : Type}.
Implicit Types (m : OrderedDict.t V) (k : string) (v : V).

Lemma keys_remove k m :
  OrderedDict.keys (OrderedDict.remove k m)
  = List.filter (fun x => negb (String.eqb x k)) (OrderedDict.keys m).
Proof.
  unfold OrderedDict.keys, OrderedDict.remove.
  induction m as [| [k' v'] m IH]; simpl; [reflexivity |].
  destruct (String.eqb k' k); simpl; now rewrite IH.
Qed.

Lemma elem_of_remove k m x :
  x ∈ OrderedDict.remove k m <-> x ∈ m /\ fst x <> k.
Proof.
  unfold OrderedDict.remove. rewrite !list_elem_of_In, List.filter_In.
  rewrite negb_true_iff. destruct (String.eqb_spec (fst x) k); split;
    intros [? ?]; split; congruence.
Qed.

Lemma NoDup_keys_remove k m :
  NoDup (OrderedDict.keys m) ->
  NoDup (OrderedDict.keys (OrderedDict.remove k m)).
Proof.
  intros H. rewrite keys_remove. apply NoDup_ListNoDup.
  apply List.NoDup_filter. now apply NoDup_ListNoDup.
Qed.

Lemma NoDup_keys_put k v m :
  NoDup (OrderedDict.keys m) ->
  NoDup (OrderedDict.keys (OrderedDict.remove k m ++ [(k, v)])).
Proof.
  intros H. unfold OrderedDict.keys. rewrite fmap_app. apply NoDup_app.
  split; [now apply NoDup_keys_remove |]. split; [| apply NoDup_singleton].
  intros x Hx Hx'. apply list_elem_of_singleton in Hx'. simpl in Hx'. subst x.
  apply list_elem_of_fmap in Hx as ([k' v'] & Hk & Hin). simpl in Hk. subst k'.
  apply elem_of_remove in Hin as [_ Hne]. now apply Hne.
Qed.

Lemma get_Some_elem k v m : OrderedDict.get k m = Some v -> (k, v) ∈ m.
Proof.
  induction m as [| [k' v'] m IH]; simpl; [discriminate |].
  destruct (String.eqb_spec k' k) as [-> | Hne].
  - intros [= ->]. left.
  - intros H. right. auto.
Qed.

Lemma length_remove_present k v m :
  NoDup (OrderedDict.keys m) -> OrderedDict.get k m = Some v ->
  S (length (OrderedDict.remove k m)) = length m.
Proof.
  induction m as [| [k' v'] m IH]; simpl; [discriminate |].
  intros Hnd. apply NoDup_cons in Hnd as [Hk' Hnd].
  destruct (String.eqb_spec k' k) as [-> | Hne]; simpl.
  - intros _. f_equal. rewrite remove_fresh; [reflexivity |].
    now apply get_None_keys.
  - intros H. f_equal. auto.
Qed.

Lemma get_app k (a b : OrderedDict.t V) :
  OrderedDict.get k (a ++ b)
  = match OrderedDict.get k a with
    | Some v => Some v
    | None => OrderedDict.get k b
    end.
Proof.
  induction a as [| [k' v'] a IH]; simpl; [reflexivity |].
  destruct (String.eqb k' k); [reflexivity | exact IH].
Qed.

Lemma get_remove_ne k key m :
  k <> key ->
  OrderedDict.get k (OrderedDict.remove key m) = OrderedDict.get k m.
Proof.
  intros Hne. induction m as [| [k' v'] m IH]; simpl; [reflexivity |].
  destruct (String.eqb_spec k' key) as [-> | Hk']; simpl.
  - destruct (String.eqb_spec key k); [congruence | exact IH].
  - now rewrite IH.
Qed.

Lemma put_permutation k v m :
  NoDup (OrderedDict.keys m) -> OrderedDict.get k m = Some v ->
  OrderedDict.remove k m ++ [(k, v)] ≡ₚ m.
Proof.
  induction m as [| [k' v'] m IH]; simpl; [discriminate |].
  intros Hnd. apply NoDup_cons in Hnd as [Hk' Hnd].
  destruct (String.eqb_spec k' k) as [-> | Hne]; simpl.
  - intros [= ->]. rewrite remove_fresh by now apply get_None_keys.
    symmetry. apply Permutation_cons_append.
  - intros H. now rewrite IH.
Qed.

Lemma contains_false_get k m :
  OrderedDict.contains k m = false <-> OrderedDict.get k m = None.
Proof.
  unfold OrderedDict.contains. destruct (OrderedDict.get k m); split;
    congruence.
Qed.

End OrderedDictMore.

(** ** The facade, continued *)

Section FacadeMore.
Context {P : Platform}.

Ltac frame :=
  repeat first
    [ apply preserves_ret | apply preserves_raise | apply preserves_gets
    | apply preserves_bind; [| intros ?]
    | apply preserves_try
    | apply preserves_modify; intros; reflexivity
    | apply preserves_update; intros; reflexivity
    | apply preserves_on_memory; intros; reflexivity
    | match goal with
      | |- preserves _ (match ?x with _ => _ end) => destruct x
      end ].

Ltac run_io :=
  unfold _store_to_disk, _load_from_disk, _cache_path, open_write,
    write_close, os_replace, os_path_exists, os_path_isfile, os_remove,
    read_file, guard_fault, try_OSError, bind, ret, gets, modify, raise;
  simpl.

Ltac fault_cases w :=
  repeat match goal with
  | |- context [fault w ?op] => destruct (fault w op) eqn:?; simpl
  | |- context [match ?m !! ?k with _ => _ end] =>
      destruct (m !! k) eqn:?; simpl
  end.

(** *** The disk store *)

Lemma cache_path_tmp d key : cache_path d key +:+ ".tmp" <> cache_path d key.
Proof. apply append_suffix_ne. discriminate. Qed.

(** X8: storing never raises and leaves the cache object alone; the key's
    file afterwards holds either the whole new payload or what it held
    before (never a partial write); no file other than the key's file and
    its temporary sibling changes; and unless the removal itself fails, no
    temporary file is left behind. *)
Theorem store_to_disk_atomic :
  forall key payload (w : World),
    let path := cache_path (_disk_dir (self w)) key in
    let w' := snd (_store_to_disk key payload w) in
    fst (_store_to_disk key payload w) = Ret tt
    /\ self w' = self w
    /\ (files w' !! path = Some payload \/ files w' !! path = files w !! path)
    /\ (forall p, p <> path -> p <> tmp_path w key ->
        files w' !! p = files w !! p)
    /\ (fault w (OpRemove (tmp_path w key)) = false ->
        files w' !! tmp_path w key = None).
Proof.
  intros key payload w path w'. subst w'. unfold tmp_path. fold path.
  pose proof (cache_path_tmp (_disk_dir (self w)) key) as Hne.
  fold path in Hne.
  run_io. fold path.
  set (tmp := path +:+ ".tmp") in *.
  fault_cases w; simplify_map_eq;
  (split; [reflexivity |]); (split; [reflexivity |]);
  (split; [first [left; reflexivity | right; reflexivity] |]);
  (split; [intros p Hp Ht; now simplify_map_eq
          | intros Hrm; try discriminate; now simplify_map_eq]).
Qed.

Lemma load_from_disk_probe key w :
  _load_from_disk key w = (Ret (fst (probe key w)), snd (probe key w)).
Proof.
  unfold probe, key_path. run_io.
  destruct (files w !! _) eqn:Hf; simpl; [| reflexivity].
  destruct (fault w _); simpl; [reflexivity |]. rewrite Hf. reflexivity.
Qed.

Lemma probe_frame key w :
  self (snd (probe key w)) = self w
  /\ files (snd (probe key w)) = files w
  /\ clock (snd (probe key w)) = clock w
  /\ fault (snd (probe key w)) = fault w.
Proof.
  unfold probe. destruct (files w !! _); [destruct (fault w _) |];
    repeat split.
Qed.

Lemma probe_trace key w :
  exists evs,
    trace (snd (probe key w)) = trace w ++ evs
    /\ notifications evs = [] /\ fetches evs = []
    /\ (forall op, op ∈ disk_accesses evs ->
        op = OpIsFile (key_path w key) \/ op = OpReadFile (key_path w key)).
Proof.
  unfold probe. destruct (files w !! _); [destruct (fault w _) |]; simpl.
  1,2: exists [DiskIO (OpIsFile (key_path w key));
               DiskIO (OpReadFile (key_path w key))].
  3: exists [DiskIO (OpIsFile (key_path w key))].
  all: rewrite <- ?app_assoc; simpl; repeat split; try reflexivity.
  all: intros op Hop; simpl in Hop;
    repeat (apply elem_of_cons in Hop as [-> | Hop]; [tauto |]);
    inversion Hop.
Qed.

(** X9: a disk lookup never raises and changes neither the files nor the
    cache object, and it notifies and schedules nothing.  It yields an icon
    only when the key's file exists, is read without error and decodes to
    that icon; a missing file and a failing read both count as a miss. *)
Theorem load_from_disk_safe :
  forall key (w : World),
    exists r w',
      _load_from_disk key w = (Ret r, w')
      /\ self w' = self w /\ files w' = files w
      /\ notifications (trace w') = notifications (trace w)
      /\ fetches (trace w') = fetches (trace w)
      /\ (forall icon, r = Some icon ->
          exists payload,
            files w !! key_path w key = Some payload
            /\ fault w (OpReadFile (key_path w key)) = false
            /\ _icon_from_bytes payload = Some icon)
      /\ (files w !! key_path w key = None -> r = None)
      /\ (fault w (OpReadFile (key_path w key)) = true -> r = None).
Proof.
  intros key w.
  rewrite load_from_disk_probe. eexists. eexists. split; [reflexivity |].
  unfold probe.
  destruct (files w !! key_path w key) as [payload |] eqn:Hf; simpl.
  - destruct (fault w _) eqn:Hr; simpl;
      rewrite !notifications_app, !fetches_app; simpl; rewrite !app_nil_r;
      repeat split; try congruence.
    intros icon Hicon. exists payload. auto.
  - rewrite !notifications_app, !fetches_app; simpl; rewrite !app_nil_r.
    repeat split; congruence.
Qed.

(** *** Requests *)

Lemma remember_evict key icon w :
  _remember key icon w
  = (fst (evict (_max_items (self w))
            (OrderedDict.remove key (_memory (self w)) ++ [(key, icon)])),
     with_self
       (with_memory
          (snd (evict (_max_items (self w))
                  (OrderedDict.remove key (_memory (self w))
                   ++ [(key, icon)])))
          (self w)) w).
Proof.
  unfold _remember, bind, update, modify, on_memory, gets. simpl.
  rewrite move_to_end_setitem. simpl.
  destruct (evict _ _) as [[[] | e] m]; reflexivity.
Qed.

Lemma request_icon_eq key url w :
  request_icon key url w
  = if request_passes key w then
      match probe key w with
      | (Some i, w1) =>
          if bool_icon i then
            bind (_remember key i) (fun _ => modify (emit (IconReady key i))) w1
          else schedule_fetch key url w1
      | (None, w1) => schedule_fetch key url w1
      end
    else (Ret tt, w).
Proof.
  unfold request_icon, request_passes.
  destruct (Py.bool_str key); [| reflexivity]. simpl.
  unfold bind at 1. simpl.
  destruct (OrderedDict.contains _ _); [reflexivity |]. simpl.
  unfold bind at 1. simpl.
  destruct (bool_decide _); [reflexivity |]. simpl.
  unfold bind at 1. simpl. unfold bind at 1. simpl.
  destruct (cooling_down _ _); [reflexivity |]. simpl.
  unfold bind at 1. rewrite load_from_disk_probe.
  destruct (probe key w) as [[i |] w1]; simpl;
    [destruct (bool_icon i) |]; reflexivity.
Qed.

Lemma request_passes_true key w :
  request_passes key w = true ->
  key <> "" /\ OrderedDict.get key (_memory (self w)) = None
  /\ (key ∉ _in_flight (self w))
  /\ cooling_down (_failed_until (self w) !! key) (clock w) = false.
Proof.
  unfold request_passes, OrderedDict.contains.
  rewrite !andb_true_iff, !negb_true_iff, bool_decide_eq_false.
  intros [[[Hk Hm] Hf] Hc]. apply bool_str_true in Hk.
  destruct (OrderedDict.get key _); [discriminate | auto].
Qed.

Lemma request_in_memory key url w :
  OrderedDict.contains key (_memory (self w)) = true ->
  request_icon key url w = (Ret tt, w).
Proof.
  intros H. rewrite request_icon_eq. unfold request_passes. rewrite H.
  now rewrite andb_false_r.
Qed.

(** X10: a request never changes a file, the negative cache, the capacity
    or the disk directory, and never takes a key out of the in-flight set;
    its only disk accesses are the probe and the read of the requested key's
    own file. *)
Theorem request_icon_frame :
  forall key url (w : World),
    let w' := snd (request_icon key url w) in
    files w' = files w
    /\ _failed_until (self w') = _failed_until (self w)
    /\ _in_flight (self w) ⊆ _in_flight (self w')
    /\ _max_items (self w') = _max_items (self w)
    /\ _disk_dir (self w') = _disk_dir (self w)
    /\ exists evs,
         trace w' = trace w ++ evs
         /\ forall op, op ∈ disk_accesses evs ->
              op = OpIsFile (key_path w key)
              \/ op = OpReadFile (key_path w key).
Proof.
  intros key url w w'. subst w'. rewrite request_icon_eq.
  destruct (request_passes key w).
  2: { simpl. repeat split; try reflexivity.
       exists []. rewrite app_nil_r. split; [reflexivity |].
       intros op Hop. inversion Hop. }
  destruct (probe_frame key w) as (Hself & Hfiles & _ & _).
  destruct (probe_trace key w) as (evs & Htr & Hn & Hf & Hops).
  assert (forall w1, self w1 = self w -> files w1 = files w ->
            trace w1 = trace w ++ evs ->
            let w' := snd (schedule_fetch key url w1) in
            files w' = files w
            /\ _failed_until (self w') = _failed_until (self w)
            /\ _in_flight (self w) ⊆ _in_flight (self w')
            /\ _max_items (self w') = _max_items (self w)
            /\ _disk_dir (self w') = _disk_dir (self w)
            /\ exists evs,
                 trace w' = trace w ++ evs
                 /\ forall op, op ∈ disk_accesses evs ->
                      op = OpIsFile (key_path w key)
                      \/ op = OpReadFile (key_path w key)) as Hsched.
  { intros w1 H1 H2 H3. unfold schedule_fetch.
    destruct (Py.bool_opt_str url); simpl; rewrite ?H1, ?H2, ?H3.
    - repeat split; try reflexivity.
      + apply union_subseteq_r.
      + exists (evs ++ [PoolStart key (default "" url)]).
        rewrite app_assoc. split; [reflexivity |].
        intros op. rewrite disk_accesses_app. simpl. rewrite app_nil_r.
        apply Hops.
    - repeat split; try reflexivity. exists evs. auto. }
  destruct (probe key w) as [[i |] w1]; simpl in *; [| now apply Hsched].
  destruct (bool_icon i); [| now apply Hsched].
  unfold bind. rewrite remember_evict.
  destruct (evict _ _) as [[[] | e] m]; simpl; rewrite ?Hself, ?Hfiles, ?Htr.
  - repeat split; try reflexivity.
    exists (evs ++ [IconReady key i]). rewrite app_assoc.
    split; [reflexivity |].
    intros op. rewrite disk_accesses_app. simpl. rewrite app_nil_r.
    apply Hops.
  - repeat split; try reflexivity. exists evs. auto.
Qed.

(** X11: a request emits at most one notification or starts at most one
    fetch, never both.  A notification is for the requested, non-empty key,
    carries a non-null icon, comes from a call that returns normally, and
    (the capacity being positive) the memory cache then holds that icon for
    the key.  A fetch is for the requested, non-empty key and the given,
    non-empty URL; the key was not in flight before and is in flight after,
    and the task is the last one handed to the pool. *)
Theorem request_icon_effects :
  forall key url (w : World),
    let w' := snd (request_icon key url w) in
    exists evs,
      trace w' = trace w ++ evs
      /\ (length (notifications evs) + length (fetches evs) <= 1)%nat
      /\ (forall k icon, (k, icon) ∈ notifications evs ->
          k = key /\ key <> "" /\ bool_icon icon = true
          /\ fst (request_icon key url w) = Ret tt
          /\ (0 < _max_items (self w) ->
              OrderedDict.get key (_memory (self w')) = Some icon))
      /\ (forall k u, (k, u) ∈ fetches evs ->
          k = key /\ key <> "" /\ url = Some u /\ u <> ""
          /\ (key ∉ _in_flight (self w)) /\ key ∈ _in_flight (self w')
          /\ _pool (self w') = _pool (self w) ++ [(key, u)]).
Proof.
  intros key url w w'. subst w'. rewrite request_icon_eq.
  destruct (request_passes key w) eqn:Hpass.
  2: { exists []. rewrite app_nil_r. simpl. split; [reflexivity |].
       split; [lia |]. split; intros ? ? H; inversion H. }
  apply request_passes_true in Hpass as (Hkey & Hget & Hfl & _).
  destruct (probe_frame key w) as (Hself & _).
  destruct (probe_trace key w) as (evs & Htr & Hn & Hf & _).
  assert (forall w1, self w1 = self w -> trace w1 = trace w ++ evs ->
    let w' := snd (schedule_fetch key url w1) in
    exists evs,
      trace w' = trace w ++ evs
      /\ (length (notifications evs) + length (fetches evs) <= 1)%nat
      /\ (forall k icon, (k, icon) ∈ notifications evs ->
          k = key /\ key <> "" /\ bool_icon icon = true
          /\ fst (schedule_fetch key url w1) = Ret tt
          /\ (0 < _max_items (self w) ->
              OrderedDict.get key (_memory (self w')) = Some icon))
      /\ (forall k u, (k, u) ∈ fetches evs ->
          k = key /\ key <> "" /\ url = Some u /\ u <> ""
          /\ (key ∉ _in_flight (self w)) /\ key ∈ _in_flight (self w')
          /\ _pool (self w') = _pool (self w) ++ [(key, u)])) as Hsched.
  { intros w1 H1 H2. unfold schedule_fetch.
    destruct url as [u |]; simpl.
    - destruct (Py.bool_str u) eqn:Hu; simpl.
      + apply bool_str_true in Hu.
        exists (evs ++ [PoolStart key u]). rewrite H2, app_assoc.
        split; [reflexivity |].
        rewrite notifications_app, fetches_app, Hn, Hf. simpl.
        split; [lia |]. split; [intros ? ? H; inversion H |].
        intros k u' H. apply list_elem_of_singleton in H as [= -> ->].
        rewrite H1. repeat split; auto.
        apply elem_of_union. left. now apply elem_of_singleton.
      + exists evs. rewrite Hn, Hf. split; [assumption |].
        split; [simpl; lia |]. split; intros ? ? H; inversion H.
    - exists evs. rewrite Hn, Hf. split; [assumption |].
      split; [simpl; lia |]. split; intros ? ? H; inversion H. }
  destruct (probe key w) as [[i |] w1]; simpl in *; [| now apply Hsched].
  destruct (bool_icon i) eqn:Hi; [| now apply Hsched].
  unfold bind. rewrite remember_evict. rewrite Hself.
  destruct (Z_lt_le_dec (_max_items (self w)) 0) as [Hneg | Hnn].
  - rewrite evict_negative by assumption. simpl.
    exists evs. rewrite Hn, Hf. split; [assumption |]. split; [simpl; lia |].
    split; intros ? ? H; inversion H.
  - rewrite evict_nonneg by assumption. simpl.
    exists (evs ++ [IconReady key i]). rewrite Htr, app_assoc.
    split; [reflexivity |].
    rewrite notifications_app, fetches_app, Hn, Hf. simpl.
    split; [lia |]. split; [| intros ? ? H; inversion H].
    intros k icon H. apply list_elem_of_singleton in H as [= -> ->].
    repeat split; auto.
    intros Hpos. now apply (get_remembered key i (self w)).
Qed.

Lemma request_disk_hit_eq key url payload icon w :
  key <> "" ->
  OrderedDict.contains key (_memory (self w)) = false ->
  key ∉ _in_flight (self w) ->
  cooling_down (_failed_until (self w) !! key) (clock w) = false ->
  files w !! key_path w key = Some payload ->
  fault w (OpReadFile (key_path w key)) = false ->
  _icon_from_bytes payload = Some icon -> bool_icon icon = true ->
  0 <= _max_items (self w) ->
  request_icon key url w
  = (Ret tt,
     emit (IconReady key icon)
       (with_self (with_memory (remembered key icon (self w)) (self w))
          (emit (DiskIO (OpReadFile (key_path w key)))
             (emit (DiskIO (OpIsFile (key_path w key))) w)))).
Proof.
  intros Hkey Hmem Hfl Hcool Hfile Hread Hicon Hbool Hmax.
  rewrite request_proceeds by assumption.
  unfold bind at 1. rewrite (load_from_disk_hit key payload) by assumption.
  rewrite Hicon, Hbool. unfold bind.
  rewrite remember_eq by (simpl; lia). reflexivity.
Qed.

(** X12: for a key that is not empty, not in memory, not in flight and not
    cooling down, whose file is there, readable and decodable, a request
    (with or without a URL, on any instance with a capacity that is not
    negative) probes and reads the file, puts the icon into the memory cache
    and notifies it; nothing is scheduled although a URL was given. *)
Theorem request_icon_disk_hit :
  forall key url payload icon (w : World),
    key <> "" ->
    OrderedDict.contains key (_memory (self w)) = false ->
    key ∉ _in_flight (self w) ->
    cooling_down (_failed_until (self w) !! key) (clock w) = false ->
    files w !! key_path w key = Some payload ->
    fault w (OpReadFile (key_path w key)) = false ->
    _icon_from_bytes payload = Some icon -> bool_icon icon = true ->
    0 <= _max_items (self w) ->
    request_icon key url w
    = (Ret tt,
       emit (IconReady key icon)
         (with_self (with_memory (remembered key icon (self w)) (self w))
            (emit (DiskIO (OpReadFile (key_path w key)))
               (emit (DiskIO (OpIsFile (key_path w key))) w)))).
Proof. intros. eapply request_disk_hit_eq; eassumption. Qed.

Lemma request_disk_miss_eq key url w r w1 :
  key <> "" ->
  OrderedDict.contains key (_memory (self w)) = false ->
  key ∉ _in_flight (self w) ->
  cooling_down (_failed_until (self w) !! key) (clock w) = false ->
  _load_from_disk key w = (Ret r, w1) ->
  bool_opt_icon r = false ->
  request_icon key url w = schedule_fetch key url w1.
Proof.
  intros Hkey Hmem Hfl Hcool Hload Hr.
  rewrite request_proceeds by assumption. unfold bind. rewrite Hload.
  destruct r as [i |]; [| reflexivity]. simpl in Hr. now rewrite Hr.
Qed.

(** X13: for a key that is not empty, not in memory, not in flight and not
    cooling down, when the disk lookup yields no icon (no file, a failing
    read, bytes that do not decode or a null icon): with a non-empty URL the
    request adds the key to the in-flight set and starts one fetch; without
    a URL, or with the empty URL, nothing is left of the request but the
    disk accesses of the lookup. *)
Theorem request_icon_disk_miss :
  forall key url (w : World) r w1,
    key <> "" ->
    OrderedDict.contains key (_memory (self w)) = false ->
    key ∉ _in_flight (self w) ->
    cooling_down (_failed_until (self w) !! key) (clock w) = false ->
    _load_from_disk key w = (Ret r, w1) ->
    bool_opt_icon r = false ->
    (forall u, url = Some u -> u <> "" ->
       request_icon key url w = (Ret tt, scheduled_world key u w1))
    /\ (url = None \/ url = Some "" -> request_icon key url w = (Ret tt, w1)).
Proof.
  intros key url w r w1 Hkey Hmem Hfl Hcool Hload Hr.
  rewrite (request_disk_miss_eq key url w r w1) by assumption.
  split.
  - intros u -> Hu. unfold schedule_fetch. simpl.
    apply bool_str_true in Hu. rewrite Hu. reflexivity.
  - intros [-> | ->]; reflexivity.
Qed.

(** X14: with a negative capacity every put raises KeyError after emptying
    the memory cache; so processing a decodable download raises as well, with
    the key out of the in-flight set, the memory cache empty, and nothing
    written to disk, cleared from the negative cache or notified. *)
Theorem negative_capacity_raises :
  forall key payload icon (w : World),
    _max_items (self w) < 0 ->
    _icon_from_bytes payload = Some icon -> bool_icon icon = true ->
    _remember key icon w
    = (Raise KeyError, with_self (with_memory [] (self w)) w)
    /\ _on_download_succeeded key payload w
       = (Raise KeyError,
          with_self
            (with_memory []
               (with_in_flight (_in_flight (self w) ∖ {[key]}) (self w))) w).
Proof.
  intros key payload icon w Hneg Hicon Hbool. split.
  - rewrite remember_evict, evict_negative by assumption. reflexivity.
  - unfold _on_download_succeeded. unfold bind at 1. simpl.
    rewrite Hicon, Hbool. unfold bind at 1.
    rewrite remember_evict, evict_negative by assumption. reflexivity.
Qed.

Lemma complete_failure_eq key url get w :
  fetch_fails (get url DOWNLOAD_TIMEOUT_SECONDS _IconDownloadTask.headers) ->
  exists reason,
    complete key url get w
    = (Ret tt, failed_world key reason (released key url w)).
Proof.
  intros Hres.
  assert (exists reason,
            _IconDownloadTask.run
              {| _IconDownloadTask._key := key;
                 _IconDownloadTask._url := url |} get
            = failed key reason) as [reason Hrun].
  { unfold _IconDownloadTask.run. simpl.
    destruct (get url DOWNLOAD_TIMEOUT_SECONDS _IconDownloadTask.headers)
      as [r | name]; [| eauto].
    destruct (Z.eqb_spec (status_code r) 200) as [H200 | Hne]; simpl;
      [| eauto].
    destruct Hres as [? | [-> | ->]]; [contradiction | |]; simpl; eauto. }
  exists reason.
  unfold complete, bind, update, modify. simpl. rewrite Hrun. reflexivity.
Qed.

(** X15: when a task's fetch ends in a transport error, a status other than
    200 or an empty body, delivering its result returns normally and leaves
    the world of a recorded failure: the task is out of the pool, the key out
    of the in-flight set, the deadline set; the memory cache and the files
    are unchanged and nothing is notified.  A request for the key right
    after that (the deadline not being 0) changes nothing. *)
Theorem failed_fetch_cools_down :
  forall key url get (w : World),
    fetch_fails (get url DOWNLOAD_TIMEOUT_SECONDS _IconDownloadTask.headers) ->
    exists reason,
      let w' := failed_world key reason (released key url w) in
      complete key url get w = (Ret tt, w')
      /\ _memory (self w') = _memory (self w)
      /\ files w' = files w
      /\ notifications (trace w') = notifications (trace w)
      /\ (key ∉ _in_flight (self w'))
      /\ _failed_until (self w') !! key
         = Some (clock w + inject_Z RETRY_COOLDOWN_SECONDS)%Q
      /\ (~ (clock w + inject_Z RETRY_COOLDOWN_SECONDS == 0)%Q ->
          forall url', request_icon key url' w' = (Ret tt, w')).
Proof.
  intros key url get w Hres.
  destruct (complete_failure_eq key url get w Hres) as [reason Hc].
  exists reason. cbv zeta.
  split; [exact Hc |]. split; [reflexivity |]. split; [reflexivity |].
  split; [simpl; rewrite notifications_app; simpl; apply app_nil_r |].
  split.
  { simpl. rewrite elem_of_difference, elem_of_singleton. tauto. }
  split; [simpl; apply lookup_insert_eq |].
  intros Hnz url'. eapply request_cooling.
  - simpl. apply lookup_insert_eq.
  - exact Hnz.
  - simpl. rewrite <- (Qplus_0_r (clock w)) at 1.
    apply Qplus_lt_r. reflexivity.
Qed.

(** X16: a lookup in a memory cache with distinct keys never raises; it
    returns an icon exactly when the key is stored with a non-null icon; it
    may move that entry to the recent end but keeps every entry (the memory
    cache after is a permutation of the one before, and every key reads as
    it did); and it touches nothing else: files, trace, clock, in-flight
    set, negative cache and pool are the same. *)
Theorem get_icon_only_reorders :
  forall key (w : World),
    NoDup (OrderedDict.keys (_memory (self w))) ->
    exists r w',
      get_icon key w = (Ret r, w')
      /\ (forall icon, r = Some icon <->
            OrderedDict.get key (_memory (self w)) = Some icon
            /\ bool_icon icon = true)
      /\ _memory (self w') ≡ₚ _memory (self w)
      /\ (forall k, OrderedDict.get k (_memory (self w'))
                    = OrderedDict.get k (_memory (self w)))
      /\ files w' = files w /\ trace w' = trace w /\ clock w' = clock w
      /\ _in_flight (self w') = _in_flight (self w)
      /\ _failed_until (self w') = _failed_until (self w)
      /\ _pool (self w') = _pool (self w).
Proof.
  intros key w Hnd.
  destruct (OrderedDict.get key (_memory (self w))) as [icon |] eqn:Hget.
  - destruct (bool_icon icon) eqn:Hi.
    + rewrite (get_icon_hit key icon) by assumption.
      eexists. eexists. split; [reflexivity |]. simpl.
      split; [| split; [now apply put_permutation | split; [| repeat split]]].
      * intros i. split; [intros [= <-]; auto | intros [[= <-] _]; reflexivity].
      * intros k. rewrite get_app.
        destruct (String.eqb_spec k key) as [-> | Hne].
        -- rewrite get_remove. simpl. rewrite String.eqb_refl.
           now rewrite Hget.
        -- rewrite get_remove_ne by assumption.
           destruct (OrderedDict.get k _); [reflexivity |]. simpl.
           destruct (String.eqb_spec key k); [congruence | reflexivity].
    + exists None, w. split.
      * unfold get_icon, bind, gets. simpl. rewrite Hget. simpl.
        now rewrite Hi.
      * split; [| split; [reflexivity | repeat split]].
        intros i. split; [discriminate | intros [[= <-] H]; congruence].
  - exists None, w. split; [now apply get_icon_miss |].
    split; [| split; [reflexivity | repeat split]].
    intros i. split; [discriminate | intros [[=] _]].
Qed.

End FacadeMore.

(** ** What every reachable cache satisfies *)

Section FacadeInvariant.
Context {P : Platform}.

Lemma evict_suffix max (m : OrderedDict.t QIcon) :
  exists n, snd (evict max m) = drop n m.
Proof.
  induction m as [| p m [n IH]]; simpl evict.
  - destruct (_ >? _); exists 0%nat; reflexivity.
  - destruct (_ >? _).
    + exists (S n). exact IH.
    + exists 0%nat. reflexivity.
Qed.

Lemma put_memory_facts max key icon (m : OrderedDict.t QIcon) :
  let m' := snd (evict max (OrderedDict.remove key m ++ [(key, icon)])) in
  (NoDup (OrderedDict.keys m) -> NoDup (OrderedDict.keys m'))
  /\ (forall x, x ∈ m' -> x ∈ m \/ x = (key, icon))
  /\ (0 <= max -> Z.of_nat (length m') <= max).
Proof.
  intros m'. subst m'.
  destruct (evict_suffix max (OrderedDict.remove key m ++ [(key, icon)]))
    as [n Hn].
  split; [| split].
  - intros Hnd. rewrite Hn. unfold OrderedDict.keys. rewrite fmap_drop.
    eapply sublist_NoDup; [| apply sublist_drop].
    now apply (NoDup_keys_put key icon m).
  - intros x Hx. rewrite Hn in Hx.
    apply (subseteq_drop n) in Hx.
    apply elem_of_app in Hx as [Hx | Hx].
    + left. now apply elem_of_remove in Hx as [? _].
    + right. now apply list_elem_of_singleton in Hx.
  - intros Hmax. rewrite evict_nonneg by assumption. simpl.
    rewrite length_drop. lia.
Qed.


Ltac frame :=
  repeat first
    [ apply preserves_ret | apply preserves_raise | apply preserves_gets
    | apply preserves_bind; [| intros ?]
    | apply preserves_try
    | apply preserves_modify; intros; reflexivity
    | apply preserves_update; intros; reflexivity
    | apply preserves_on_memory; intros; reflexivity
    | match goal with
      | |- preserves _ (match ?x with _ => _ end) => destruct x
      end ].

Lemma cache_inv_self w w' : self w' = self w -> cache_inv w -> cache_inv w'.
Proof. unfold cache_inv. intros ->. auto. Qed.

Lemma cache_inv_failed_until f w w' :
  self w' = with_failed_until f (self w) -> cache_inv w -> cache_inv w'.
Proof. unfold cache_inv. intros ->. auto. Qed.

Lemma cache_inv_put key icon w w' :
  key <> "" -> bool_icon icon = true -> key ∉ _in_flight (self w) ->
  self w'
  = with_memory
      (snd (evict (_max_items (self w))
              (OrderedDict.remove key (_memory (self w)) ++ [(key, icon)])))
      (self w) ->
  cache_inv w -> cache_inv w'.
Proof.
  intros Hkey Hicon Hfl Hself (Hnd & Hgood & Hlen & Hpnd & Hfp & Hpool & Hdisj).
  destruct (put_memory_facts (_max_items (self w)) key icon (_memory (self w)))
    as (Hnd' & Hin' & Hlen').
  unfold cache_inv. rewrite Hself. simpl.
  split; [auto |]. split; [| split; [auto | split; [assumption |
    split; [assumption | split; [assumption |]]]]].
  - intros k i Hin. apply Hin' in Hin as [Hin | [= -> ->]];
      [now apply (Hgood k i) | auto].
  - intros k Hk. apply get_None_keys. intros Hin.
    apply list_elem_of_fmap in Hin as ([k' i'] & Hk' & Hin). simpl in Hk'.
    subst k'. apply Hin' in Hin as [Hin | [= -> ->]]; [| contradiction].
    specialize (Hdisj k Hk). apply get_None_keys in Hdisj. apply Hdisj.
    apply list_elem_of_fmap. now exists (k, i').
Qed.

Lemma cache_inv_schedule key u w w' :
  key <> "" -> u <> "" ->
  OrderedDict.get key (_memory (self w)) = None ->
  key ∉ _in_flight (self w) ->
  self w'
  = with_pool (_pool (self w) ++ [(key, u)])
      (with_in_flight ({[key]} ∪ _in_flight (self w)) (self w)) ->
  cache_inv w -> cache_inv w'.
Proof.
  intros Hkey Hu Hget Hfl Hself (Hnd & Hgood & Hlen & Hpnd & Hfp & Hpool & Hdisj).
  unfold cache_inv. rewrite Hself. simpl. rewrite fmap_app. simpl.
  split; [assumption |]. split; [assumption |]. split; [assumption |].
  split; [| split; [| split]].
  - apply NoDup_app. split; [assumption |].
    split; [| apply NoDup_singleton].
    intros k Hk Hk'. apply list_elem_of_singleton in Hk' as ->.
    apply Hfl. now apply Hfp.
  - intros k. rewrite elem_of_union, elem_of_singleton, elem_of_app,
      list_elem_of_singleton, Hfp. tauto.
  - intros k v Hin. apply elem_of_app in Hin as [Hin | Hin].
    + now apply (Hpool k v).
    + apply list_elem_of_singleton in Hin as [= -> ->]. auto.
  - intros k Hk. apply elem_of_union in Hk as [Hk | Hk]; [| auto].
    apply elem_of_singleton in Hk as ->. assumption.
Qed.

Lemma remove_task_other key url (l : list (string * string)) k :
  k ∈ l.*1 -> k <> key -> k ∈ (remove_task (key, url) l).*1.
Proof.
  induction l as [| [k0 u0] l IH]; simpl; [intros H; inversion H |].
  intros Hin Hne. apply elem_of_cons in Hin as [<- | Hin].
  - destruct (String.eqb_spec k key); [contradiction |]. simpl. left.
  - destruct (_ && _); [assumption |]. simpl. right. auto.
Qed.

Lemma remove_task_sub task (l : list (string * string)) x :
  x ∈ remove_task task l -> x ∈ l.
Proof.
  induction l as [| t l IH]; simpl; [auto |].
  destruct (_ && _); [now right |].
  intros H. apply elem_of_cons in H as [-> | H]; [left | right; auto].
Qed.

Lemma cache_inv_release key url w w' :
  (key, url) ∈ _pool (self w) ->
  self w'
  = with_pool (remove_task (key, url) (_pool (self w)))
      (with_in_flight (_in_flight (self w) ∖ {[key]}) (self w)) ->
  cache_inv w -> cache_inv w'.
Proof.
  intros Hin Hself (Hnd & Hgood & Hlen & Hpnd & Hfp & Hpool & Hdisj).
  destruct (remove_task_keys key url _ Hpnd Hin) as [Hnd' Hsub].
  unfold cache_inv. rewrite Hself. simpl.
  split; [assumption |]. split; [assumption |]. split; [assumption |].
  split; [assumption |]. split; [| split].
  - intros k. rewrite elem_of_difference, elem_of_singleton, Hfp. split.
    + intros [Hk Hne]. now apply remove_task_other.
    + intros Hk. now apply Hsub in Hk.
  - intros k u Hk. apply remove_task_sub in Hk. now apply (Hpool k u).
  - intros k Hk. apply elem_of_difference in Hk as [Hk _]. auto.
Qed.

Lemma cache_inv_reorder key icon w w' :
  OrderedDict.get key (_memory (self w)) = Some icon ->
  self w'
  = with_memory (OrderedDict.remove key (_memory (self w)) ++ [(key, icon)])
      (self w) ->
  cache_inv w -> cache_inv w'.
Proof.
  intros Hget Hself (Hnd & Hgood & Hlen & Hpnd & Hfp & Hpool & Hdisj).
  pose proof (get_Some_elem _ _ _ Hget) as Helem.
  unfold cache_inv. rewrite Hself. simpl.
  split; [now apply NoDup_keys_put |].
  split; [| split; [| split; [assumption | split; [assumption |
    split; [assumption |]]]]].
  - intros k i Hin. apply elem_of_app in Hin as [Hin | Hin].
    + apply elem_of_remove in Hin as [Hin _]. now apply (Hgood k i).
    + apply list_elem_of_singleton in Hin as [= -> ->]. now apply (Hgood key icon).
  - intros Hmax. rewrite length_app. simpl.
    pose proof (length_remove_present key icon _ Hnd Hget). lia.
  - intros k Hk. specialize (Hdisj k Hk).
    destruct (String.eqb_spec k key) as [-> | Hne]; [congruence |].
    apply get_None_keys. apply get_None_keys in Hdisj.
    intros Hin. apply Hdisj. unfold OrderedDict.keys in *.
    rewrite fmap_app in Hin. apply elem_of_app in Hin as [Hin | Hin].
    + apply list_elem_of_fmap in Hin as (x & -> & Hx).
      apply elem_of_remove in Hx as [Hx _].
      apply list_elem_of_fmap. now exists x.
    + apply list_elem_of_singleton in Hin. simpl in Hin. contradiction.
Qed.


Lemma schedule_fetch_self key url w :
  self (snd (schedule_fetch key url w)) = self w
  \/ (exists u, url = Some u /\ u <> ""
      /\ self (snd (schedule_fetch key url w))
         = with_pool (_pool (self w) ++ [(key, u)])
             (with_in_flight ({[key]} ∪ _in_flight (self w)) (self w))).
Proof.
  unfold schedule_fetch. destruct url as [u |]; simpl; [| now left].
  destruct (Py.bool_str u) eqn:Hu; simpl; [| now left].
  right. exists u. apply bool_str_true in Hu. auto.
Qed.

Lemma request_icon_inv key url w :
  cache_inv w -> cache_inv (snd (request_icon key url w)).
Proof.
  intros Hinv. rewrite request_icon_eq.
  destruct (request_passes key w) eqn:Hpass; [| assumption].
  apply request_passes_true in Hpass as (Hkey & Hget & Hfl & _).
  destruct (probe_frame key w) as (Hself & _).
  assert (forall w1, self w1 = self w ->
            cache_inv (snd (schedule_fetch key url w1))) as Hsched.
  { intros w1 H1.
    destruct (schedule_fetch_self key url w1) as [Hs | (u & -> & Hu & Hs)].
    - eapply cache_inv_self; [rewrite Hs; exact H1 | assumption].
    - eapply (cache_inv_schedule key u w); try eassumption.
      rewrite Hs, H1. reflexivity. }
  destruct (probe key w) as [[i |] w1]; simpl in *; [| now apply Hsched].
  destruct (bool_icon i) eqn:Hi; [| now apply Hsched].
  unfold bind. rewrite remember_evict.
  eapply (cache_inv_put key i w); try eassumption.
  destruct (fst (evict _ _)) as [[] | e]; simpl; rewrite Hself;
    reflexivity.
Qed.

Lemma get_icon_inv key w : cache_inv w -> cache_inv (snd (get_icon key w)).
Proof.
  intros Hinv.
  destruct (OrderedDict.get key (_memory (self w))) as [icon |] eqn:Hget.
  - destruct (bool_icon icon) eqn:Hi.
    + rewrite (get_icon_hit key icon) by assumption. simpl.
      eapply cache_inv_reorder; [exact Hget | reflexivity | assumption].
    + unfold get_icon, bind, gets. simpl. rewrite Hget. simpl. rewrite Hi.
      exact Hinv.
  - now rewrite get_icon_miss.
Qed.

Lemma store_to_disk_self key payload : preserves self (_store_to_disk key payload).
Proof.
  unfold _store_to_disk, _cache_path, open_write, write_close, os_replace,
    os_path_exists, os_remove, guard_fault.
  frame.
Qed.

Lemma on_download_succeeded_inv key payload w :
  key <> "" -> key ∉ _in_flight (self w) ->
  cache_inv w -> cache_inv (snd (_on_download_succeeded key payload w)).
Proof.
  intros Hkey Hfl Hinv.
  assert (_on_download_succeeded key payload w
          = bind (ret tt) (fun _ =>
              match _icon_from_bytes payload with
              | Some icon =>
                  if bool_icon icon then
                    bind (_remember key icon) (fun _ =>
                    bind (_store_to_disk key payload) (fun _ =>
                    bind (update (fun c =>
                            with_failed_until (delete key (_failed_until c)) c))
                      (fun _ => modify (emit (IconReady key icon)))))
                  else _mark_failed key "invalid image"
              | None => _mark_failed key "invalid image"
              end) w) as ->.
  { unfold _on_download_succeeded, bind, update, modify, ret. simpl.
    replace (_in_flight (self w) ∖ {[key]}) with (_in_flight (self w)).
    - destruct w as [[] ? ? ? ?]; reflexivity.
    - apply set_eq. intros x. rewrite elem_of_difference, elem_of_singleton.
      split; [intros Hx; split; [assumption | congruence] | tauto]. }
  unfold bind at 1. simpl.
  assert (cache_inv (snd (_mark_failed key "invalid image" w))) as Hfail.
  { eapply cache_inv_failed_until; [| exact Hinv]. reflexivity. }
  destruct (_icon_from_bytes payload) as [icon |]; [| exact Hfail].
  destruct (bool_icon icon) eqn:Hi; [| exact Hfail].
  unfold bind at 1. rewrite remember_evict.
  set (m' := snd (evict _ _)).
  set (w1 := with_self (with_memory m' (self w)) w).
  assert (cache_inv w1) as H1.
  { eapply (cache_inv_put key icon w); try eassumption. reflexivity. }
  destruct (fst (evict _ _)) as [[] | e]; [| exact H1].
  unfold bind at 1. pose proof (store_to_disk_self key payload w1) as Hst.
  destruct (_store_to_disk key payload w1) as [[[] | e] w2]; simpl in Hst.
  - unfold bind, update, modify. simpl.
    eapply cache_inv_failed_until; [| exact H1]. simpl. rewrite Hst.
    reflexivity.
  - simpl. apply (cache_inv_self w1); assumption.
Qed.

Lemma complete_inv key url get w :
  (key, url) ∈ _pool (self w) ->
  cache_inv w -> cache_inv (snd (complete key url get w)).
Proof.
  intros Hin Hinv.
  assert (key <> "") as Hkey.
  { destruct Hinv as (_ & _ & _ & _ & _ & Hpool & _). now apply (Hpool key url). }
  set (w0 := with_self
               (with_pool (remove_task (key, url) (_pool (self w)))
                  (with_in_flight (_in_flight (self w) ∖ {[key]}) (self w))) w).
  assert (cache_inv w0) as H0.
  { eapply cache_inv_release; [exact Hin | reflexivity | assumption]. }
  assert (key ∉ _in_flight (self w0)) as Hfl0.
  { simpl. rewrite elem_of_difference, elem_of_singleton. tauto. }
  unfold complete, bind, update, modify. simpl.
  pose proof (run_key {| _IconDownloadTask._key := key;
                         _IconDownloadTask._url := url |} get) as Hk.
  destruct (_IconDownloadTask.run _ _) as [k payload | k reason];
    simpl in Hk; subst k; simpl.
  - assert (_on_download_succeeded key payload
              (with_self (with_pool (remove_task (key, url) (_pool (self w)))
                            (self w)) w)
            = _on_download_succeeded key payload w0) as ->.
    { unfold _on_download_succeeded, bind, update, modify. simpl.
      subst w0. simpl.
      replace (_in_flight (self w) ∖ {[key]} ∖ {[key]})
        with (_in_flight (self w) ∖ {[key]}); [reflexivity |].
      apply set_eq. intros x. rewrite !elem_of_difference. tauto. }
    now apply on_download_succeeded_inv.
  - eapply cache_inv_failed_until; [| exact H0]. reflexivity.
Qed.

Lemma step_cache_inv w w' : step w w' -> cache_inv w -> cache_inv w'.
Proof.
  intros Hstep Hinv.
  destruct Hstep as [key url w | key w | key url get w Hin | w f' fa' c'].
  - now apply request_icon_inv.
  - now apply get_icon_inv.
  - now apply complete_inv.
  - exact Hinv.
Qed.

Lemma reachable_cache_inv w : reachable w -> cache_inv w.
Proof.
  induction 1 as [mi mw w | w w' _ IH Hstep].
  - assert (self (snd (__init__ mi mw w))
            = {| _memory := []; _max_items := default default_max_items mi;
                 _in_flight := ∅; _failed_until := ∅;
                 _disk_dir := os_path_join (user_cache_dir APP_NAME) "icons";
                 _pool := [];
                 _max_workers := default default_max_workers mw |}) as Hself.
    { unfold __init__, bind, os_makedirs, guard_fault, bind, modify, gets.
      simpl. destruct (fault _ _); reflexivity. }
    unfold cache_inv. rewrite Hself. simpl.
    split; [apply NoDup_nil_2 |]. split; [intros k i Hk; inversion Hk |].
    split; [lia |]. split; [apply NoDup_nil_2 |].
    split; [| split; [intros k u Hk; inversion Hk | reflexivity]].
    intros k. split; intros Hk; [now apply elem_of_empty in Hk | inversion Hk].
  - eapply step_cache_inv; eassumption.
Qed.


(** X17: in every world reached from a construction by requests, lookups,
    deliveries of task results and changes of the environment (also after a
    call that raised), the memory cache holds each key once, no empty key
    and no null icon, and, when the capacity is not negative, at most
    [max_items] entries. *)
Theorem memory_cache_invariant :
  forall w : World,
    reachable w ->
    NoDup (OrderedDict.keys (_memory (self w)))
    /\ (forall k i, (k, i) ∈ _memory (self w) -> k <> "" /\ bool_icon i = true)
    /\ (0 <= _max_items (self w) ->
        Z.of_nat (length (_memory (self w))) <= _max_items (self w)).
Proof.
  intros w Hreach.
  destruct (reachable_cache_inv w Hreach) as (H1 & H2 & H3 & _). auto.
Qed.

(** X18: in every reachable world a key in flight is not in the memory
    cache and has a task in the pool, whose key and URL are not empty; and
    the key of every task in the pool is in flight. *)
Theorem in_flight_invariant :
  forall w : World,
    reachable w ->
    (forall k, k ∈ _in_flight (self w) ->
       OrderedDict.get k (_memory (self w)) = None
       /\ k <> ""
       /\ exists u, (k, u) ∈ _pool (self w) /\ u <> "")
    /\ (forall k u, (k, u) ∈ _pool (self w) -> k ∈ _in_flight (self w)).
Proof.
  intros w Hreach.
  destruct (reachable_cache_inv w Hreach)
    as (_ & _ & _ & _ & Hfp & Hpool & Hdisj).
  split.
  - intros k Hk. split; [now apply Hdisj |].
    apply Hfp in Hk as Hin.
    apply list_elem_of_fmap in Hin as ([k' u] & Hk' & Hin). simpl in Hk'.
    subst k'. destruct (Hpool k u Hin) as [Hne Hu].
    split; [exact Hne |]. now exists u.
  - intros k u Hin. apply Hfp. apply list_elem_of_fmap. now exists (k, u).
Qed.

Lemma outstanding_absent key w :
  key ∉ (_pool (self w)).*1 -> outstanding key w = 0%nat.
Proof.
  unfold outstanding. generalize (_pool (self w)) as l.
  induction l as [| [k u] l IH]; simpl; [reflexivity |].
  intros Hk. apply not_elem_of_cons in Hk as [Hne Hk].
  destruct (String.eqb_spec k key); [congruence |]. simpl. auto.
Qed.


(** X19: delivering the result of a task of the pool of a reachable world,
    whatever the result and whether or not processing it raises, takes the
    task's key (which was in flight) out of the in-flight set and leaves no
    task for it; the other keys stay in flight or not as they were, with the
    same number of tasks. *)
Theorem delivery_frees_key key url get w :
  reachable w -> (key, url) ∈ _pool (self w) ->
  let w' := snd (complete key url get w) in
  key ∈ _in_flight (self w)
  /\ (key ∉ _in_flight (self w'))
  /\ outstanding key w' = 0%nat
  /\ (forall k, k <> key ->
      (k ∈ _in_flight (self w') <-> k ∈ _in_flight (self w))
      /\ outstanding k w' = outstanding k w).
Proof.
  intros Hreach Hin w'.
  pose proof (reachable_cache_inv w Hreach)
    as (_ & _ & _ & Hpnd & Hfp & _ & _).
  pose proof (complete_sched key url get w) as Hs. fold w' in Hs.
  unfold sched in Hs. injection Hs as Hp Hf.
  destruct (remove_task_keys key url _ Hpnd Hin) as [_ Hsub].
  split; [| split; [| split]].
  - apply Hfp. apply list_elem_of_fmap. now exists (key, url).
  - rewrite Hf, elem_of_difference, elem_of_singleton. tauto.
  - apply outstanding_absent. rewrite Hp. intros Hk.
    now apply Hsub in Hk as [_ Hne].
  - intros k Hne. split.
    + rewrite Hf, elem_of_difference, elem_of_singleton. tauto.
    + unfold outstanding. rewrite Hp. clear -Hne.
      induction (_pool (self w)) as [| [k0 u0] l IH]; simpl; [reflexivity |].
      destruct (String.eqb_spec k0 key) as [-> | Hk0]; simpl.
      * destruct (String.eqb_spec u0 url); simpl.
        -- destruct (String.eqb_spec key k); [congruence | reflexivity].
        -- destruct (String.eqb_spec key k); [congruence | exact IH].
      * destruct (String.eqb_spec k0 k); simpl; now rewrite IH.
Qed.


Lemma on_download_succeeded_eq key payload icon w :
  _icon_from_bytes payload = Some icon -> bool_icon icon = true ->
  0 <= _max_items (self w) ->
  exists w2,
    _store_to_disk key payload
      (with_self
         (with_memory (remembered key icon (self w))
            (with_in_flight (_in_flight (self w) ∖ {[key]}) (self w))) w)
    = (Ret tt, w2)
    /\ _on_download_succeeded key payload w
       = (Ret tt,
          emit (IconReady key icon)
            (with_self
               (with_failed_until (delete key (_failed_until (self w)))
                  (with_memory (remembered key icon (self w))
                     (with_in_flight (_in_flight (self w) ∖ {[key]})
                        (self w)))) w2)).
Proof.
  intros Hicon Hbool Hmax.
  unfold _on_download_succeeded. unfold bind at 1. simpl.
  rewrite Hicon, Hbool.
  unfold bind at 1. rewrite remember_eq by (simpl; lia). cbv beta iota.
  match goal with
  | |- context [bind (_store_to_disk key payload) _ ?x] => set (w1 := x)
  end.
  destruct (store_to_disk_returns key payload w1)
    as (w2 & Hst & Hself & _).
  exists w2. split; [exact Hst |].
  unfold bind at 1. rewrite Hst. unfold bind, update, modify. simpl.
  rewrite Hself. reflexivity.
Qed.


(** X20: once a decodable download has been processed on an instance with a
    positive capacity, the key is resolved: the next lookup returns the icon
    without a notification or a disk access being added, and a further
    request for the key, whatever its URL, changes nothing. *)
Theorem resolved_is_terminal key payload icon w :
  _icon_from_bytes payload = Some icon -> bool_icon icon = true ->
  0 < _max_items (self w) ->
  let w' := snd (_on_download_succeeded key payload w) in
  fst (get_icon key w') = Ret (Some icon)
  /\ trace (snd (get_icon key w')) = trace w'
  /\ forall url, request_icon key url w' = (Ret tt, w').
Proof.
  intros Hicon Hbool Hmax w'.
  destruct (on_download_succeeded_eq key payload icon w Hicon Hbool)
    as (w2 & _ & Hrun); [lia |].
  subst w'. rewrite Hrun. simpl.
  destruct (get_remembered key icon (self w) Hmax) as [Hget _].
  split; [| split].
  - rewrite (get_icon_hit key icon); [reflexivity | exact Hget | exact Hbool].
  - rewrite (get_icon_hit key icon); [reflexivity | exact Hget | exact Hbool].
  - intros url. apply request_in_memory. simpl.
    unfold OrderedDict.contains. now rewrite Hget.
Qed.


End FacadeInvariant.

(** ** Icons in the conversation tree *)

Section WindowProperties.
Context {P : Platform}.

Lemma refresh_items_spec icon items : forall ui acc,
  let r := refresh_items icon items ui acc in
  snd r = acc ++ List.filter (in_tree ui) items
  /\ _icon_cache (fst r) = _icon_cache ui
  /\ _icon_items (fst r) = _icon_items ui
  /\ in_tree (fst r) = in_tree ui
  /\ forall it,
       column_icon (fst r) !! it
       = if bool_decide (it ∈ items) && in_tree ui it then Some icon
         else column_icon ui !! it.
Proof.
  induction items as [| x items IH]; intros ui acc; simpl.
  - rewrite app_nil_r. repeat split.
  - destruct (in_tree ui x) eqn:Hx.
    + destruct (IH (setIcon x icon ui) (acc ++ [x])) as (H1 & H2 & H3 & H4 & H5).
      simpl in *. rewrite H1, H2, H3, H4, <- app_assoc.
      repeat split. intros it. rewrite H5.
      destruct (decide (it = x)) as [-> | Hne].
      * rewrite Hx, andb_true_r.
        rewrite (bool_decide_eq_true_2 (x ∈ x :: items)) by left.
        destruct (bool_decide _); [reflexivity |]. simpl.
        apply lookup_insert_eq.
      * rewrite lookup_insert_ne by congruence.
        destruct (in_tree ui it); rewrite ?andb_false_r, ?andb_true_r;
          [| reflexivity].
        destruct (bool_decide_reflect (it ∈ items)) as [Hin | Hnin].
        -- rewrite bool_decide_eq_true_2 by now right. reflexivity.
        -- rewrite bool_decide_eq_false_2; [reflexivity |].
           intros Hin. apply elem_of_cons in Hin as [? | ?]; contradiction.
    + destruct (IH ui acc) as (H1 & H2 & H3 & H4 & H5).
      rewrite H1, H2, H3, H4. repeat split. intros it. rewrite H5.
      destruct (decide (it = x)) as [-> | Hne].
      * rewrite Hx, !andb_false_r. reflexivity.
      * destruct (in_tree ui it); rewrite ?andb_false_r, ?andb_true_r;
          [| reflexivity].
        destruct (bool_decide_reflect (it ∈ items)) as [Hin | Hnin].
        -- rewrite bool_decide_eq_true_2 by now right. reflexivity.
        -- rewrite bool_decide_eq_false_2; [reflexivity |].
           intros Hin. apply elem_of_cons in Hin as [? | ?]; contradiction.
Qed.

Lemma on_icon_ready_spec key icon ui :
  let ui' := on_icon_ready key (QIconObject icon) ui in
  (forall it,
     column_icon ui' !! it
     = if live_bound key ui it then Some icon else column_icon ui !! it)
  /\ (bound_items key ui <> [] ->
      _icon_items ui' !! key
      = match List.filter (in_tree ui) (bound_items key ui) with
        | [] => None
        | alive => Some alive
        end)
  /\ (bound_items key ui = [] -> ui' = ui)
  /\ (forall k, k <> key -> _icon_items ui' !! k = _icon_items ui !! k)
  /\ _icon_cache ui' = _icon_cache ui
  /\ in_tree ui' = in_tree ui
  /\ on_icon_ready key OtherObject ui = ui.
Proof.
  intros ui'. subst ui'. unfold on_icon_ready, live_bound.
  fold (bound_items key ui).
  destruct (bound_items key ui) as [| x items] eqn:Hb.
  - repeat split; congruence.
  - destruct (refresh_items_spec icon (x :: items) ui [])
      as (H1 & H2 & H3 & H4 & H5).
    destruct (refresh_items icon (x :: items) ui []) as [ui1 alive].
    cbn [fst snd] in H1, H2, H3, H4, H5. rewrite app_nil_l in H1. subst alive.
    destruct (List.filter (in_tree ui) (x :: items)) as [| a alive] eqn:Hf.
    + split; [intros it; now rewrite <- H5 |].
      split; [intros _; simpl; rewrite H3; apply lookup_delete_eq |].
      split; [discriminate |].
      split; [intros k Hne; simpl; rewrite H3; now apply lookup_delete_ne |].
      repeat split; assumption.
    + split; [intros it; now rewrite <- H5 |].
      split; [intros _; simpl; rewrite H3; apply lookup_insert_eq |].
      split; [discriminate |].
      split; [intros k Hne; simpl; rewrite H3; now apply lookup_insert_ne |].
      repeat split; assumption.
Qed.


(** X21: a notification with an icon shows it on exactly the items that
    are bound to its key and in the tree, and on no other item; the key's
    bindings are pruned to those items, in order, and the key is dropped
    when none is left; other keys' bindings and the cache are untouched.  A
    notification for a key without bindings, or whose object is not an icon,
    changes nothing. *)
Theorem on_icon_ready_refreshes :
  forall key icon (ui : MainWindow),
    let ui' := on_icon_ready key (QIconObject icon) ui in
    (forall it,
       column_icon ui' !! it
       = if live_bound key ui it then Some icon else column_icon ui !! it)
    /\ (bound_items key ui <> [] ->
        _icon_items ui' !! key
        = match List.filter (in_tree ui) (bound_items key ui) with
          | [] => None
          | alive => Some alive
          end)
    /\ (bound_items key ui = [] -> ui' = ui)
    /\ (forall k, k <> key -> _icon_items ui' !! k = _icon_items ui !! k)
    /\ _icon_cache ui' = _icon_cache ui
    /\ in_tree ui' = in_tree ui
    /\ on_icon_ready key OtherObject ui = ui.
Proof. intros key icon ui. exact (on_icon_ready_spec key icon ui). Qed.

(** X22: after the bindings are reset no notification reaches an item:
    the slot leaves the window as it is, for every key and object. *)
Theorem reset_unbinds_items :
  forall key obj (ui : MainWindow),
    on_icon_ready key obj (_reset_icon_bindings ui) = _reset_icon_bindings ui.
Proof.
  intros key [icon |] ui; [| reflexivity].
  unfold on_icon_ready, _reset_icon_bindings. simpl.
  now rewrite lookup_empty.
Qed.

Lemma call_cache_quiet {A} (m : M A) ui o w :
  m (_icon_cache ui) = (o, w) ->
  notifications (trace w) = notifications (trace (_icon_cache ui)) ->
  call_cache m ui = (o, with_icon_cache w ui).
Proof.
  intros Hm Hn. unfold call_cache, new_notifications. rewrite Hm, Hn.
  now rewrite drop_all.
Qed.

Lemma call_cache_one {A} (m : M A) ui o w key icon :
  m (_icon_cache ui) = (o, w) ->
  notifications (trace w)
  = notifications (trace (_icon_cache ui)) ++ [(key, icon)] ->
  call_cache m ui
  = (o, on_icon_ready key (QIconObject icon) (with_icon_cache w ui)).
Proof.
  intros Hm Hn. unfold call_cache, new_notifications. rewrite Hm, Hn.
  rewrite drop_app_length. reflexivity.
Qed.

Lemma bound_items_track key it ui :
  key <> "" ->
  bound_items key (_track_item_icon_key key it ui)
  = bound_items key ui ++ [it].
Proof.
  intros Hkey. unfold _track_item_icon_key, bound_items.
  apply bool_str_true in Hkey. rewrite Hkey. simpl.
  now rewrite lookup_insert_eq.
Qed.

(** X23: binding an item without a key, or with the empty key, only sets
    the fallback icon.  Binding it with a key whose icon is in the memory
    cache shows that icon on the item at once, leaves the other items'
    icons alone, adds the item to the key's bindings and moves the key to
    the recent end of the memory cache; nothing is requested, notified, read
    from disk or written. *)
Theorem apply_icon_without_request it key url fallback ui :
  (key = None \/ key = Some "" ->
   _apply_cached_or_request_icon it key url fallback ui
   = (Ret tt, setIcon it fallback ui))
  /\ (forall k icon,
        key = Some k -> k <> "" ->
        OrderedDict.get k (_memory (self (_icon_cache ui))) = Some icon ->
        bool_icon icon = true ->
        exists ui',
          _apply_cached_or_request_icon it key url fallback ui = (Ret tt, ui')
          /\ column_icon ui' !! it = Some icon
          /\ (forall other, other <> it ->
              column_icon ui' !! other = column_icon ui !! other)
          /\ bound_items k ui' = bound_items k ui ++ [it]
          /\ trace (_icon_cache ui') = trace (_icon_cache ui)
          /\ files (_icon_cache ui') = files (_icon_cache ui)
          /\ _memory (self (_icon_cache ui'))
             = OrderedDict.remove k (_memory (self (_icon_cache ui)))
               ++ [(k, icon)]).
Proof.
  split.
  - intros [-> | ->]; reflexivity.
  - intros k icon -> Hk Hget Hbool.
    unfold _apply_cached_or_request_icon. simpl.
    pose proof Hk as Hk'. apply bool_str_true in Hk'. rewrite Hk'. simpl.
    remember (_track_item_icon_key k it (setIcon it fallback ui)) as ui1
      eqn:Hui1.
    assert (_icon_cache ui1 = _icon_cache ui) as Hc.
    { subst ui1. unfold _track_item_icon_key. rewrite Hk'. reflexivity. }
    rewrite (call_cache_quiet (get_icon k) ui1 (Ret (Some icon))
               (with_self
                  (with_memory
                     (OrderedDict.remove k (_memory (self (_icon_cache ui1)))
                      ++ [(k, icon)]) (self (_icon_cache ui1)))
                  (_icon_cache ui1))).
    + rewrite Hbool. eexists. split; [reflexivity |]. simpl.
      split; [apply lookup_insert_eq |].
      split.
      { intros other Hne. rewrite lookup_insert_ne by congruence.
        subst ui1. unfold _track_item_icon_key. rewrite Hk'. simpl.
        now rewrite lookup_insert_ne by congruence. }
      split.
      { change (bound_items k ui1 = bound_items k ui ++ [it]).
        subst ui1. now rewrite bound_items_track. }
      repeat split; congruence.
    + apply get_icon_hit; rewrite ?Hc; assumption.
    + reflexivity.
Qed.


Lemma track_frame key it ui :
  _icon_cache (_track_item_icon_key key it ui) = _icon_cache ui
  /\ column_icon (_track_item_icon_key key it ui) = column_icon ui
  /\ in_tree (_track_item_icon_key key it ui) = in_tree ui
  /\ forall k, k <> key ->
       _icon_items (_track_item_icon_key key it ui) !! k = _icon_items ui !! k.
Proof.
  unfold _track_item_icon_key. destruct (negb _); simpl; repeat split.
  intros k Hne. now apply lookup_insert_ne.
Qed.

Lemma apply_icon_memory_miss it k url fallback ui :
  k <> "" ->
  OrderedDict.get k (_memory (self (_icon_cache ui))) = None ->
  _apply_cached_or_request_icon it (Some k) url fallback ui
  = call_cache (request_icon k url)
      (_track_item_icon_key k it (setIcon it fallback ui)).
Proof.
  intros Hk Hget. unfold _apply_cached_or_request_icon. simpl.
  pose proof Hk as Hk'. apply bool_str_true in Hk'. rewrite Hk'. simpl.
  remember (_track_item_icon_key k it (setIcon it fallback ui)) as ui1
    eqn:Hui1.
  assert (_icon_cache ui1 = _icon_cache ui) as Hc
    by (subst ui1;
        exact (proj1 (track_frame k it (setIcon it fallback ui)))).
  rewrite (call_cache_quiet (get_icon k) ui1 (Ret None) (_icon_cache ui1)).
  - destruct ui1; reflexivity.
  - apply get_icon_miss. now rewrite Hc.
  - reflexivity.
Qed.

(** X24: binding an item with a key that is only on disk loads the icon
    into the memory cache and notifies it once, without a fetch.  The slot
    runs during the call: an item that is in the tree by then gets the icon
    and stays bound; an item that is not yet in the tree keeps the fallback
    icon and loses its binding, the key's only one, so no later notification
    reaches it. *)
Theorem apply_icon_disk_hit it k url fallback payload icon ui :
  let w := _icon_cache ui in
  k <> "" ->
  OrderedDict.contains k (_memory (self w)) = false ->
  k ∉ _in_flight (self w) ->
  cooling_down (_failed_until (self w) !! k) (clock w) = false ->
  files w !! key_path w k = Some payload ->
  fault w (OpReadFile (key_path w k)) = false ->
  _icon_from_bytes payload = Some icon -> bool_icon icon = true ->
  0 <= _max_items (self w) ->
  bound_items k ui = [] ->
  exists ui',
    _apply_cached_or_request_icon it (Some k) url fallback ui = (Ret tt, ui')
    /\ fetches (trace (_icon_cache ui')) = fetches (trace w)
    /\ notifications (trace (_icon_cache ui'))
       = notifications (trace w) ++ [(k, icon)]
    /\ _memory (self (_icon_cache ui')) = remembered k icon (self w)
    /\ (in_tree ui it = true ->
        column_icon ui' !! it = Some icon /\ bound_items k ui' = [it])
    /\ (in_tree ui it = false ->
        column_icon ui' !! it = Some fallback /\ _icon_items ui' !! k = None).
Proof.
  intros w Hk Hmem Hfl Hcool Hfile Hread Hicon Hbool Hmax Hbound.
  rewrite apply_icon_memory_miss by (try apply contains_false_get; assumption).
  remember (_track_item_icon_key k it (setIcon it fallback ui)) as ui1
    eqn:Hui1.
  destruct (track_frame k it (setIcon it fallback ui))
    as (Hc & Hcol & Htree & _).
  rewrite <- Hui1 in Hc, Hcol, Htree. simpl in Hc, Hcol, Htree.
  assert (bound_items k ui1 = [it]) as Hb1.
  { subst ui1. rewrite bound_items_track by assumption.
    unfold bound_items in *. simpl. now rewrite Hbound. }
  erewrite call_cache_one.
  2: { rewrite Hc. apply (request_disk_hit_eq k url payload icon);
       eassumption. }
  2: { simpl. rewrite <- !app_assoc, notifications_app, Hc. reflexivity. }
  match goal with
  | |- context [on_icon_ready k (QIconObject icon) ?u] =>
      remember u as ui2 eqn:Hui2
  end.
  assert (bound_items k ui2 = [it]) as Hb2 by (subst ui2; exact Hb1).
  assert (in_tree ui2 = in_tree ui) as Htree2 by (subst ui2; exact Htree).
  assert (column_icon ui2 !! it = Some fallback) as Hcol2.
  { subst ui2. simpl. rewrite Hcol. simpl. apply lookup_insert_eq. }
  destruct (on_icon_ready_spec k icon ui2)
    as (Hicons & Hkeep & _ & _ & Hcache & _).
  remember (on_icon_ready k (QIconObject icon) ui2) as ui' eqn:Hui'.
  exists ui'. split; [reflexivity |].
  rewrite Hcache. rewrite Hui2. simpl.
  split; [rewrite !fetches_app; simpl; rewrite !app_nil_r, ?Hc; reflexivity |].
  split; [rewrite !notifications_app; simpl; rewrite !app_nil_r, ?Hc;
          reflexivity |].
  split; [rewrite ?Hc; reflexivity |].
  assert (live_bound k ui2 it = in_tree ui it) as Hlive.
  { unfold live_bound. rewrite Hb2.
    rewrite bool_decide_eq_true_2 by left. simpl. now rewrite Htree2. }
  specialize (Hkeep ltac:(now rewrite Hb2)).
  rewrite Hb2, Htree2 in Hkeep. simpl in Hkeep.
  split.
  - intros Hin. split.
    + rewrite Hicons, Hlive, Hin. reflexivity.
    + unfold bound_items. rewrite Hkeep, Hin. reflexivity.
  - intros Hout. split.
    + rewrite Hicons, Hlive, Hout. exact Hcol2.
    + rewrite Hkeep, Hout. reflexivity.
Qed.


Lemma complete_success_eq key url get payload icon w :
  get url DOWNLOAD_TIMEOUT_SECONDS _IconDownloadTask.headers
  = Responded {| status_code := 200; content := Some payload |} ->
  payload <> [] ->
  _icon_from_bytes payload = Some icon -> bool_icon icon = true ->
  0 <= _max_items (self w) ->
  exists w',
    complete key url get w = (Ret tt, w')
    /\ notifications (trace w') = notifications (trace w) ++ [(key, icon)]
    /\ fetches (trace w') = fetches (trace w)
    /\ _memory (self w') = remembered key icon (self w)
    /\ _in_flight (self w') = _in_flight (self w) ∖ {[key]}
    /\ _pool (self w') = remove_task (key, url) (_pool (self w)).
Proof.
  intros Hget Hne Hicon Hbool Hmax.
  unfold complete. unfold bind at 1. simpl.
  unfold _IconDownloadTask.run. simpl. rewrite Hget. simpl.
  destruct payload as [| b payload]; [congruence |]. simpl.
  set (w0 := with_self _ w).
  destruct (on_download_succeeded_eq key (b :: payload) icon w0 Hicon Hbool)
    as (w2 & Hst & Hrun); [exact Hmax |].
  destruct (store_to_disk_returns key (b :: payload)
              (with_self
                 (with_memory (remembered key icon (self w0))
                    (with_in_flight (_in_flight (self w0) ∖ {[key]})
                       (self w0))) w0))
    as (w2' & Hst' & Hself & _ & _ & Hn & Hf).
  rewrite Hst in Hst'. injection Hst' as <-.
  eexists. split; [exact Hrun |]. simpl.
  rewrite notifications_app, fetches_app, Hn, Hf. simpl.
  rewrite app_nil_r. repeat split.
Qed.

(** X25: when the fetch of a task returns status 200 with a non-empty body
    that decodes (capacity not negative), delivering it shows the icon on
    exactly the items bound to the key that are in the tree, keeps every
    other item's icon, prunes the key's bindings to the items in the tree
    and leaves the bindings of the other keys alone. *)
Theorem delivery_refreshes_items key url get payload icon ui :
  get url DOWNLOAD_TIMEOUT_SECONDS _IconDownloadTask.headers
  = Responded {| status_code := 200; content := Some payload |} ->
  payload <> [] ->
  _icon_from_bytes payload = Some icon -> bool_icon icon = true ->
  0 <= _max_items (self (_icon_cache ui)) ->
  exists ui',
    window_complete key url get ui = (Ret tt, ui')
    /\ (forall it,
          column_icon ui' !! it
          = if live_bound key ui it then Some icon else column_icon ui !! it)
    /\ bound_items key ui' = List.filter (in_tree ui) (bound_items key ui)
    /\ (forall k, k <> key -> _icon_items ui' !! k = _icon_items ui !! k).
Proof.
  intros Hget Hne Hicon Hbool Hmax.
  destruct (complete_success_eq key url get payload icon (_icon_cache ui)
              Hget Hne Hicon Hbool Hmax) as (w' & Hrun & Hn & _).
  unfold window_complete. erewrite call_cache_one; [| exact Hrun | exact Hn].
  remember (with_icon_cache w' ui) as ui1 eqn:Hui1.
  destruct (on_icon_ready_spec key icon ui1)
    as (Hicons & Hkeep & Hnone & Hother & _).
  assert (bound_items key ui1 = bound_items key ui) as Hb
    by (subst ui1; reflexivity).
  assert (in_tree ui1 = in_tree ui) as Ht by (subst ui1; reflexivity).
  eexists. split; [reflexivity |]. split; [| split].
  - intros it. rewrite Hicons. unfold live_bound. rewrite Hb, Ht.
    subst ui1. reflexivity.
  - destruct (bound_items key ui) as [| x l] eqn:Hbi.
    + rewrite Hnone by exact Hb. rewrite Hb. reflexivity.
    + unfold bound_items at 1. rewrite Hkeep by (rewrite Hb; discriminate).
      rewrite Hb, Ht.
      destruct (List.filter (in_tree ui) (x :: l)); reflexivity.
  - intros k Hk. rewrite Hother by assumption. subst ui1. reflexivity.
Qed.

(** X26: when the fetch of a task fails (transport error, a status other
    than 200 or an empty body), delivering it changes nothing in the window
    but the cache's own state: no icon and no binding changes, nothing is
    notified, the memory cache is the same and the key has a retry
    deadline. *)
Theorem failed_delivery_keeps_icons key url get ui :
  fetch_fails (get url DOWNLOAD_TIMEOUT_SECONDS _IconDownloadTask.headers) ->
  exists w',
    window_complete key url get ui = (Ret tt, with_icon_cache w' ui)
    /\ notifications (trace w') = notifications (trace (_icon_cache ui))
    /\ _memory (self w') = _memory (self (_icon_cache ui))
    /\ is_Some (_failed_until (self w') !! key).
Proof.
  intros Hres.
  destruct (complete_failure_eq key url get (_icon_cache ui) Hres)
    as [reason Hrun].
  eexists. split; [| split; [| split]].
  - unfold window_complete. apply call_cache_quiet; [exact Hrun |].
    simpl. rewrite notifications_app. simpl. apply app_nil_r.
  - simpl. rewrite notifications_app. simpl. apply app_nil_r.
  - reflexivity.
  - simpl. rewrite lookup_insert_eq. eauto.
Qed.

(** X27: two items bound one after the other to the same new key (not in
    memory, in flight, cooling down or on disk) with a non-empty URL cause
    one fetch: the second binding finds the key in flight.  Both items are
    bound to the key, in order, and show their fallback icons. *)
Theorem one_fetch_for_many_items it1 it2 k u fallback1 fallback2 ui :
  let w := _icon_cache ui in
  k <> "" -> u <> "" ->
  OrderedDict.contains k (_memory (self w)) = false ->
  k ∉ _in_flight (self w) ->
  cooling_down (_failed_until (self w) !! k) (clock w) = false ->
  files w !! key_path w k = None ->
  bound_items k ui = [] ->
  exists ui1 ui2,
    _apply_cached_or_request_icon it1 (Some k) (Some u) fallback1 ui
    = (Ret tt, ui1)
    /\ _apply_cached_or_request_icon it2 (Some k) (Some u) fallback2 ui1
       = (Ret tt, ui2)
    /\ fetches (trace (_icon_cache ui2)) = fetches (trace w) ++ [(k, u)]
    /\ _pool (self (_icon_cache ui2)) = _pool (self w) ++ [(k, u)]
    /\ bound_items k ui2 = [it1; it2]
    /\ column_icon ui2 !! it2 = Some fallback2
    /\ (it1 <> it2 -> column_icon ui2 !! it1 = Some fallback1).
Proof.
  intros w Hk Hu Hmem Hfl Hcool Hfile Hbound.
  pose proof Hmem as Hget. apply contains_false_get in Hget.
  set (a := _track_item_icon_key k it1 (setIcon it1 fallback1 ui)).
  destruct (track_frame k it1 (setIcon it1 fallback1 ui))
    as (Hc & Hcol & _ & _).
  fold a in Hc, Hcol. simpl in Hc, Hcol.
  assert (bound_items k a = [it1]) as Hba.
  { subst a. rewrite bound_items_track by assumption.
    unfold bound_items in *. simpl. now rewrite Hbound. }
  set (w1 := scheduled_world k u
               (emit (DiskIO (OpIsFile (key_path w k))) w)).
  set (ui1 := with_icon_cache w1 a).
  assert (_apply_cached_or_request_icon it1 (Some k) (Some u) fallback1 ui
          = (Ret tt, ui1)) as H1.
  { rewrite apply_icon_memory_miss by assumption. fold a.
    apply call_cache_quiet.
    - rewrite Hc.
      etransitivity;
        [apply (request_disk_miss_eq k (Some u) w None
                  (emit (DiskIO (OpIsFile (key_path w k))) w));
         try assumption; [now apply load_from_disk_miss | reflexivity] |].
      unfold schedule_fetch. simpl.
      pose proof Hu as Hu'. apply bool_str_true in Hu'. rewrite Hu'.
      reflexivity.
    - subst w1. simpl. rewrite !notifications_app. simpl.
      rewrite !app_nil_r. now rewrite Hc. }
  set (b := _track_item_icon_key k it2 (setIcon it2 fallback2 ui1)).
  destruct (track_frame k it2 (setIcon it2 fallback2 ui1))
    as (Hc2 & Hcol2 & _ & _).
  fold b in Hc2, Hcol2. simpl in Hc2, Hcol2.
  set (ui2 := with_icon_cache w1 b).
  assert (_apply_cached_or_request_icon it2 (Some k) (Some u) fallback2 ui1
          = (Ret tt, ui2)) as H2.
  { rewrite apply_icon_memory_miss by assumption. fold b.
    apply call_cache_quiet; [| now rewrite Hc2].
    rewrite Hc2. apply request_in_flight. simpl.
    apply elem_of_union. left. now apply elem_of_singleton. }
  exists ui1, ui2. split; [exact H1 |]. split; [exact H2 |]. simpl.
  split; [rewrite !fetches_app; simpl; now rewrite !app_nil_r |].
  split; [reflexivity |].
  split.
  { change (bound_items k b = [it1; it2]). subst b.
    rewrite bound_items_track by assumption.
    change (bound_items k (setIcon it2 fallback2 ui1)) with (bound_items k a).
    now rewrite Hba. }
  rewrite Hcol2.
  split; [apply lookup_insert_eq |].
  intros Hne. rewrite lookup_insert_ne by congruence.
  simpl. rewrite Hcol. apply lookup_insert_eq.
Qed.

End WindowProperties.

(** ** Construction *)

Section Construction.
Context {P : Platform}.

(** X28: constructing a cache raises OSError exactly when the icon
    directory cannot be made, and otherwise returns; it makes that one
    directory and touches no file.  The instance holds no icon, no key in
    flight, no retry deadline and no task, so every lookup answers None and
    changes nothing; its capacity is the argument, or 256 when none is
    given. *)
Theorem init_fresh :
  forall max_items max_workers (w : World),
    let disk_dir := os_path_join (user_cache_dir APP_NAME) "icons" in
    let w' := snd (__init__ max_items max_workers w) in
    fst (__init__ max_items max_workers w)
    = (if fault w (OpMakedirs disk_dir) then Raise OSError else Ret tt)
    /\ files w' = files w
    /\ trace w' = trace w ++ [DiskIO (OpMakedirs disk_dir)]
    /\ _max_items (self w') = default 256 max_items
    /\ _disk_dir (self w') = disk_dir
    /\ _memory (self w') = []
    /\ _in_flight (self w') = ∅
    /\ _failed_until (self w') = ∅
    /\ _pool (self w') = []
    /\ forall key, get_icon key w' = (Ret None, w').
Proof.
  intros max_items max_workers w disk_dir w'. subst w'.
  unfold __init__, bind, modify, os_makedirs, guard_fault, bind, modify, gets.
  simpl. fold disk_dir.
  destruct (fault w (OpMakedirs disk_dir)); simpl;
    repeat (split; [reflexivity |]);
    intros key; now apply get_icon_miss.
Qed.

End Construction.

(** ** Instances of the further properties *)

Lemma cdn_urls_distinguish_witness :
  build_dm_avatar_url "1" "a" 64 <> build_guild_icon_url "1" "a" 64.
Proof.
  exact (proj1 (proj2 (proj2 (cdn_urls_distinguish "1" "1" "a" "a" 0 64 64)))).
Defined.

Lemma resolve_guild_icon_cases_witness :
  _resolve_guild_icon {| Guild.id := Some "3"; Guild.icon_hash := Some "c" |}
  = (Some "guild:3:c",
     Some "https://cdn.discordapp.com/icons/3/c.png?size=64").
Proof.
  apply (proj1 (resolve_guild_icon_cases
                  {| Guild.id := Some "3"; Guild.icon_hash := Some "c" |})
           "3" "c");
    [reflexivity | discriminate | reflexivity | discriminate].
Defined.

Lemma resolve_dm_icon_avatar_witness :
  _resolve_dm_icon
    {| Dm.icon_user_id := Some "1"; Dm.icon_avatar := Some "a";
       Dm.icon_discriminator := Some "0"; Dm.recipients := None |}
  = (Some "dm:1:a",
     Some "https://cdn.discordapp.com/avatars/1/a.png?size=64").
Proof.
  destruct (resolve_dm_icon_avatar
              {| Dm.icon_user_id := Some "1"; Dm.icon_avatar := Some "a";
                 Dm.icon_discriminator := Some "0"; Dm.recipients := None |}
              "1" "a") as [H _];
    [reflexivity | discriminate | reflexivity | discriminate | exact H].
Defined.

Lemma resolve_dm_icon_default_witness :
  exists who index,
    who <> "" /\ 0 <= index <= 5
    /\ "dm-default:7:2" = "dm-default:" +:+ who +:+ ":" +:+ Py.str_of_int index
    /\ "https://cdn.discordapp.com/embed/avatars/2.png?size=64"
       = CDN_BASE +:+ "/embed/avatars/" +:+ Py.str_of_int index
         +:+ ".png?size=64".
Proof.
  apply (resolve_dm_icon_default
           {| Dm.icon_user_id := Some "7"; Dm.icon_avatar := None;
              Dm.icon_discriminator := Some "0007"; Dm.recipients := None |});
    reflexivity.
Defined.

Lemma worker_entry_icon_witness :
  _resolve_dm_icon (dm_entry (Some []))
  = (Some "dm-default:unknown:0",
     Some (CDN_BASE +:+ "/embed/avatars/0.png?size=64")).
Proof.
  apply (proj2 (worker_entry_icon (Some []))). right. reflexivity.
Defined.

Lemma store_to_disk_atomic_witness :
  let w := Sample.world 256 in
  files (snd (_store_to_disk (P := Sample.platform) Sample.key1 Sample.png w))
    !! tmp_path w Sample.key1 = None.
Proof.
  intros w.
  apply (proj2 (proj2 (proj2 (proj2
           (store_to_disk_atomic (P := Sample.platform)
              Sample.key1 Sample.png w))))).
  reflexivity.
Defined.

Lemma request_icon_disk_hit_witness :
  let w := SampleWindow.world_with_file in
  Sample.request Sample.key1 None w
  = (Ret tt,
     emit (IconReady (P := Sample.platform) Sample.key1 Sample.png)
       (with_self
          (with_memory
             (remembered (P := Sample.platform) Sample.key1 Sample.png
                (self w)) (self w))
          (emit (DiskIO (OpReadFile (key_path w Sample.key1)))
             (emit (DiskIO (OpIsFile (key_path w Sample.key1))) w)))).
Proof.
  intros w.
  apply (request_icon_disk_hit (P := Sample.platform)
           Sample.key1 None Sample.png Sample.png w);
    first [ discriminate | reflexivity | (vm_compute; discriminate) ].
Defined.

Lemma request_icon_disk_miss_witness :
  let w := Sample.world 256 in
  let w1 := emit (DiskIO (OpIsFile (key_path w Sample.key1))) w in
  Sample.request Sample.key1 (Some Sample.url1) w
  = (Ret tt, scheduled_world Sample.key1 Sample.url1 w1)
  /\ Sample.request Sample.key1 None w = (Ret tt, w1).
Proof.
  intros w w1. split.
  - destruct (request_icon_disk_miss (P := Sample.platform)
                Sample.key1 (Some Sample.url1) w None w1) as [H _];
      [ discriminate | reflexivity | vm_compute; discriminate | reflexivity
      | reflexivity | reflexivity | ].
    apply (H Sample.url1); [reflexivity | discriminate].
  - destruct (request_icon_disk_miss (P := Sample.platform)
                Sample.key1 None w None w1) as [_ H];
      [ discriminate | reflexivity | vm_compute; discriminate | reflexivity
      | reflexivity | reflexivity | ].
    apply H. left. reflexivity.
Defined.

Lemma negative_capacity_raises_witness :
  let w := Sample.world (-1) in
  Sample.remember Sample.key1 Sample.png w
  = (Raise KeyError, with_self (with_memory [] (self w)) w).
Proof.
  intros w.
  destruct (negative_capacity_raises (P := Sample.platform)
              Sample.key1 Sample.png Sample.png w) as [H _];
    [reflexivity | reflexivity | reflexivity | exact H].
Defined.

Lemma failed_fetch_cools_down_witness :
  let w := SampleWindow.started in
  exists reason,
    complete Sample.key1 Sample.url1 SampleWindow.get_404 w
    = (Ret tt,
       failed_world Sample.key1 reason
         (released Sample.key1 Sample.url1 w)).
Proof.
  intros w.
  destruct (failed_fetch_cools_down (P := Sample.platform)
              Sample.key1 Sample.url1 SampleWindow.get_404 w)
    as (reason & H & _).
  - left. discriminate.
  - exists reason. exact H.
Defined.

Lemma get_icon_only_reorders_witness :
  let w := SampleWindow.warm in
  exists r w',
    Sample.get Sample.key1 w = (Ret r, w')
    /\ _memory (self w') ≡ₚ _memory (self w).
Proof.
  intros w.
  destruct (get_icon_only_reorders (P := Sample.platform) Sample.key1 w)
    as (r & w' & H1 & _ & H3 & _).
  - apply (bool_decide_unpack _). vm_compute. exact I.
  - exists r, w'. split; [exact H1 | exact H3].
Defined.

Lemma started_reachable : reachable SampleWindow.started.
Proof.
  apply (reachable_step (P := Sample.platform)
           (snd (__init__ None None (Sample.world 256)))).
  - apply reachable_init.
  - apply step_request.
Qed.

Lemma started_pool :
  (Sample.key1, Sample.url1) ∈ _pool (self SampleWindow.started).
Proof. vm_compute. left. Qed.

Lemma delivered_reachable : reachable SampleWindow.delivered.
Proof.
  apply (reachable_step (P := Sample.platform) SampleWindow.started).
  - exact started_reachable.
  - apply step_complete. exact started_pool.
Qed.

Lemma memory_cache_invariant_witness :
  let w := SampleWindow.delivered in
  _memory (self w) = [(Sample.key1, Sample.png)]
  /\ NoDup (OrderedDict.keys (_memory (self w)))
  /\ (forall k i, (k, i) ∈ _memory (self w) ->
      k <> "" /\ bool_icon (Platform := Sample.platform) i = true)
  /\ (0 <= _max_items (self w) ->
      Z.of_nat (length (_memory (self w))) <= _max_items (self w)).
Proof.
  intros w. split; [reflexivity |].
  apply (memory_cache_invariant (P := Sample.platform) w).
  exact delivered_reachable.
Defined.

Lemma in_flight_invariant_witness :
  let w := SampleWindow.started in
  Sample.key1 ∈ _in_flight (self w)
  /\ OrderedDict.get Sample.key1 (_memory (self w)) = None
  /\ exists u, (Sample.key1, u) ∈ _pool (self w) /\ u <> "".
Proof.
  intros w.
  assert (Sample.key1 ∈ _in_flight (self w)) as Hin
    by (apply (bool_decide_unpack _); vm_compute; exact I).
  split; [exact Hin |].
  destruct (in_flight_invariant (P := Sample.platform) w started_reachable)
    as [H _].
  destruct (H Sample.key1 Hin) as (Hget & _ & Hu).
  split; [exact Hget | exact Hu].
Defined.

Lemma delivery_frees_key_witness :
  let w := SampleWindow.started in
  Sample.key1 ∈ _in_flight (self w)
  /\ (Sample.key1 ∉ _in_flight (self SampleWindow.delivered))
  /\ outstanding Sample.key1 SampleWindow.delivered = 0%nat.
Proof.
  intros w.
  destruct (delivery_frees_key (P := Sample.platform)
              Sample.key1 Sample.url1 SampleWindow.get_png w
              started_reachable started_pool) as (H1 & H2 & H3 & _).
  split; [exact H1 |]. split; [exact H2 | exact H3].
Defined.

Lemma resolved_is_terminal_witness :
  let w := Sample.world 256 in
  let w' := snd (_on_download_succeeded (P := Sample.platform)
                   Sample.key1 Sample.png w) in
  fst (Sample.get Sample.key1 w') = Ret (Some Sample.png)
  /\ forall url, Sample.request Sample.key1 url w' = (Ret tt, w').
Proof.
  intros w w'.
  destruct (resolved_is_terminal (P := Sample.platform)
              Sample.key1 Sample.png Sample.png w) as (H1 & _ & H3);
    [reflexivity | reflexivity | reflexivity |].
  split; [exact H1 | exact H3].
Defined.

Lemma apply_icon_disk_hit_witness :
  let ui := SampleWindow.window SampleWindow.world_with_file false in
  exists ui',
    _apply_cached_or_request_icon (P := Sample.platform) 0%nat
      (Some Sample.key1) (Some Sample.url1) SampleWindow.placeholder ui
    = (Ret tt, ui')
    /\ fetches (trace (_icon_cache ui')) = []
    /\ column_icon ui' !! 0%nat = Some SampleWindow.placeholder
    /\ _icon_items ui' !! Sample.key1 = None.
Proof.
  intros ui.
  destruct (apply_icon_disk_hit (P := Sample.platform) 0%nat Sample.key1
              (Some Sample.url1) SampleWindow.placeholder Sample.png
              Sample.png ui)
    as (ui' & H1 & H2 & _ & _ & _ & Hout);
    [ discriminate | reflexivity | vm_compute; discriminate | reflexivity
    | reflexivity | reflexivity | reflexivity | reflexivity | discriminate
    | reflexivity | ].
  exists ui'. split; [exact H1 |]. split; [exact H2 |].
  apply Hout. reflexivity.
Defined.

Lemma delivery_refreshes_items_witness :
  let ui := SampleWindow.bound_window in
  exists ui',
    window_complete Sample.key1 Sample.url1 SampleWindow.get_png ui
    = (Ret tt, ui')
    /\ column_icon ui' !! 0%nat = Some Sample.png
    /\ bound_items Sample.key1 ui' = [0%nat].
Proof.
  intros ui.
  destruct (delivery_refreshes_items (P := Sample.platform)
              Sample.key1 Sample.url1 SampleWindow.get_png Sample.png
              Sample.png ui)
    as (ui' & H1 & H2 & H3 & _);
    [reflexivity | discriminate | reflexivity | reflexivity | discriminate |].
  exists ui'. split; [exact H1 |]. split; [exact (H2 0%nat) | exact H3].
Defined.

Lemma failed_delivery_keeps_icons_witness :
  let ui := SampleWindow.bound_window in
  exists w',
    window_complete Sample.key1 Sample.url1 SampleWindow.get_404 ui
    = (Ret tt, with_icon_cache w' ui)
    /\ is_Some (_failed_until (self w') !! Sample.key1).
Proof.
  intros ui.
  destruct (failed_delivery_keeps_icons (P := Sample.platform)
              Sample.key1 Sample.url1 SampleWindow.get_404 ui)
    as (w' & H1 & _ & _ & H4).
  - left. discriminate.
  - exists w'. split; [exact H1 | exact H4].
Defined.

Lemma one_fetch_for_many_items_witness :
  let ui := SampleWindow.window (Sample.world 256) true in
  exists ui1 ui2,
    _apply_cached_or_request_icon (P := Sample.platform) 0%nat
      (Some Sample.key1) (Some Sample.url1) SampleWindow.placeholder ui
    = (Ret tt, ui1)
    /\ _apply_cached_or_request_icon (P := Sample.platform) 1%nat
         (Some Sample.key1) (Some Sample.url1) SampleWindow.placeholder ui1
       = (Ret tt, ui2)
    /\ fetches (trace (_icon_cache ui2)) = [(Sample.key1, Sample.url1)]
    /\ bound_items Sample.key1 ui2 = [0%nat; 1%nat].
Proof.
  intros ui.
  destruct (one_fetch_for_many_items (P := Sample.platform) 0%nat 1%nat
              Sample.key1 Sample.url1 SampleWindow.placeholder
              SampleWindow.placeholder ui)
    as (ui1 & ui2 & H1 & H2 & H3 & _ & H5 & _);
    [ discriminate | discriminate | reflexivity | vm_compute; discriminate
    | reflexivity | reflexivity | reflexivity | ].
  exists ui1, ui2.
  split; [exact H1 |]. split; [exact H2 |]. split; [exact H3 | exact H5].
Defined.

Lemma on_icon_ready_refreshes_witness :
  let ui := SampleWindow.bound_window in
  let ui' := on_icon_ready Sample.key1
               (QIconObject (P := Sample.platform) Sample.png) ui in
  column_icon ui' !! 0%nat = Some Sample.png
  /\ _icon_items ui' !! Sample.key1 = Some [0%nat].
Proof.
  intros ui ui'.
  destruct (on_icon_ready_refreshes (P := Sample.platform)
              Sample.key1 Sample.png ui) as (H1 & H2 & _).
  split; [exact (H1 0%nat) |].
  apply H2. discriminate.
Defined.

Lemma apply_icon_without_request_witness :
  let ui := SampleWindow.window SampleWindow.warm true in
  exists ui',
    _apply_cached_or_request_icon (P := Sample.platform) 0%nat
      (Some Sample.key1) None SampleWindow.placeholder ui
    = (Ret tt, ui')
    /\ column_icon ui' !! 0%nat = Some Sample.png
    /\ trace (_icon_cache ui') = trace (_icon_cache ui).
Proof.
  intros ui.
  destruct (proj2 (apply_icon_without_request (P := Sample.platform) 0%nat
                     (Some Sample.key1) None SampleWindow.placeholder ui)
              Sample.key1 Sample.png)
    as (ui' & H1 & H2 & _ & _ & H5 & _);
    [reflexivity | discriminate | reflexivity | reflexivity |].
  exists ui'. split; [exact H1 |]. split; [exact H2 | exact H5].
Defined.
